(** * Ning backend: the in-process key-value store, the identity and
    session model and the forum, study and agent handlers built on it.

    Shallow embedding of [app/core/memory_redis.py], [app/core/security.py],
    [app/api/v1/endpoints/{auth,forum,study,agent}.py] and
    [get_cors_origins] of [app/main.py].

    Conventions of the embedding
    - a Python [str] is its sequence of code points ([list N]); a literal of
      the source is decoded from its UTF-8 text by [u8];
    - a Python value kept in the scalar map or in a set is an [int] or a
      [str] ([pyval]); [1] and ["1"] are different set members, as in Python;
    - a reading of [time.time()] is a whole number of seconds ([Z]); the
      code compares instants and, in [setex], adds a TTL to one: that sum
      is the binary64 sum, a parameter ([float_add]), since it is rounded;
    - every store method is atomic (it holds the lock for its whole body), so
      a handler is a sequence of store calls threaded through a state monad;
      each call reads the clock once ([setex] twice: once to sweep, once
      for its deadline), and so does each [_now_iso()];
    - an exception leaves the store as the calls before it made it: the
      monad returns the world next to [Raise];
    - what lies outside the repository (the Unicode tables behind
      [str.lower()], [int()] on a [str], bcrypt, the ISO formats, the
      environment) is a parameter, [Platform]; [Demo.platform] is an
      instance the model runs on. *)

From Stdlib Require Import ZArith NArith List String Ascii Lia Bool DecimalPos DecimalN.
From stdpp Require Import base option list gmap sets fin_maps sorting.

Open Scope Z_scope.

(** ** Python strings *)

Abbreviation str := (list N).

Module Utf8.

Definition cont (b : N) : N := N.land b 63.

(** Decoder for the UTF-8 text of a source literal. *)
Fixpoint decode (fuel : nat) (bs : list N) : list N :=
  match fuel with
  | O => []
  | S fuel =>
      match bs with
      | [] => []
      | b0 :: r0 =>
          if (b0 <? 128)%N then b0 :: decode fuel r0
          else if (b0 <? 224)%N then
            match r0 with
            | b1 :: r1 => (N.land b0 31 * 64 + cont b1)%N :: decode fuel r1
            | _ => []
            end
          else if (b0 <? 240)%N then
            match r0 with
            | b1 :: b2 :: r2 =>
                (N.land b0 15 * 4096 + cont b1 * 64 + cont b2)%N :: decode fuel r2
            | _ => []
            end
          else
            match r0 with
            | b1 :: b2 :: b3 :: r3 =>
                (N.land b0 7 * 262144 + cont b1 * 4096 + cont b2 * 64 + cont b3)%N
                  :: decode fuel r3
            | _ => []
            end
      end
  end.

Fixpoint bytes (s : string) : list N :=
  match s with
  | EmptyString => []
  | String a r => N_of_ascii a :: bytes r
  end.

End Utf8.

(** [u8 "..."] is the [str] a source literal denotes. *)
Definition u8 (lit : string) : str :=
  let bs := Utf8.bytes lit in Utf8.decode (length bs) bs.

(** ** Python builtins used by the handlers *)

(** [str(n)] for an [int]. *)
Fixpoint uint_digits (u : Decimal.uint) : str :=
  match u with
  | Decimal.Nil => []
  | Decimal.D0 u => 48%N :: uint_digits u
  | Decimal.D1 u => 49%N :: uint_digits u
  | Decimal.D2 u => 50%N :: uint_digits u
  | Decimal.D3 u => 51%N :: uint_digits u
  | Decimal.D4 u => 52%N :: uint_digits u
  | Decimal.D5 u => 53%N :: uint_digits u
  | Decimal.D6 u => 54%N :: uint_digits u
  | Decimal.D7 u => 55%N :: uint_digits u
  | Decimal.D8 u => 56%N :: uint_digits u
  | Decimal.D9 u => 57%N :: uint_digits u
  end.

Definition str_of_Z (z : Z) : str :=
  match z with
  | Z0 => [48%N]
  | Zpos p => uint_digits (Pos.to_uint p)
  | Zneg p => 45%N :: uint_digits (Pos.to_uint p)
  end.

(** [Py_UNICODE_ISSPACE], the characters [str.strip()] removes. *)
Definition isspace (c : N) : bool :=
  ((9 <=? c) && (c <=? 13) || (28 <=? c) && (c <=? 32)
   || (c =? 133) || (c =? 160) || (c =? 5760)
   || (8192 <=? c) && (c <=? 8202)
   || (c =? 8232) || (c =? 8233) || (c =? 8239) || (c =? 8287)
   || (c =? 12288))%N.

Fixpoint lstrip (s : str) : str :=
  match s with
  | c :: r => if isspace c then lstrip r else s
  | [] => []
  end.

Definition rstrip (s : str) : str := rev (lstrip (rev s)).

Definition strip (s : str) : str := rstrip (lstrip s).

Fixpoint startswith (p s : str) : bool :=
  match p, s with
  | [], _ => true
  | a :: p', b :: s' => (a =? b)%N && startswith p' s'
  | _ :: _, [] => false
  end.

(** [k in text] for two strings. *)
Fixpoint contains (k text : str) : bool :=
  startswith k text
  || match text with
     | [] => false
     | _ :: t => contains k t
     end.

(** [any(k in text for k in ks)] *)
Definition any_in (ks : list str) (text : str) : bool :=
  existsb (fun k => contains k text) ks.

(** [sep.join(parts)] *)
Fixpoint join (sep : str) (parts : list str) : str :=
  match parts with
  | [] => []
  | [p] => p
  | p :: ps => p ++ sep ++ join sep ps
  end.

(** [s.split(",")]: split at every occurrence of a one-character separator. *)
Fixpoint split_char (sep : N) (s : str) : list str :=
  match s with
  | [] => [[]]
  | c :: r =>
      if (c =? sep)%N then [] :: split_char sep r
      else match split_char sep r with
           | [] => [[c]]
           | w :: ws => (c :: w) :: ws
           end
  end.

(** Truthiness of a [str]: [not s] holds for the empty string only. *)
Definition truthy (s : str) : bool :=
  match s with [] => false | _ => true end.

(** A value of the scalar map or a member of a set: the program stores
    [int]s (counters, ids) and [str]s there. *)
Inductive pyval : Type :=
| VInt (n : Z)
| VStr (s : str).

#[global] Instance pyval_eq_dec : EqDecision pyval.
Proof. solve_decision. Defined.

#[global] Instance pyval_countable : Countable pyval.
Proof.
  refine (inj_countable'
            (fun v => match v with VInt n => inl n | VStr s => inr s end)
            (fun x => match x with inl n => VInt n | inr s => VStr s end) _).
  intros []; reflexivity.
Defined.

(** [str(v)] *)
Definition py_str (v : pyval) : str :=
  match v with
  | VInt n => str_of_Z n
  | VStr s => s
  end.

(** ** What the handlers take from outside the repository *)

Class Platform : Type := {
  (** [int(s)] for a [str]; [None] is [ValueError]. *)
  int_of_str : str -> option Z;
  (** The Unicode lower-case mapping of one character and the rule for a
      capital sigma, the two tables behind [str.lower()]. *)
  ToLowerFull : N -> list N;
  handle_capital_sigma : str -> nat -> N;
  (** [passlib.hash.bcrypt]: [hash] draws a salt; [verify] raises
      [ValueError] ([None]) on a malformed hash. *)
  bcrypt_hash : str -> str -> str;
  bcrypt_verify : str -> str -> option bool;
  (** [datetime.isoformat()] of an instant and [date.isoformat()] of a day
      number. *)
  datetime_isoformat : Z -> str;
  date_isoformat : Z -> str;
  (** [os.getenv("SESSION_TTL_SECONDS")] *)
  env_SESSION_TTL_SECONDS : option str;
  (** [time.time() + ttl_seconds]: the binary64 sum of an instant and a
      number of seconds. Instants are whole numbers of seconds here; this
      sum, the one arithmetic operation the store applies to an instant, is
      the platform's because it is rounded. (A number of seconds too large
      for a [float], on which the sum raises [OverflowError], is outside
      the model.) *)
  float_add : Z -> Z -> Z
}.

(** The lower case of an ASCII character: the letters A to Z move to a to
    z, every other character stays. *)
Definition ascii_lower (c : N) : N :=
  if ((65 <=? c) && (c <=? 90))%N then (c + 32)%N else c.

(** The three facts about Python the proofs rely on: [int(str(n)) == n],
    the CJK unified ideographs (U+4E00 to U+9FFF) have no case, and the
    lower-case mapping of an ASCII character is [ascii_lower]. *)
Class PlatformSpec (P : Platform) : Prop := {
  int_of_str_repr : forall n : Z, int_of_str (str_of_Z n) = Some n;
  ToLowerFull_ideograph :
    forall c : N, (19968 <= c <= 40959)%N -> ToLowerFull c = [c];
  ToLowerFull_ascii :
    forall c : N, (c < 128)%N -> ToLowerFull c = [ascii_lower c]
}.

(** ** The in-process store: [app/core/memory_redis.py] *)

Module AsyncMemoryRedis.

(** The four dictionaries of [__init__]. Every [hset] of the repository
    stores [str] fields, so a hash is a map from field to [str]. *)
Record t : Type := Build {
  _kv : gmap str pyval;
  _hash : gmap str (gmap str str);
  _sets : gmap str (gset pyval);
  _ttl : gmap str Z
}.

Definition __init__ : t :=
  {| _kv := ∅; _hash := ∅; _sets := ∅; _ttl := ∅ |}.

Definition pop (k : str) (self : t) : t :=
  {| _kv := base.delete k (_kv self);
     _hash := _hash self;
     _sets := _sets self;
     _ttl := base.delete k (_ttl self) |}.

(** [expired = [k for k, t in self._ttl.items() if t <= now]] *)
Definition expired (now : Z) (self : t) : list str :=
  (map_to_list (filter (fun kt : str * Z => kt.2 <= now) (_ttl self))).*1.

Definition _cleanup (now : Z) (self : t) : t :=
  fold_left (fun self k => pop k self) (expired now self) self.

(** Each method below is the body run under the lock, at the instant
    [now] its [_cleanup] reads. *)

Definition get (key : str) (now : Z) (self : t) : option str * t :=
  let self := _cleanup now self in
  (py_str <$> _kv self !! key, self).

Definition set (key : str) (value : pyval) (nx : bool) (now : Z) (self : t)
  : bool * t :=
  let self := _cleanup now self in
  if nx && bool_decide (is_Some (_kv self !! key)) then (false, self)
  else (true, {| _kv := <[key := value]> (_kv self);
                 _hash := _hash self;
                 _sets := _sets self;
                 _ttl := base.delete key (_ttl self) |}).

(** [setex] reads the clock twice: [now] is the reading of its [_cleanup],
    [now2] the later reading its deadline is counted from. *)
Definition setex `{Platform} (key : str) (ttl_seconds : Z) (value : pyval) (now now2 : Z)
  (self : t) : bool * t :=
  let self := _cleanup now self in
  (true, {| _kv := <[key := value]> (_kv self);
            _hash := _hash self;
            _sets := _sets self;
            _ttl := <[key := float_add now2 ttl_seconds]> (_ttl self) |}).

(** [int(v)] of a stored value; [None] is the [ValueError] of an
    unparsable string. *)
Definition py_int `{Platform} (v : pyval) : option Z :=
  match v with
  | VInt n => Some n
  | VStr s => int_of_str s
  end.

Definition incr `{Platform} (key : str) (now : Z) (self : t) : option Z * t :=
  let self := _cleanup now self in
  match py_int (default (VInt 0) (_kv self !! key)) with
  | None => (None, self)
  | Some n =>
      let cur := n + 1 in
      (Some cur, {| _kv := <[key := VInt cur]> (_kv self);
                    _hash := _hash self;
                    _sets := _sets self;
                    _ttl := _ttl self |})
  end.

Definition hset (key : str) (mapping : gmap str str) (now : Z) (self : t)
  : Z * t :=
  let self := _cleanup now self in
  let h := default ∅ (_hash self !! key) in
  (Z.of_nat (size mapping),
   {| _kv := _kv self;
      _hash := <[key := mapping ∪ h]> (_hash self);
      _sets := _sets self;
      _ttl := _ttl self |}).

Definition hgetall (key : str) (now : Z) (self : t) : gmap str str * t :=
  let self := _cleanup now self in
  (default ∅ (_hash self !! key), self).

Definition sadd (key : str) (members : list pyval) (now : Z) (self : t)
  : Z * t :=
  let self := _cleanup now self in
  let s := default ∅ (_sets self !! key) in
  let before := size s in
  let s := fold_left (fun s m => s ∪ {[m]}) members s in
  (Z.of_nat (size s) - Z.of_nat before,
   {| _kv := _kv self;
      _hash := _hash self;
      _sets := <[key := s]> (_sets self);
      _ttl := _ttl self |}).

Definition srem (key : str) (members : list pyval) (now : Z) (self : t)
  : Z * t :=
  let self := _cleanup now self in
  let s := default ∅ (_sets self !! key) in
  let before := size s in
  let s := fold_left (fun s m => s ∖ {[m]}) members s in
  (Z.of_nat before - Z.of_nat (size s),
   {| _kv := _kv self;
      _hash := _hash self;
      _sets := <[key := s]> (_sets self);
      _ttl := _ttl self |}).

Definition smembers (key : str) (now : Z) (self : t) : gset pyval * t :=
  let self := _cleanup now self in
  (default ∅ (_sets self !! key), self).

Definition sismember (key : str) (member : pyval) (now : Z) (self : t)
  : bool * t :=
  let self := _cleanup now self in
  (bool_decide (member ∈ default ∅ (_sets self !! key)), self).

Definition scard (key : str) (now : Z) (self : t) : Z * t :=
  let self := _cleanup now self in
  (Z.of_nat (size (default ∅ (_sets self !! key))), self).

Definition delete (key : str) (now : Z) (self : t) : Z * t :=
  let self := _cleanup now self in
  ((if bool_decide (is_Some (_kv self !! key)) then 1 else 0), pop key self).

End AsyncMemoryRedis.

(** [str.lower()]: CPython's [do_lower] maps every character through
    [lower_ucs4] and concatenates the results. *)
Definition lower_ucs4 `{Platform} (s : str) (i : nat) (c : N) : list N :=
  if (c =? 931)%N then [handle_capital_sigma s i] else ToLowerFull c.

Definition lower `{Platform} (s : str) : str :=
  concat (imap (lower_ucs4 s) s).

(** ** The request world and the handler monad *)

Inductive exn : Type :=
| HTTPException (status_code : Z) (detail : str)
| ValueError
| KeyError
| AttributeError.

Inductive result (A : Type) : Type :=
| Ok (a : A)
| Raise (e : exn).

Arguments Ok {A} a.
Arguments Raise {A} e.

(** [runtime.redis_client], the wall clock as the sequence of its successive
    readings, and the operating system's randomness as the sequence of its
    successive draws. *)
Record world : Type := World {
  redis_client : option AsyncMemoryRedis.t;
  clock : nat -> Z;
  clock_reads : nat;
  urandom : nat -> str;
  urandom_reads : nat
}.

Definition M (A : Type) : Type := world -> result A * world.

Definition ret {A} (a : A) : M A := fun w => (Ok a, w).

Definition raise {A} (e : exn) : M A := fun w => (Raise e, w).

Definition bind {A B} (c : M A) (k : A -> M B) : M B :=
  fun w =>
    match c w with
    | (Ok a, w') => k a w'
    | (Raise e, w') => (Raise e, w')
    end.

Notation "'let!' x ':=' c 'in' k" := (bind c (fun x => k))
  (at level 10, x name, c at level 100, k at level 200).

Notation "c '>>' k" := (bind c (fun _ => k))
  (at level 100, k at level 200, right associativity).

(** A [for] loop over a list, threading the variables it updates. *)
Fixpoint for_each {A B} (body : B -> A -> M B) (xs : list A) (acc : B) : M B :=
  match xs with
  | [] => ret acc
  | x :: xs => let! acc := body acc x in for_each body xs acc
  end.

(** [time.time()] and [datetime.utcnow()] *)
Definition time_time : M Z :=
  fun w =>
    (Ok (clock w (clock_reads w)),
     {| redis_client := redis_client w;
        clock := clock w;
        clock_reads := S (clock_reads w);
        urandom := urandom w;
        urandom_reads := urandom_reads w |}).

Definition os_urandom : M str :=
  fun w =>
    (Ok (urandom w (urandom_reads w)),
     {| redis_client := redis_client w;
        clock := clock w;
        clock_reads := clock_reads w;
        urandom := urandom w;
        urandom_reads := S (urandom_reads w) |}).

Definition set_client (r : AsyncMemoryRedis.t) : M unit :=
  fun w =>
    (Ok tt,
     {| redis_client := Some r;
        clock := clock w;
        clock_reads := clock_reads w;
        urandom := urandom w;
        urandom_reads := urandom_reads w |}).

(** [await runtime.redis_client.method(...)]: the method body runs at the
    instant the clock shows; on [None] the attribute lookup fails. *)
Definition await {A} (method : Z -> AsyncMemoryRedis.t -> A * AsyncMemoryRedis.t)
  : M A :=
  fun w =>
    match redis_client w with
    | None => (Raise AttributeError, w)
    | Some self =>
        (let! now := time_time in
         let (a, self') := method now self in
         set_client self' >> ret a) w
    end.

(** The same for a method that reads the clock a second time after its
    sweep, as [setex] does. *)
Definition await2 {A} (method : Z -> Z -> AsyncMemoryRedis.t -> A * AsyncMemoryRedis.t)
  : M A :=
  fun w =>
    match redis_client w with
    | None => (Raise AttributeError, w)
    | Some self =>
        (let! now := time_time in
         let! now2 := time_time in
         let (a, self') := method now now2 self in
         set_client self' >> ret a) w
    end.

(** [if runtime.redis_client is None: raise HTTPException(500, ...)] *)
Definition require_redis : M unit :=
  fun w =>
    match redis_client w with
    | None => (Raise (HTTPException 500 (u8 "Redis not initialized")), w)
    | Some _ => (Ok tt, w)
    end.

Definition await_incr `{Platform} (key : str) : M Z :=
  let! r := await (AsyncMemoryRedis.incr key) in
  match r with
  | Some n => ret n
  | None => raise ValueError
  end.

(** [int(x or 0)] for the [Optional[str]] a [get] returned. *)
Definition int_or_0 `{Platform} (x : option str) : M Z :=
  match x with
  | Some ((_ :: _) as s) =>
      match int_of_str s with
      | Some n => ret n
      | None => raise ValueError
      end
  | _ => ret 0
  end.

(** [d[k]]: [KeyError] on a missing field. *)
Definition getitem (d : gmap str str) (k : str) : M str :=
  match d !! k with
  | Some v => ret v
  | None => raise KeyError
  end.

(** ** [app/core/security.py] *)

(** [secrets.token_urlsafe(32)] *)
Definition generate_token : M str := os_urandom.

Definition get_session_ttl_seconds `{Platform} : Z :=
  match env_SESSION_TTL_SECONDS with
  | None => 604800
  | Some s => default 604800 (int_of_str s)
  end.

Module HTTPAuthorizationCredentials.
Record t : Type := Build { scheme : str; credentials : str }.
End HTTPAuthorizationCredentials.

Definition require_token `{Platform} (creds : option HTTPAuthorizationCredentials.t)
  : M str :=
  match creds with
  | None => raise (HTTPException 401 (u8 "Unauthorized"))
  | Some c =>
      if negb (startswith (u8 "bearer") (lower (HTTPAuthorizationCredentials.scheme c)))
      then raise (HTTPException 401 (u8 "Unauthorized"))
      else
        let token := strip (HTTPAuthorizationCredentials.credentials c) in
        if negb (truthy token) then raise (HTTPException 401 (u8 "Unauthorized"))
        else ret token
  end.

(** [_now_iso()] of the four endpoint modules. *)
Definition _now_iso `{Platform} : M str :=
  let! t := time_time in ret (datetime_isoformat t).

(** ** [app/schemas/auth.py] *)

Module RegisterRequest.
Record t : Type := Build { username : str; password : str }.
End RegisterRequest.

Module LoginRequest.
Record t : Type := Build { username : str; password : str }.
End LoginRequest.

Module UserPublic.
Record t : Type := Build { id : str; username : str }.
End UserPublic.

Module LoginResponse.
Record t : Type := Build { token : str }.
End LoginResponse.

(** ** [app/api/v1/endpoints/auth.py] *)

Module auth.
Section auth.
Context `{Platform}.

Definition _get_user_by_username (username : str) : M (option (gmap str str)) :=
  require_redis >>
  let! uid := await (AsyncMemoryRedis.get (u8 "user:byname:" ++ username)) in
  match uid with
  | Some ((_ :: _) as uid) =>
      let! data := await (AsyncMemoryRedis.hgetall (u8 "user:" ++ uid)) in
      ret (if decide (data = ∅) then None else Some data)
  | _ => ret None
  end.

Definition register (payload : RegisterRequest.t) : M UserPublic.t :=
  require_redis >>
  let username := strip (RegisterRequest.username payload) in
  if negb (truthy username)
  then raise (HTTPException 400 (u8 "Username required"))
  else
    let! user_id := await_incr (u8 "users:seq") in
    let! created_at := _now_iso in
    let! salt := os_urandom in
    let password_hash := bcrypt_hash salt (RegisterRequest.password payload) in
    let! ok := await (AsyncMemoryRedis.set (u8 "user:byname:" ++ username)
                        (VInt user_id) true) in
    if negb ok
    then raise (HTTPException 409 (u8 "Username already exists"))
    else
      await (AsyncMemoryRedis.hset (u8 "user:" ++ str_of_Z user_id)
               (list_to_map
                  [(u8 "id", str_of_Z user_id);
                   (u8 "username", username);
                   (u8 "password_hash", password_hash);
                   (u8 "created_at", created_at)])) >>
      ret {| UserPublic.id := str_of_Z user_id; UserPublic.username := username |}.

Definition login (payload : LoginRequest.t) : M LoginResponse.t :=
  require_redis >>
  let username := strip (LoginRequest.username payload) in
  let! user := _get_user_by_username username in
  match user with
  | None => raise (HTTPException 401 (u8 "Invalid credentials"))
  | Some user =>
      match bcrypt_verify (LoginRequest.password payload)
              (default [] (user !! u8 "password_hash")) with
      | None => raise ValueError
      | Some false => raise (HTTPException 401 (u8 "Invalid credentials"))
      | Some true =>
          let! token := generate_token in
          let ttl := get_session_ttl_seconds in
          let! uid := getitem user (u8 "id") in
          await2 (AsyncMemoryRedis.setex (u8 "session:" ++ token) ttl (VStr uid)) >>
          await (AsyncMemoryRedis.sadd (u8 "user:sessions:" ++ uid) [VStr token]) >>
          ret {| LoginResponse.token := token |}
      end
  end.

Definition _resolve_user_from_token (token : str) : M (gmap str str) :=
  require_redis >>
  let! uid := await (AsyncMemoryRedis.get (u8 "session:" ++ token)) in
  match uid with
  | Some ((_ :: _) as uid) =>
      let! user := await (AsyncMemoryRedis.hgetall (u8 "user:" ++ uid)) in
      if decide (user = ∅)
      then raise (HTTPException 401 (u8 "Unauthorized"))
      else ret user
  | _ => raise (HTTPException 401 (u8 "Unauthorized"))
  end.

Definition me (token : str) : M UserPublic.t :=
  let! user := _resolve_user_from_token token in
  let! id := getitem user (u8 "id") in
  let! username := getitem user (u8 "username") in
  ret {| UserPublic.id := id; UserPublic.username := username |}.

(** The response [{"ok": True}] is its one value. *)
Definition logout (token : str) : M bool :=
  require_redis >>
  let! uid := await (AsyncMemoryRedis.get (u8 "session:" ++ token)) in
  match uid with
  | Some ((_ :: _) as uid) =>
      await (AsyncMemoryRedis.delete (u8 "session:" ++ token)) >>
      await (AsyncMemoryRedis.srem (u8 "user:sessions:" ++ uid) [VStr token]) >>
      ret true
  | _ => ret true
  end.

End auth.
End auth.

(** ** [app/schemas/forum.py] *)

Module PostCreate.
Record t : Type := Build { title : str; content : str }.
End PostCreate.

Module PostUpdate.
Record t : Type := Build { title : option str; content : option str }.
End PostUpdate.

Module PostPublic.
Record t : Type := Build {
  id : str; title : str; content : str; author : str;
  likes : Z; comments : Z; createdAt : str
}.
End PostPublic.

Module CommentCreate.
Record t : Type := Build { content : str }.
End CommentCreate.

Module CommentPublic.
Record t : Type := Build { id : str; content : str; author : str; createdAt : str }.
End CommentPublic.

(** The body [{"liked": liked, "likes": likes}] of the like toggle. *)
Module LikeResponse.
Record t : Type := Build { liked : bool; likes : Z }.
End LikeResponse.

(** ** [app/api/v1/endpoints/forum.py] *)

Module forum.
Section forum.
Context `{Platform}.

Definition _get_user_by_token (token : str) : M UserPublic.t :=
  require_redis >>
  let! uid := await (AsyncMemoryRedis.get (u8 "session:" ++ token)) in
  match uid with
  | Some ((_ :: _) as uid) =>
      let! user := await (AsyncMemoryRedis.hgetall (u8 "user:" ++ uid)) in
      if decide (user = ∅)
      then raise (HTTPException 401 (u8 "Unauthorized"))
      else
        let! id := getitem user (u8 "id") in
        let! username := getitem user (u8 "username") in
        ret {| UserPublic.id := id; UserPublic.username := username |}
  | _ => raise (HTTPException 401 (u8 "Unauthorized"))
  end.

(** [data and data.get("deleted") != "1"] *)
Definition visible (data : gmap str str) : bool :=
  bool_decide (data ≠ ∅) && bool_decide (data !! u8 "deleted" ≠ Some (u8 "1")).

(** The projection the three post readers build from a record; the default
    of [createdAt] is an argument, so [_now_iso()] is always evaluated. *)
Definition post_public (id : str) (data : gmap str str) (likes comments : Z)
  : M PostPublic.t :=
  let! now_iso := _now_iso in
  ret {| PostPublic.id := id;
         PostPublic.title := default [] (data !! u8 "title");
         PostPublic.content := default [] (data !! u8 "content");
         PostPublic.author := default (u8 "匿名宁友") (data !! u8 "author");
         PostPublic.likes := likes;
         PostPublic.comments := comments;
         PostPublic.createdAt := default now_iso (data !! u8 "created_at") |}.

(** The body of the [while] loop of [list_posts] up to the two counter
    updates: the new [items] and [count]. *)
Definition list_posts_step (offset : Z) (i : Z) (count idx : Z)
  (items : list PostPublic.t) : M (list PostPublic.t * Z) :=
  let pid := str_of_Z i in
  if offset <=? idx then
    let! data := await (AsyncMemoryRedis.hgetall (u8 "forum:post:" ++ pid)) in
    if visible data then
      let! likes :=
        await (AsyncMemoryRedis.scard (u8 "forum:post:" ++ pid ++ u8 ":likes")) in
      let! cnt :=
        await (AsyncMemoryRedis.get (u8 "forum:post:" ++ pid ++ u8 ":comments_cnt")) in
      let! comments := int_or_0 cnt in
      let! p := post_public pid data likes comments in
      ret (items ++ [p], count + 1)
    else ret (items, count)
  else ret (items, count).

(** The [while i > 0 and count < limit] loop; [i] counts down to zero. *)
Fixpoint list_posts_loop (offset limit : Z) (i : nat) (count idx : Z)
  (items : list PostPublic.t) : M (list PostPublic.t) :=
  match i with
  | O => ret items
  | S i' =>
      if negb (count <? limit) then ret items
      else
        let! step := list_posts_step offset (Z.of_nat i) count idx items in
        list_posts_loop offset limit i' (snd step) (idx + 1) (fst step)
  end.

Definition list_posts (offset limit : Z) : M (list PostPublic.t) :=
  require_redis >>
  let! seq := await (AsyncMemoryRedis.get (u8 "forum:post_seq")) in
  let! max_id := int_or_0 seq in
  list_posts_loop offset limit (Z.to_nat max_id) 0 0 [].

Definition create_post (payload : PostCreate.t) (token : str) : M PostPublic.t :=
  require_redis >>
  let! user := _get_user_by_token token in
  let! pid := await_incr (u8 "forum:post_seq") in
  let! created_at := _now_iso in
  await (AsyncMemoryRedis.hset (u8 "forum:post:" ++ str_of_Z pid)
           (list_to_map
              [(u8 "id", str_of_Z pid);
               (u8 "title", PostCreate.title payload);
               (u8 "content", PostCreate.content payload);
               (u8 "author", UserPublic.username user);
               (u8 "author_id", UserPublic.id user);
               (u8 "created_at", created_at);
               (u8 "deleted", u8 "0")])) >>
  ret {| PostPublic.id := str_of_Z pid;
         PostPublic.title := PostCreate.title payload;
         PostPublic.content := PostCreate.content payload;
         PostPublic.author := UserPublic.username user;
         PostPublic.likes := 0;
         PostPublic.comments := 0;
         PostPublic.createdAt := created_at |}.

Definition get_post (post_id : str) : M PostPublic.t :=
  require_redis >>
  let! data := await (AsyncMemoryRedis.hgetall (u8 "forum:post:" ++ post_id)) in
  if negb (visible data)
  then raise (HTTPException 404 (u8 "Post not found"))
  else
    let! likes :=
      await (AsyncMemoryRedis.scard (u8 "forum:post:" ++ post_id ++ u8 ":likes")) in
    let! cnt :=
      await (AsyncMemoryRedis.get (u8 "forum:post:" ++ post_id ++ u8 ":comments_cnt")) in
    let! comments := int_or_0 cnt in
    post_public post_id data likes comments.

Definition update_mapping (payload : PostUpdate.t) : gmap str str :=
  let mapping : gmap str str := ∅ in
  let mapping :=
    match PostUpdate.title payload with
    | Some title => <[u8 "title" := title]> mapping
    | None => mapping
    end in
  match PostUpdate.content payload with
  | Some content => <[u8 "content" := content]> mapping
  | None => mapping
  end.

Definition update_post (post_id : str) (payload : PostUpdate.t) (token : str)
  : M PostPublic.t :=
  require_redis >>
  let! data := await (AsyncMemoryRedis.hgetall (u8 "forum:post:" ++ post_id)) in
  if negb (visible data)
  then raise (HTTPException 404 (u8 "Post not found"))
  else
    let! user := _get_user_by_token token in
    if bool_decide (data !! u8 "author_id" ≠ Some (UserPublic.id user))
    then raise (HTTPException 403 (u8 "Forbidden"))
    else
      let mapping := update_mapping payload in
      (if decide (mapping = ∅) then ret tt
       else await (AsyncMemoryRedis.hset (u8 "forum:post:" ++ post_id) mapping) >>
            ret tt) >>
      let! likes :=
        await (AsyncMemoryRedis.scard (u8 "forum:post:" ++ post_id ++ u8 ":likes")) in
      let! cnt :=
        await (AsyncMemoryRedis.get (u8 "forum:post:" ++ post_id ++ u8 ":comments_cnt")) in
      let! comments := int_or_0 cnt in
      let! final := await (AsyncMemoryRedis.hgetall (u8 "forum:post:" ++ post_id)) in
      post_public post_id final likes comments.

Definition delete_post (post_id : str) (token : str) : M bool :=
  require_redis >>
  let! data := await (AsyncMemoryRedis.hgetall (u8 "forum:post:" ++ post_id)) in
  if negb (visible data)
  then raise (HTTPException 404 (u8 "Post not found"))
  else
    let! user := _get_user_by_token token in
    if bool_decide (data !! u8 "author_id" ≠ Some (UserPublic.id user))
    then raise (HTTPException 403 (u8 "Forbidden"))
    else
      await (AsyncMemoryRedis.hset (u8 "forum:post:" ++ post_id)
               {[u8 "deleted" := u8 "1"]}) >>
      ret true.

Definition toggle_like (post_id : str) (token : str) : M LikeResponse.t :=
  require_redis >>
  let! user := _get_user_by_token token in
  let key := u8 "forum:post:" ++ post_id ++ u8 ":likes" in
  let! liked := await (AsyncMemoryRedis.sismember key (VStr (UserPublic.id user))) in
  let! liked :=
    (if liked : bool then
       await (AsyncMemoryRedis.srem key [VStr (UserPublic.id user)]) >> ret false
     else
       await (AsyncMemoryRedis.sadd key [VStr (UserPublic.id user)]) >> ret true) in
  let! likes := await (AsyncMemoryRedis.scard key) in
  ret {| LikeResponse.liked := liked; LikeResponse.likes := likes |}.

(** The body of [for i in range(1, cnt + 1)]. *)
Definition list_comments_step (post_id : str) (items : list CommentPublic.t) (i : Z)
  : M (list CommentPublic.t) :=
  let! data :=
    await (AsyncMemoryRedis.hgetall
             (u8 "forum:comment:" ++ post_id ++ u8 ":" ++ str_of_Z i)) in
  if visible data then
    let! now_iso := _now_iso in
    ret (items ++
         [{| CommentPublic.id := str_of_Z i;
             CommentPublic.content := default [] (data !! u8 "content");
             CommentPublic.author := default (u8 "匿名宁友") (data !! u8 "author");
             CommentPublic.createdAt := default now_iso (data !! u8 "created_at") |}])
  else ret items.

Definition list_comments (post_id : str) : M (list CommentPublic.t) :=
  require_redis >>
  let! seq :=
    await (AsyncMemoryRedis.get (u8 "forum:post:" ++ post_id ++ u8 ":comments_cnt")) in
  let! cnt := int_or_0 seq in
  for_each (list_comments_step post_id) (seqZ 1 cnt) [].

Definition create_comment (post_id : str) (payload : CommentCreate.t) (token : str)
  : M CommentPublic.t :=
  require_redis >>
  let! user := _get_user_by_token token in
  let! data := await (AsyncMemoryRedis.hgetall (u8 "forum:post:" ++ post_id)) in
  if negb (visible data)
  then raise (HTTPException 404 (u8 "Post not found"))
  else
    let! seq :=
      await (AsyncMemoryRedis.get (u8 "forum:post:" ++ post_id ++ u8 ":comments_cnt")) in
    let! cnt := int_or_0 seq in
    let idx := cnt + 1 in
    let! created_at := _now_iso in
    await (AsyncMemoryRedis.hset
             (u8 "forum:comment:" ++ post_id ++ u8 ":" ++ str_of_Z idx)
             (list_to_map
                [(u8 "id", str_of_Z idx);
                 (u8 "post_id", post_id);
                 (u8 "author", UserPublic.username user);
                 (u8 "author_id", UserPublic.id user);
                 (u8 "content", CommentCreate.content payload);
                 (u8 "created_at", created_at);
                 (u8 "deleted", u8 "0")])) >>
    await (AsyncMemoryRedis.set (u8 "forum:post:" ++ post_id ++ u8 ":comments_cnt")
             (VInt idx) false) >>
    ret {| CommentPublic.id := str_of_Z idx;
           CommentPublic.content := CommentCreate.content payload;
           CommentPublic.author := UserPublic.username user;
           CommentPublic.createdAt := created_at |}.

Definition delete_comment (comment_id : str) (post_id : str) (token : str) : M bool :=
  require_redis >>
  let! user := _get_user_by_token token in
  let! data :=
    await (AsyncMemoryRedis.hgetall
             (u8 "forum:comment:" ++ post_id ++ u8 ":" ++ comment_id)) in
  if negb (visible data)
  then raise (HTTPException 404 (u8 "Comment not found"))
  else if bool_decide (data !! u8 "author_id" ≠ Some (UserPublic.id user))
  then raise (HTTPException 403 (u8 "Forbidden"))
  else
    await (AsyncMemoryRedis.hset
             (u8 "forum:comment:" ++ post_id ++ u8 ":" ++ comment_id)
             {[u8 "deleted" := u8 "1"]}) >>
    ret true.

End forum.
End forum.

(** ** [app/schemas/study.py] *)

Module MistakeCreate.
Record t : Type := Build {
  titleSlug : str; title : str; difficulty : option str;
  tags : list str; note : option str
}.
End MistakeCreate.

Module MistakePublic.
Record t : Type := Build {
  id : str; titleSlug : str; title : str; difficulty : option str;
  tags : list str; note : option str; createdAt : str
}.
End MistakePublic.

Module StatsResponse.
Record t : Type := Build {
  total : Z;
  byDifficulty : gmap str Z;
  byTag : gmap str Z;
  recentTrend : list (str * Z)
}.
End StatsResponse.

Module Recommendation.
Record t : Type := Build { titleSlug : str; title : str; reason : str }.
End Recommendation.

(** ** [app/api/v1/endpoints/study.py] *)

Module study.
Section study.
Context `{Platform}.

Definition _ensure_redis : M unit := require_redis.

(** [uid = await get(f"session:{token}")] and its 401 guard, the opening
    of every study handler. *)
Definition session_uid (token : str) : M str :=
  let! uid := await (AsyncMemoryRedis.get (u8 "session:" ++ token)) in
  match uid with
  | Some ((_ :: _) as uid) => ret uid
  | _ => raise (HTTPException 401 (u8 "Unauthorized"))
  end.

Definition add_mistake (payload : MistakeCreate.t) (token : str) : M MistakePublic.t :=
  _ensure_redis >>
  let! uid := session_uid token in
  let! mid := await_incr (u8 "study:" ++ uid ++ u8 ":mistakes_seq") in
  let! created_at := _now_iso in
  await (AsyncMemoryRedis.hset (u8 "study:" ++ uid ++ u8 ":mistake:" ++ str_of_Z mid)
           (list_to_map
              [(u8 "id", str_of_Z mid);
               (u8 "titleSlug", MistakeCreate.titleSlug payload);
               (u8 "title", MistakeCreate.title payload);
               (u8 "difficulty", default [] (MistakeCreate.difficulty payload));
               (u8 "tags", join (u8 ",") (MistakeCreate.tags payload));
               (u8 "note", default [] (MistakeCreate.note payload));
               (u8 "created_at", created_at)])) >>
  await (AsyncMemoryRedis.sadd (u8 "study:" ++ uid ++ u8 ":mistakes") [VInt mid]) >>
  (match MistakeCreate.difficulty payload with
   | Some ((_ :: _) as d) =>
       await_incr (u8 "study:" ++ uid ++ u8 ":difficulty:" ++ d) >> ret tt
   | _ => ret tt
   end) >>
  for_each (fun _ t => await_incr (u8 "study:" ++ uid ++ u8 ":tag:" ++ t) >> ret tt)
    (MistakeCreate.tags payload) tt >>
  let day := take 10 created_at in
  await_incr (u8 "study:" ++ uid ++ u8 ":trend:" ++ day) >>
  ret {| MistakePublic.id := str_of_Z mid;
         MistakePublic.titleSlug := MistakeCreate.titleSlug payload;
         MistakePublic.title := MistakeCreate.title payload;
         MistakePublic.difficulty := MistakeCreate.difficulty payload;
         MistakePublic.tags := MistakeCreate.tags payload;
         MistakePublic.note := MistakeCreate.note payload;
         MistakePublic.createdAt := created_at |}.

(** [mid] is the path parameter, a [str]. *)
Definition delete_mistake (mid : str) (token : str) : M bool :=
  _ensure_redis >>
  let! uid := session_uid token in
  let! data :=
    await (AsyncMemoryRedis.hgetall (u8 "study:" ++ uid ++ u8 ":mistake:" ++ mid)) in
  (if decide (data = ∅) then ret tt
   else
     await (AsyncMemoryRedis.delete (u8 "study:" ++ uid ++ u8 ":mistake:" ++ mid)) >>
     await (AsyncMemoryRedis.srem (u8 "study:" ++ uid ++ u8 ":mistakes") [VStr mid]) >>
     ret tt) >>
  ret true.

(** [[t for t in (data.get("tags", "").split(",") if data.get("tags") else []) if t]] *)
Definition tags_of (data : gmap str str) : list str :=
  filter (fun t => truthy t = true)
    (match data !! u8 "tags" with
     | Some ((_ :: _) as tags) => split_char 44 tags
     | _ => []
     end).

Definition count_tags (byTag : gmap str Z) (ts : list str) : gmap str Z :=
  fold_left (fun byTag t => <[t := default 0 (byTag !! t) + 1]> byTag) ts byTag.

Definition stats (days : Z) (token : str) : M StatsResponse.t :=
  _ensure_redis >>
  let! uid := session_uid token in
  let! members := await (AsyncMemoryRedis.smembers (u8 "study:" ++ uid ++ u8 ":mistakes")) in
  let total := Z.of_nat (size members) in
  let! byDifficulty :=
    for_each
      (fun (byDifficulty : gmap str Z) d =>
         let! v := await (AsyncMemoryRedis.get (u8 "study:" ++ uid ++ u8 ":difficulty:" ++ d)) in
         let! n := int_or_0 v in
         ret (<[d := n]> byDifficulty))
      [u8 "Easy"; u8 "Medium"; u8 "Hard"] ∅ in
  let! ids := await (AsyncMemoryRedis.smembers (u8 "study:" ++ uid ++ u8 ":mistakes")) in
  let! byTag :=
    for_each
      (fun (byTag : gmap str Z) mid =>
         let! data :=
           await (AsyncMemoryRedis.hgetall
                    (u8 "study:" ++ uid ++ u8 ":mistake:" ++ py_str mid)) in
         ret (count_tags byTag (tags_of data)))
      (elements ids) ∅ in
  let! now := time_time in
  let today := now / 86400 in
  let! recentTrend :=
    for_each
      (fun recentTrend i =>
         let day := date_isoformat (today - i) in
         let! v := await (AsyncMemoryRedis.get (u8 "study:" ++ uid ++ u8 ":trend:" ++ day)) in
         let! n := int_or_0 v in
         ret (recentTrend ++ [(day, n)]))
      (seqZ 0 days) [] in
  ret {| StatsResponse.total := total;
         StatsResponse.byDifficulty := byDifficulty;
         StatsResponse.byTag := byTag;
         StatsResponse.recentTrend := rev recentTrend |}.

(** [x or None] for an optional [str]. *)
Definition or_None (x : option str) : option str :=
  match x with
  | Some ((_ :: _) as s) => Some s
  | _ => None
  end.

(** [[int(x) for x in members]]: [None] is the [ValueError] of a member
    that does not parse. *)
Definition ints_of (members : list pyval) : option (list Z) :=
  mapM AsyncMemoryRedis.py_int members.

(** The body of [for mid in ids] of [list_mistakes]. *)
Definition list_mistakes_step (uid : str) (items : list MistakePublic.t) (mid : Z)
  : M (list MistakePublic.t) :=
  let! data :=
    await (AsyncMemoryRedis.hgetall (u8 "study:" ++ uid ++ u8 ":mistake:" ++ str_of_Z mid)) in
  if decide (data = ∅) then ret items
  else
    let! now_iso := _now_iso in
    ret (items ++
         [{| MistakePublic.id := str_of_Z mid;
             MistakePublic.titleSlug := default [] (data !! u8 "titleSlug");
             MistakePublic.title := default [] (data !! u8 "title");
             MistakePublic.difficulty := or_None (data !! u8 "difficulty");
             MistakePublic.tags := tags_of data;
             MistakePublic.note := or_None (data !! u8 "note");
             MistakePublic.createdAt := default now_iso (data !! u8 "created_at") |}]).

Definition list_mistakes (token : str) : M (list MistakePublic.t) :=
  _ensure_redis >>
  let! uid := session_uid token in
  let! members := await (AsyncMemoryRedis.smembers (u8 "study:" ++ uid ++ u8 ":mistakes")) in
  match ints_of (elements members) with
  | None => raise ValueError
  | Some ints =>
      let ids := merge_sort Z.le ints in
      for_each (list_mistakes_step uid) ids []
  end.

(** The order of two strings, code point by code point. *)
Fixpoint str_leb (a b : str) : bool :=
  match a, b with
  | [], _ => true
  | _ :: _, [] => false
  | x :: a', y :: b' => (x <? y)%N || (x =? y)%N && str_leb a' b'
  end.

(** The order of [sorted(..., key=lambda kv: (-kv[1], kv[0]))]. *)
Definition rank_leb (a b : str * Z) : bool :=
  (b.2 <? a.2) || (a.2 =? b.2) && str_leb a.1 b.1.

Definition rank_le (a b : str * Z) : Prop := rank_leb a b = true.

Definition rank_le_dec (a b : str * Z) : Decision (rank_le a b) :=
  bool_eq_dec (rank_leb a b) true.

Definition recommendation_of (tag : str) : Recommendation.t :=
  {| Recommendation.titleSlug := tag ++ u8 "-practice-1";
     Recommendation.title := u8 "Practice " ++ tag ++ u8 " I";
     Recommendation.reason := u8 "Based on frequent tag: " ++ tag |}.

(** The loop over the ranked tags, with its [break]. *)
Fixpoint recommend (limit : Z) (ranked : list (str * Z)) (recs : list Recommendation.t)
  : list Recommendation.t :=
  match ranked with
  | [] => recs
  | (tag, _) :: ranked' =>
      let recs := recs ++ [recommendation_of tag] in
      if limit <=? Z.of_nat (length recs) then recs else recommend limit ranked' recs
  end.

(** [xs[:stop]] *)
Definition slice_to {A} (stop : Z) (xs : list A) : list A :=
  if 0 <=? stop then take (Z.to_nat stop) xs
  else take (Z.to_nat (Z.of_nat (length xs) + stop)) xs.

Definition recommendations (limit : Z) (token : str) : M (list Recommendation.t) :=
  _ensure_redis >>
  let! uid := session_uid token in
  let! ids := await (AsyncMemoryRedis.smembers (u8 "study:" ++ uid ++ u8 ":mistakes")) in
  let! tag_count :=
    for_each
      (fun (tag_count : gmap str Z) mid =>
         let! data :=
           await (AsyncMemoryRedis.hgetall
                    (u8 "study:" ++ uid ++ u8 ":mistake:" ++ py_str mid)) in
         ret (count_tags tag_count (tags_of data)))
      (elements ids) ∅ in
  let ranked := @merge_sort _ rank_le rank_le_dec (map_to_list tag_count) in
  let recs := recommend limit (slice_to (Z.max 1 (limit / 2)) ranked) [] in
  ret (slice_to limit recs).

End study.
End study.

(** ** [app/schemas/agent.py] and [_rule_based_reply] of
    [app/api/v1/endpoints/agent.py] *)

Module ChatResponse.
Record t : Type := Build { reply : str; tips : option str; score : option Z }.
End ChatResponse.

Module SessionCreate.
Record t : Type := Build { role : option str; focus : option str }.
End SessionCreate.

Module SessionPublic.
Record t : Type := Build { session_id : str }.
End SessionPublic.

Module ChatRequest.
Record t : Type := Build { session_id : str; message : str }.
End ChatRequest.

Module SessionDetail.
Record t : Type := Build { session_id : str; messages : list (gmap str str) }.
End SessionDetail.

Module agent.
Section agent.
Context `{Platform}.

(** [x or d] for a [str]. *)
Definition or_else (x d : str) : str := if truthy x then x else d.

Definition _rule_based_reply (message role focus : str) : ChatResponse.t :=
  let text := lower message in
  if any_in [u8 "hello"; u8 "hi"; u8 "你好"] text then
    {| ChatResponse.reply := u8 "你好，我是你的模拟面试官。请先简要介绍一下自己和擅长方向。";
       ChatResponse.tips := Some (u8 "条理清晰，突出关键成绩。");
       ChatResponse.score := None |}
  else if any_in [u8 "二分"; u8 "binary search"] text then
    {| ChatResponse.reply := u8 "二分查找的时间复杂度是多少？在旋转数组中如何应用？";
       ChatResponse.tips := Some (u8 "先给出 O(log n)；再讲不变式与边界处理。");
       ChatResponse.score := Some 7 |}
  else if any_in [u8 "hash"; u8 "哈希"] text then
    {| ChatResponse.reply := u8 "说说哈希冲突的常见解决方案，以及适用场景。";
       ChatResponse.tips := Some (u8 "拉链法、开放寻址、再哈希。");
       ChatResponse.score := None |}
  else if any_in [u8 "dp"; u8 "动态规划"] text then
    {| ChatResponse.reply := u8 "给出一道背包或最长子序列类 DP 的状态定义与转移。";
       ChatResponse.tips := Some (u8 "状态压缩可作为加分项。");
       ChatResponse.score := Some 8 |}
  else if any_in [u8 "tcp"; u8 "三次握手"; u8 "四次挥手"] text then
    {| ChatResponse.reply := u8 "请简述 TCP 三次握手与四次挥手的过程与原因。";
       ChatResponse.tips := Some (u8 "半关闭、TIME_WAIT、RST 情况。");
       ChatResponse.score := None |}
  else
    {| ChatResponse.reply :=
         u8 "针对" ++ or_else role (u8 "通用岗位") ++ u8 "（方向：" ++
         or_else focus (u8 "综合") ++ u8 "），请阐述你最熟悉的项目难点与优化。";
       ChatResponse.tips := Some (u8 "结构化表达：背景-问题-方案-效果-复盘。");
       ChatResponse.score := None |}.

Definition _ensure_user (token : str) : M str :=
  require_redis >>
  let! uid := await (AsyncMemoryRedis.get (u8 "session:" ++ token)) in
  match uid with
  | Some ((_ :: _) as uid) => ret uid
  | _ => raise (HTTPException 401 (u8 "Unauthorized"))
  end.

(** [(payload.role if payload else "") or ""], and the same for [focus]. *)
Definition field_or_empty (payload : option SessionCreate.t)
  (field : SessionCreate.t -> option str) : str :=
  match payload with
  | Some p => default [] (field p)
  | None => []
  end.

Definition create_session (payload : option SessionCreate.t) (token : str)
  : M SessionPublic.t :=
  let! uid := _ensure_user token in
  let! sid := await_incr (u8 "agent:" ++ uid ++ u8 ":session_seq") in
  let! created_at := _now_iso in
  await (AsyncMemoryRedis.hset (u8 "agent:" ++ uid ++ u8 ":session:" ++ str_of_Z sid)
           (list_to_map
              [(u8 "session_id", str_of_Z sid);
               (u8 "created_at", created_at);
               (u8 "role", field_or_empty payload SessionCreate.role);
               (u8 "focus", field_or_empty payload SessionCreate.focus)])) >>
  await (AsyncMemoryRedis.sadd (u8 "agent:" ++ uid ++ u8 ":sessions") [VInt sid]) >>
  ret {| SessionPublic.session_id := str_of_Z sid |}.

Definition chat (payload : ChatRequest.t) (token : str) : M ChatResponse.t :=
  let! uid := _ensure_user token in
  let skey := u8 "agent:" ++ uid ++ u8 ":session:" ++ ChatRequest.session_id payload in
  let! sess := await (AsyncMemoryRedis.hgetall skey) in
  if decide (sess = ∅)
  then raise (HTTPException 404 (u8 "Session not found"))
  else
    let role := default [] (sess !! u8 "role") in
    let focus := default [] (sess !! u8 "focus") in
    let! seq := await (AsyncMemoryRedis.get (skey ++ u8 ":msg_seq")) in
    let! cnt := int_or_0 seq in
    let idx := cnt + 1 in
    let! time := _now_iso in
    await (AsyncMemoryRedis.hset (skey ++ u8 ":msg:" ++ str_of_Z idx)
             (list_to_map
                [(u8 "role", u8 "user");
                 (u8 "content", ChatRequest.message payload);
                 (u8 "time", time)])) >>
    await (AsyncMemoryRedis.set (skey ++ u8 ":msg_seq") (VInt idx) false) >>
    let reply := _rule_based_reply (ChatRequest.message payload) role focus in
    let idx2 := idx + 1 in
    let! time2 := _now_iso in
    await (AsyncMemoryRedis.hset (skey ++ u8 ":msg:" ++ str_of_Z idx2)
             (list_to_map
                [(u8 "role", u8 "assistant");
                 (u8 "content", ChatResponse.reply reply);
                 (u8 "time", time2)])) >>
    await (AsyncMemoryRedis.set (skey ++ u8 ":msg_seq") (VInt idx2) false) >>
    ret reply.

(** The body of [for i in range(1, seq + 1)]. *)
Definition session_detail_step (skey : str) (msgs : list (gmap str str)) (i : Z)
  : M (list (gmap str str)) :=
  let! m := await (AsyncMemoryRedis.hgetall (skey ++ u8 ":msg:" ++ str_of_Z i)) in
  ret (if decide (m = ∅) then msgs else msgs ++ [m]).

Definition session_detail (session_id : str) (token : str) : M SessionDetail.t :=
  let! uid := _ensure_user token in
  let skey := u8 "agent:" ++ uid ++ u8 ":session:" ++ session_id in
  let! sess := await (AsyncMemoryRedis.hgetall skey) in
  if decide (sess = ∅)
  then raise (HTTPException 404 (u8 "Session not found"))
  else
    let! seq := await (AsyncMemoryRedis.get (skey ++ u8 ":msg_seq")) in
    let! n := int_or_0 seq in
    let! msgs := for_each (session_detail_step skey) (seqZ 1 n) [] in
    ret {| SessionDetail.session_id := session_id; SessionDetail.messages := msgs |}.

End agent.
End agent.

(** ** [app/main.py] *)

Module main.

(** [origins_env] is what [os.getenv("CORS_ALLOW_ORIGINS")] finds. *)
Definition get_cors_origins (origins_env : option str) : list str :=
  let origins_env := default (u8 "http://localhost:3000") origins_env in
  let parts := strip <$> split_char 44 origins_env in
  filter (fun o => truthy o = true) parts.

End main.

(** ** An instance of the platform for running the model

    Decimal [int] parsing, the ASCII part of the case mapping, the
    binary64 sum of whole numbers, and a transparent stand-in for bcrypt
    ([salt$password]). *)

Module Demo.

Fixpoint digits_uint (s : str) : option Decimal.uint :=
  match s with
  | [] => Some Decimal.Nil
  | c :: r =>
      match digits_uint r with
      | None => None
      | Some u =>
          if (c =? 48)%N then Some (Decimal.D0 u)
          else if (c =? 49)%N then Some (Decimal.D1 u)
          else if (c =? 50)%N then Some (Decimal.D2 u)
          else if (c =? 51)%N then Some (Decimal.D3 u)
          else if (c =? 52)%N then Some (Decimal.D4 u)
          else if (c =? 53)%N then Some (Decimal.D5 u)
          else if (c =? 54)%N then Some (Decimal.D6 u)
          else if (c =? 55)%N then Some (Decimal.D7 u)
          else if (c =? 56)%N then Some (Decimal.D8 u)
          else if (c =? 57)%N then Some (Decimal.D9 u)
          else None
      end
  end.

Definition parse_int (s : str) : option Z :=
  match s with
  | [] => None
  | 45%N :: [] => None
  | 45%N :: r => (fun u => - Z.of_N (N.of_uint u)) <$> digits_uint r
  | _ => (fun u => Z.of_N (N.of_uint u)) <$> digits_uint s
  end.

Definition lower_full (c : N) : list N :=
  if ((65 <=? c) && (c <=? 90))%N then [(c + 32)%N] else [c].

Definition salted (salt secret : str) : str := salt ++ 36%N :: secret.

Fixpoint after_dollar (h : str) : option str :=
  match h with
  | [] => None
  | c :: r => if (c =? 36)%N then Some r else after_dollar r
  end.

Definition verify (secret h : str) : option bool :=
  (fun p => bool_decide (p = secret)) <$> after_dollar h.

Definition iso_date (day : Z) : str := u8 "day" ++ str_of_Z day.

Definition iso_datetime (t : Z) : str :=
  iso_date (t / 86400) ++ u8 "T" ++ str_of_Z (t mod 86400).

(** The nearest binary64 number to an integer, ties to even (no overflow:
    the scenarios stay far below 2^1024). *)
Definition binary64 (z : Z) : Z :=
  let m := Z.abs z in
  if m <? 2 ^ 53 then z
  else
    let e := Z.log2 m - 52 in
    let q := m / 2 ^ e in
    let r := m mod 2 ^ e in
    let half := 2 ^ (e - 1) in
    let q := if r <? half then q
             else if half <? r then q + 1
             else if Z.even q then q else q + 1 in
    Z.sgn z * (q * 2 ^ e).

#[global] Instance platform : Platform := {|
  int_of_str := parse_int;
  ToLowerFull := lower_full;
  handle_capital_sigma := fun _ _ => 963%N;
  bcrypt_hash := salted;
  bcrypt_verify := verify;
  datetime_isoformat := iso_datetime;
  date_isoformat := iso_date;
  env_SESSION_TTL_SECONDS := None;
  float_add := fun now seconds => binary64 (binary64 now + binary64 seconds)
|}.

(** A fresh process: an empty store, a clock that advances one second per
    reading and starts at [t0], and numbered random draws. *)
Definition boot (t0 : Z) : world :=
  {| redis_client := Some AsyncMemoryRedis.__init__;
     clock := fun n => t0 + Z.of_nat n;
     clock_reads := 0;
     urandom := fun n => u8 "r" ++ str_of_Z (Z.of_nat n);
     urandom_reads := 0 |}.

(** The store of a world that has one. *)
Definition store (w : world) : AsyncMemoryRedis.t :=
  default AsyncMemoryRedis.__init__ (redis_client w).

(** Run a handler and keep the world: the response is dropped. *)
Definition exec {A} (c : M A) (w : world) : world := snd (c w).

(** Run a handler and keep the response. *)
Definition eval {A} (c : M A) (w : world) : result A := fst (c w).

(** The scenario of the specification: alice registers, registers again
    (and is refused), logs in and obtains the token [r2]. *)
Definition alice : RegisterRequest.t :=
  {| RegisterRequest.username := u8 " alice "; RegisterRequest.password := u8 "secret1" |}.

Definition alice_login : LoginRequest.t :=
  {| LoginRequest.username := u8 "alice"; LoginRequest.password := u8 "secret1" |}.

Definition bob : RegisterRequest.t :=
  {| RegisterRequest.username := u8 "bob"; RegisterRequest.password := u8 "hunter22" |}.

Definition wrong_password : LoginRequest.t :=
  {| LoginRequest.username := u8 "alice"; LoginRequest.password := u8 "secret2" |}.

Definition stranger : LoginRequest.t :=
  {| LoginRequest.username := u8 "mallory"; LoginRequest.password := u8 "secret1" |}.

Definition registered : world := exec (auth.register alice) (boot 100).

Definition logged_in : world :=
  exec (auth.login alice_login) (exec (auth.register alice) registered).

(** A forum scenario: alice, bob and carol register and log in (tokens
    [r3], [r4], [r5]); alice creates post 1. *)
Definition carol : RegisterRequest.t :=
  {| RegisterRequest.username := u8 "carol"; RegisterRequest.password := u8 "s3cr3t!" |}.

Definition login_of (r : RegisterRequest.t) : LoginRequest.t :=
  {| LoginRequest.username := RegisterRequest.username r;
     LoginRequest.password := RegisterRequest.password r |}.

Definition members : world :=
  exec (auth.login (login_of carol))
    (exec (auth.login (login_of bob))
       (exec (auth.login (login_of alice))
          (exec (auth.register carol)
             (exec (auth.register bob)
                (exec (auth.register alice) (boot 100)))))).

Definition forum_world : world :=
  exec (forum.create_post
          {| PostCreate.title := u8 "T"; PostCreate.content := u8 "C" |} (u8 "r3"))
    members.

(** Bob comments on the post and deletes his comment; alice deletes the
    post. *)
Definition deleted_world : world :=
  exec (forum.delete_post (u8 "1") (u8 "r3"))
    (exec (forum.delete_comment (u8 "1") (u8 "1") (u8 "r4"))
       (exec (forum.create_comment (u8 "1") {| CommentCreate.content := u8 "hi" |} (u8 "r4"))
          forum_world)).

(** The study scenario of the specification: alice, logged in with token
    [r2], records a mistake and then deletes it. *)
Definition two_sum : MistakeCreate.t :=
  {| MistakeCreate.titleSlug := u8 "two-sum";
     MistakeCreate.title := u8 "Two Sum";
     MistakeCreate.difficulty := Some (u8 "Easy");
     MistakeCreate.tags := [u8 "hash"];
     MistakeCreate.note := None |}.

Definition studied : world := exec (study.add_mistake two_sum (u8 "r2")) logged_in.

Definition unstudied : world := exec (study.delete_mistake (u8 "1") (u8 "r2")) studied.

(** The same world [seconds] later: every clock reading is shifted. *)
Definition elapse (seconds : Z) (w : world) : world :=
  {| redis_client := redis_client w;
     clock := fun n => clock w n + seconds;
     clock_reads := clock_reads w;
     urandom := urandom w;
     urandom_reads := urandom_reads w |}.

End Demo.

(** ** Vocabulary of the statements *)

(** A key is live at [now] when it has no deadline or its deadline is still
    ahead. *)
Definition live (now : Z) (self : AsyncMemoryRedis.t) (k : str) : Prop :=
  match AsyncMemoryRedis._ttl self !! k with
  | Some d => now < d
  | None => True
  end.

(** The instant the next clock reading shows, and the world after a store
    call that left the store as [self]. *)
Definition now (w : world) : Z := clock w (clock_reads w).

Definition tick (w : world) (self : AsyncMemoryRedis.t) : world :=
  {| redis_client := Some self;
     clock := clock w;
     clock_reads := S (clock_reads w);
     urandom := urandom w;
     urandom_reads := urandom_reads w |}.

(** [later w n] is the instant shown [n] readings after the next one. *)
Definition later (w : world) (n : nat) : Z := clock w (n + clock_reads w)%nat.

(** The world after one draw of randomness. *)
Definition draw (w : world) : world :=
  {| redis_client := redis_client w;
     clock := clock w;
     clock_reads := clock_reads w;
     urandom := urandom w;
     urandom_reads := S (urandom_reads w) |}.

(** The value a counter key shows to [incr]: [0] when the key is absent. *)
Definition counter `{Platform} (self : AsyncMemoryRedis.t) (key : str) : option Z :=
  AsyncMemoryRedis.py_int (default (VInt 0) (AsyncMemoryRedis._kv self !! key)).

(** [live_during w self k n]: key [k] does not expire at any of the next [n]
    clock readings. *)
Fixpoint live_during (w : world) (self : AsyncMemoryRedis.t) (k : str) (n : nat) : Prop :=
  match n with
  | O => True
  | S n => live (later w n) self k ∧ live_during w self k n
  end.

(** One call of a store method, for statements about arbitrary sequences of
    calls; [Setex] carries the second clock reading of the call. *)
Inductive call : Type :=
| Get (key : str)
| Set_ (key : str) (value : pyval) (nx : bool)
| Setex (key : str) (ttl_seconds : Z) (value : pyval) (now2 : Z)
| Incr (key : str)
| Hset (key : str) (mapping : gmap str str)
| Hgetall (key : str)
| Sadd (key : str) (members : list pyval)
| Srem (key : str) (members : list pyval)
| Smembers (key : str)
| Sismember (key : str) (member : pyval)
| Scard (key : str)
| Delete (key : str).

(** The store after call [c] made at instant [now]. *)
Definition run_call `{Platform} (c : call) (now : Z) (self : AsyncMemoryRedis.t)
  : AsyncMemoryRedis.t :=
  match c with
  | Get key => (AsyncMemoryRedis.get key now self).2
  | Set_ key value nx => (AsyncMemoryRedis.set key value nx now self).2
  | Setex key ttl value now2 => (AsyncMemoryRedis.setex key ttl value now now2 self).2
  | Incr key => (AsyncMemoryRedis.incr key now self).2
  | Hset key mapping => (AsyncMemoryRedis.hset key mapping now self).2
  | Hgetall key => (AsyncMemoryRedis.hgetall key now self).2
  | Sadd key members => (AsyncMemoryRedis.sadd key members now self).2
  | Srem key members => (AsyncMemoryRedis.srem key members now self).2
  | Smembers key => (AsyncMemoryRedis.smembers key now self).2
  | Sismember key member => (AsyncMemoryRedis.sismember key member now self).2
  | Scard key => (AsyncMemoryRedis.scard key now self).2
  | Delete key => (AsyncMemoryRedis.delete key now self).2
  end.

(** The store after a sequence of calls, each with the instant it is made. *)
Definition run_calls `{Platform} (cs : list (call * Z)) (self : AsyncMemoryRedis.t)
  : AsyncMemoryRedis.t :=
  fold_left (fun self c => run_call c.1 c.2 self) cs self.

(** The three methods that write a scalar value under [key]. *)
Definition writes (key : str) (c : call) : Prop :=
  match c with
  | Set_ k _ _ | Setex k _ _ _ | Incr k => k = key
  | _ => False
  end.

(** [key] reads as absent from instant [D] on: it holds no value, or its
    deadline is [D] or earlier. *)
Definition expires_by (D : Z) (self : AsyncMemoryRedis.t) (key : str) : Prop :=
  AsyncMemoryRedis._kv self !! key = None
  ∨ ∃ d, AsyncMemoryRedis._ttl self !! key = Some d ∧ d <= D.

(** [authenticated w self token n u]: the session key of [token] holds a
    user id, does not expire during the next [n] clock readings, and the
    record of that user carries the public identity [u]. *)
Definition authenticated (w : world) (self : AsyncMemoryRedis.t) (token : str) (n : nat)
  (u : UserPublic.t) : Prop :=
  ∃ (v : pyval) (user : gmap str str),
    AsyncMemoryRedis._kv self !! (u8 "session:" ++ token) = Some v
    ∧ live_during w self (u8 "session:" ++ token) n
    ∧ py_str v ≠ []
    ∧ AsyncMemoryRedis._hash self !! (u8 "user:" ++ py_str v) = Some user
    ∧ user !! u8 "id" = Some (UserPublic.id u)
    ∧ user !! u8 "username" = Some (UserPublic.username u).

(** The likes of a post, as [smembers] shows them. *)
Definition likes_of (self : AsyncMemoryRedis.t) (post_id : str) : gset pyval :=
  default ∅ (AsyncMemoryRedis._sets self !! (u8 "forum:post:" ++ post_id ++ u8 ":likes")).

(** The set after the flip of one member. *)
Definition flip (member : pyval) (s : gset pyval) : gset pyval :=
  if bool_decide (member ∈ s) then s ∖ {[member]} else s ∪ {[member]}.

(** The hashes a world shows. *)
Definition hashes (w : world) : gmap str (gmap str str) :=
  AsyncMemoryRedis._hash (default AsyncMemoryRedis.__init__ (redis_client w)).

(** A CJK unified ideograph, U+4E00 to U+9FFF. *)
Definition ideograph (c : N) : Prop := (19968 <= c <= 40959)%N.

(** The first two canned responses of the chat agent. *)
Definition greeting : ChatResponse.t :=
  {| ChatResponse.reply := u8 "你好，我是你的模拟面试官。请先简要介绍一下自己和擅长方向。";
     ChatResponse.tips := Some (u8 "条理清晰，突出关键成绩。");
     ChatResponse.score := None |}.

Definition binary_search_prompt : ChatResponse.t :=
  {| ChatResponse.reply := u8 "二分查找的时间复杂度是多少？在旋转数组中如何应用？";
     ChatResponse.tips := Some (u8 "先给出 O(log n)；再讲不变式与边界处理。");
     ChatResponse.score := Some 7 |}.

(** The other canned responses, and the generic prompt of a message that
    matches no rule. *)
Definition hash_prompt : ChatResponse.t :=
  {| ChatResponse.reply := u8 "说说哈希冲突的常见解决方案，以及适用场景。";
     ChatResponse.tips := Some (u8 "拉链法、开放寻址、再哈希。");
     ChatResponse.score := None |}.

Definition dp_prompt : ChatResponse.t :=
  {| ChatResponse.reply := u8 "给出一道背包或最长子序列类 DP 的状态定义与转移。";
     ChatResponse.tips := Some (u8 "状态压缩可作为加分项。");
     ChatResponse.score := Some 8 |}.

Definition tcp_prompt : ChatResponse.t :=
  {| ChatResponse.reply := u8 "请简述 TCP 三次握手与四次挥手的过程与原因。";
     ChatResponse.tips := Some (u8 "半关闭、TIME_WAIT、RST 情况。");
     ChatResponse.score := None |}.

Definition generic_prompt (role focus : str) : ChatResponse.t :=
  {| ChatResponse.reply :=
       u8 "针对" ++ (if truthy role then role else u8 "通用岗位") ++ u8 "（方向：" ++
       (if truthy focus then focus else u8 "综合") ++
       u8 "），请阐述你最熟悉的项目难点与优化。";
     ChatResponse.tips := Some (u8 "结构化表达：背景-问题-方案-效果-复盘。");
     ChatResponse.score := None |}.

(** The specification's reading of the reply generator: an ordered table
    of keyword sets with their canned responses, of which the first set
    with a keyword in the text decides. *)
Definition rule_table : list (list str * ChatResponse.t) :=
  [([u8 "hello"; u8 "hi"; u8 "你好"], greeting);
   ([u8 "二分"; u8 "binary search"], binary_search_prompt);
   ([u8 "hash"; u8 "哈希"], hash_prompt);
   ([u8 "dp"; u8 "动态规划"], dp_prompt);
   ([u8 "tcp"; u8 "三次握手"; u8 "四次挥手"], tcp_prompt)].

Fixpoint first_match (rules : list (list str * ChatResponse.t)) (text : str)
  : option ChatResponse.t :=
  match rules with
  | [] => None
  | (keywords, response) :: rules' =>
      if any_in keywords text then Some response else first_match rules' text
  end.

(** A character of the messages the statements on letter case are about:
    ASCII or a CJK unified ideograph. *)
Definition plain (c : N) : Prop := (c < 128)%N ∨ ideograph c.

(** Every scalar kept under a forum key is an [int]: the post counter and
    the comment counters, as [incr] and [create_comment] write them. *)
Definition forum_counters (self : AsyncMemoryRedis.t) : Prop :=
  ∀ k v, AsyncMemoryRedis._kv self !! k = Some v →
         startswith (u8 "forum:post") k = true → ∃ n, v = VInt n.

(** ** Vocabulary of the further properties *)

(** The four methods that change what [get] shows for [key]. *)
Definition overwrites (key : str) (c : call) : Prop :=
  match c with
  | Set_ k _ _ | Setex k _ _ _ | Incr k | Delete k => k = key
  | _ => False
  end.

(** The call is made before the deadline [o] of a key, if it has one. *)
Definition before (o : option Z) (t : Z) : Prop :=
  match o with
  | Some d => t < d
  | None => True
  end.

(** The members of a set key, as [smembers] shows them. *)
Definition members_of (self : AsyncMemoryRedis.t) (key : str) : gset pyval :=
  default ∅ (AsyncMemoryRedis._sets self !! key).

(** The writers of a hash key and of a set key. *)
Definition writes_hash (key : str) (c : call) : Prop :=
  match c with
  | Hset k _ => k = key
  | _ => False
  end.

Definition writes_set (key : str) (c : call) : Prop :=
  match c with
  | Sadd k _ | Srem k _ => k = key
  | _ => False
  end.

(** [c] is [incr(key)]. *)
Definition is_incr (key : str) (c : call) : bool :=
  match c with
  | Incr k => bool_decide (k = key)
  | _ => false
  end.

(** A string with no white space at either end. *)
Definition trimmed (s : str) : Prop :=
  (∀ c, head s = Some c → isspace c = false)
  ∧ (∀ c, head (rev s) = Some c → isspace c = false).

(** The answer of every handler to a caller without a valid bearer token. *)
Definition unauthorized : exn := HTTPException 401 (u8 "Unauthorized").

(** The world [reads] clock readings and [draws] random draws after [w],
    with the store [self]. *)
Definition after (w : world) (reads draws : nat) (self : AsyncMemoryRedis.t) : world :=
  {| redis_client := Some self;
     clock := clock w;
     clock_reads := (reads + clock_reads w)%nat;
     urandom := urandom w;
     urandom_reads := (draws + urandom_reads w)%nat |}.

(** The login request with the credentials of a registration. *)
Definition credentials_of (r : RegisterRequest.t) : LoginRequest.t :=
  {| LoginRequest.username := RegisterRequest.username r;
     LoginRequest.password := RegisterRequest.password r |}.

Open Scope Z_scope.

(** The key resolves to no user: it holds no value, or an empty one. *)
Definition unresolvable (self : AsyncMemoryRedis.t) (key : str) : Prop :=
  ∀ v, AsyncMemoryRedis._kv self !! key = Some v → py_str v = [].

(** The soft-delete flag as [delete_post] and [delete_comment] write it. *)
Definition flagged (data : gmap str str) : gmap str str := <[u8 "deleted" := u8 "1"]> data.
(** Bob has commented on alice's post. *)
Definition commented_world : world :=
  Demo.exec (forum.create_comment (u8 "1") {| CommentCreate.content := u8 "hi" |} (u8 "r4"))
    Demo.forum_world.

(** [payload.field if payload.field is not None else old]: the value of a
    field after an update. *)
Definition updated (new : option str) (old : str) : str := default old new.
(** The stored value is an [int]. *)
Definition is_VInt (v : pyval) : bool := match v with VInt _ => true | VStr _ => false end.

(** The ids [i, i - 1, ..., 1] in the order [list_posts] scans them. *)
Fixpoint countdown (i : nat) : list Z :=
  match i with
  | O => []
  | S i' => Z.of_nat i :: countdown i'
  end.

(** The ids a page can show: the scan skips the [offset] newest ids,
    whether or not their posts are visible. *)
Definition scanned (offset max_id : Z) : list Z :=
  filter (fun j => j <= max_id - offset) (countdown (Z.to_nat max_id)).

(** The comma, the separator of origins and of tags. *)
Definition comma : N := 44%N.

(** The answer of every handler when the application has no store. *)
Definition not_initialized : exn := HTTPException 500 (u8 "Redis not initialized").

(** Every scalar kept under a study key is an [int]: the counters of the
    study handlers, as [incr] writes them. *)
Definition study_counters (self : AsyncMemoryRedis.t) : Prop :=
  ∀ k v, AsyncMemoryRedis._kv self !! k = Some v →
         startswith (u8 "study:") k = true → ∃ n, v = VInt n.

(** * Properties *)

(** ** The builtins on examples *)

Example u8_ascii : u8 "hi" = [104; 105]%N.
Proof. reflexivity. Qed.

Example u8_nihao : u8 "你好" = [20320; 22909]%N.
Proof. reflexivity. Qed.

Example u8_erfen : u8 "二分" = [20108; 20998]%N.
Proof. reflexivity. Qed.

Example str_of_Z_ex : str_of_Z 604800 = u8 "604800" /\ str_of_Z (-7) = u8 "-7".
Proof. split; reflexivity. Qed.

Example strip_ex : strip (u8 "  alice 	") = u8 "alice".
Proof. reflexivity. Qed.

Example contains_ex :
  contains (u8 "二分") (u8 "讲讲二分查找") = true /\ contains (u8 "hi") (u8 "oh") = false.
Proof. split; reflexivity. Qed.

Example split_join_ex :
  split_char 44 (u8 "a,b,,c") = [u8 "a"; u8 "b"; []; u8 "c"]
  /\ join (u8 ",") [u8 "hash"; u8 "dp"] = u8 "hash,dp".
Proof. split; reflexivity. Qed.

(** ** The demonstration platform meets [PlatformSpec] *)

Lemma digits_uint_digits (u : Decimal.uint) : Demo.digits_uint (uint_digits u) = Some u.
Proof. induction u; simpl; try rewrite IHu; reflexivity. Qed.

Lemma uint_digits_head (p : positive) :
  exists c r, uint_digits (Pos.to_uint p) = c :: r /\ c <> 45%N.
Proof.
  pose proof (DecimalPos.Unsigned.to_uint_nonnil p) as Hn.
  destruct (Pos.to_uint p); [congruence | ..]; simpl; eexists _, _; split;
    try reflexivity; discriminate.
Qed.

Lemma demo_parse_int_pos (p : positive) :
  Demo.parse_int (uint_digits (Pos.to_uint p)) = Some (Zpos p).
Proof.
  destruct (uint_digits_head p) as (c & r & E & Hc).
  unfold Demo.parse_int. rewrite E.
  assert (G : (fun u => Z.of_N (N.of_uint u)) <$> Demo.digits_uint (c :: r) = Some (Zpos p)).
  { rewrite <- E, digits_uint_digits. simpl.
    change (N.of_uint (Pos.to_uint p)) with (Pos.of_uint (Pos.to_uint p)).
    rewrite DecimalPos.Unsigned.of_to. reflexivity. }
  destruct c as [|q]; [exact G|].
  destruct (decide (q = 45%positive)) as [->|Hq]; [congruence|].
  repeat (destruct q as [q|q|]; try exact G); congruence.
Qed.

#[global] Instance platform_spec : PlatformSpec Demo.platform.
Proof.
  split.
  - intros [|p|p]; simpl.
    + reflexivity.
    + apply demo_parse_int_pos.
    + destruct (uint_digits_head p) as (c & r & E & Hc).
      unfold Demo.parse_int. rewrite E, <- E, digits_uint_digits. simpl.
      change (N.of_uint (Pos.to_uint p)) with (Pos.of_uint (Pos.to_uint p)).
      rewrite DecimalPos.Unsigned.of_to. reflexivity.
  - intros c Hc. simpl. unfold Demo.lower_full.
    destruct (65 <=? c)%N eqn:E1; [|reflexivity].
    destruct (c <=? 90)%N eqn:E2; [|reflexivity].
    apply N.leb_le in E2. lia.
  - intros c Hc. simpl. unfold Demo.lower_full, ascii_lower.
    by destruct ((65 <=? c) && (c <=? 90))%N.
Qed.

(** ** The lazy expiry sweep *)

Section cleanup.
Import AsyncMemoryRedis.

Lemma pops_hash (l : list str) (self : t) :
  _hash (fold_left (fun self k => pop k self) l self) = _hash self.
Proof. revert self; induction l as [|k l IH]; intros self; simpl; [done|]. by rewrite IH. Qed.

Lemma pops_sets (l : list str) (self : t) :
  _sets (fold_left (fun self k => pop k self) l self) = _sets self.
Proof. revert self; induction l as [|k l IH]; intros self; simpl; [done|]. by rewrite IH. Qed.

Lemma pops_kv (l : list str) (self : t) (k : str) :
  _kv (fold_left (fun self k => pop k self) l self) !! k
  = if decide (k ∈ l) then None else _kv self !! k.
Proof.
  revert self; induction l as [|k' l IH]; intros self.
  - cbn [fold_left]. destruct (decide (k ∈ [])) as [Hin|Hin]; [by apply elem_of_nil in Hin | done].
  - cbn [fold_left]. rewrite IH. cbn [pop _kv].
    destruct (decide (k ∈ l)) as [Hin|Hin].
    + rewrite decide_True by (apply elem_of_cons; by right). done.
    + destruct (decide (k = k')) as [->|Hne].
      * rewrite lookup_delete_eq, decide_True by (apply elem_of_cons; by left). done.
      * rewrite lookup_delete_ne by done. rewrite decide_False; [done|].
        by intros [?|?]%elem_of_cons.
Qed.

Lemma pops_ttl (l : list str) (self : t) (k : str) :
  _ttl (fold_left (fun self k => pop k self) l self) !! k
  = if decide (k ∈ l) then None else _ttl self !! k.
Proof.
  revert self; induction l as [|k' l IH]; intros self.
  - cbn [fold_left]. destruct (decide (k ∈ [])) as [Hin|Hin]; [by apply elem_of_nil in Hin | done].
  - cbn [fold_left]. rewrite IH. cbn [pop _ttl].
    destruct (decide (k ∈ l)) as [Hin|Hin].
    + rewrite decide_True by (apply elem_of_cons; by right). done.
    + destruct (decide (k = k')) as [->|Hne].
      * rewrite lookup_delete_eq, decide_True by (apply elem_of_cons; by left). done.
      * rewrite lookup_delete_ne by done. rewrite decide_False; [done|].
        by intros [?|?]%elem_of_cons.
Qed.

Lemma elem_of_expired (now : Z) (self : t) (k : str) :
  k ∈ expired now self ↔ ∃ d, _ttl self !! k = Some d ∧ d <= now.
Proof.
  unfold expired. rewrite list_elem_of_fmap. split.
  - intros ([k' d] & -> & Hin). apply elem_of_map_to_list in Hin.
    apply map_lookup_filter_Some in Hin as [Hl Hd]. eauto.
  - intros (d & Hl & Hd). exists (k, d). split; [done|].
    apply elem_of_map_to_list, map_lookup_filter_Some. done.
Qed.

Lemma cleanup_hash (now : Z) (self : t) : _hash (_cleanup now self) = _hash self.
Proof. apply pops_hash. Qed.

Lemma cleanup_sets (now : Z) (self : t) : _sets (_cleanup now self) = _sets self.
Proof. apply pops_sets. Qed.

Lemma cleanup_kv_live (now : Z) (self : t) (k : str) :
  live now self k → _kv (_cleanup now self) !! k = _kv self !! k.
Proof.
  intros Hl. unfold _cleanup. rewrite pops_kv, decide_False; [done|].
  rewrite elem_of_expired. intros (d & Hd & Hle). unfold live in Hl.
  rewrite Hd in Hl. lia.
Qed.

Lemma cleanup_ttl_live (now : Z) (self : t) (k : str) :
  live now self k → _ttl (_cleanup now self) !! k = _ttl self !! k.
Proof.
  intros Hl. unfold _cleanup. rewrite pops_ttl, decide_False; [done|].
  rewrite elem_of_expired. intros (d & Hd & Hle). unfold live in Hl.
  rewrite Hd in Hl. lia.
Qed.

Lemma cleanup_kv_expired (now d : Z) (self : t) (k : str) :
  _ttl self !! k = Some d → d <= now → _kv (_cleanup now self) !! k = None.
Proof.
  intros Hd Hle. unfold _cleanup. rewrite pops_kv, decide_True; [done|].
  apply elem_of_expired. eauto.
Qed.

Lemma cleanup_ttl_expired (now d : Z) (self : t) (k : str) :
  _ttl self !! k = Some d → d <= now → _ttl (_cleanup now self) !! k = None.
Proof.
  intros Hd Hle. unfold _cleanup. rewrite pops_ttl, decide_True; [done|].
  apply elem_of_expired. eauto.
Qed.

(** The sweep only removes: a key absent before is absent after. *)
Lemma cleanup_kv_None (now : Z) (self : t) (k : str) :
  _kv self !! k = None → _kv (_cleanup now self) !! k = None.
Proof. intros Hn. unfold _cleanup. rewrite pops_kv. by case_decide. Qed.

Lemma cleanup_ttl_mono (now d : Z) (self : t) (k : str) :
  _ttl (_cleanup now self) !! k = Some d → _ttl self !! k = Some d.
Proof. unfold _cleanup. rewrite pops_ttl. by case_decide. Qed.

Lemma cleanup_live (now now' : Z) (self : t) (k : str) :
  live now' self k → live now' (_cleanup now self) k.
Proof.
  unfold live. intros Hl.
  destruct (_ttl (_cleanup now self) !! k) as [d|] eqn:E; [|done].
  apply cleanup_ttl_mono in E. by rewrite E in Hl.
Qed.

End cleanup.

(** ** One store call of a handler *)

Lemma bind_Ok {A B} (c : M A) (k : A -> M B) (w w' : world) (a : A) :
  c w = (Ok a, w') → bind c k w = k a w'.
Proof. intros E. unfold bind. by rewrite E. Qed.

Lemma bind_Raise {A B} (c : M A) (k : A -> M B) (w w' : world) (e : exn) :
  c w = (Raise e, w') → bind c k w = (Raise e, w').
Proof. intros E. unfold bind. by rewrite E. Qed.

Ltac client := first [eassumption | reflexivity].

(** Run the next call of a handler with the lemma that describes it. *)
Ltac step_with lem := erewrite bind_Ok; [| eapply lem; client]; cbv beta.

Lemma await_Some {A} (method : Z -> AsyncMemoryRedis.t -> A * AsyncMemoryRedis.t)
  (w : world) (self : AsyncMemoryRedis.t) :
  redis_client w = Some self →
  await method w = (Ok (method (now w) self).1, tick w (method (now w) self).2).
Proof.
  intros Hc. unfold await. rewrite Hc. unfold bind, time_time, set_client, ret, now, tick.
  cbn. by destruct (method _ _).
Qed.

Lemma await2_Some {A}
  (method : Z -> Z -> AsyncMemoryRedis.t -> A * AsyncMemoryRedis.t)
  (w : world) (self : AsyncMemoryRedis.t) :
  redis_client w = Some self →
  await2 method w
  = (Ok (method (now w) (later w 1) self).1,
     tick (tick w self) (method (now w) (later w 1) self).2).
Proof.
  intros Hc. unfold await2. rewrite Hc.
  unfold bind, time_time, set_client, ret, now, later, tick.
  cbn. by destruct (method _ _ _).
Qed.

Lemma require_redis_Some (w : world) (self : AsyncMemoryRedis.t) :
  redis_client w = Some self → require_redis w = (Ok tt, w).
Proof. intros Hc. unfold require_redis. by rewrite Hc. Qed.

Lemma tick_client (w : world) (self : AsyncMemoryRedis.t) :
  redis_client (tick w self) = Some self.
Proof. reflexivity. Qed.

Lemma now_tick (w : world) (self : AsyncMemoryRedis.t) : now (tick w self) = later w 1.
Proof. reflexivity. Qed.

Lemma later_tick (w : world) (self : AsyncMemoryRedis.t) (n : nat) :
  later (tick w self) n = later w (S n).
Proof. unfold later, tick. cbn. f_equal. lia. Qed.

Lemma later_0 (w : world) : later w 0 = now w.
Proof. reflexivity. Qed.

Lemma time_time_Some (w : world) (self : AsyncMemoryRedis.t) :
  redis_client w = Some self → time_time w = (Ok (now w), tick w self).
Proof. intros Hc. unfold time_time, tick, now. by rewrite Hc. Qed.

Lemma _now_iso_Some `{Platform} (w : world) (self : AsyncMemoryRedis.t) :
  redis_client w = Some self →
  _now_iso w = (Ok (datetime_isoformat (now w)), tick w self).
Proof.
  intros Hc. unfold _now_iso. by rewrite (bind_Ok _ _ _ _ _ (time_time_Some _ _ Hc)).
Qed.

Lemma os_urandom_run (w : world) :
  os_urandom w = (Ok (urandom w (urandom_reads w)), draw w).
Proof. reflexivity. Qed.

Lemma await_incr_Some `{Platform} (key : str) (w : world) (self : AsyncMemoryRedis.t) (n : Z) :
  redis_client w = Some self →
  counter (AsyncMemoryRedis._cleanup (now w) self) key = Some n →
  await_incr key w
  = (Ok (n + 1), tick w (AsyncMemoryRedis.incr key (now w) self).2).
Proof.
  intros Hc Hn. unfold await_incr.
  rewrite (bind_Ok _ _ _ _ _ (await_Some _ _ _ Hc)).
  unfold AsyncMemoryRedis.incr. unfold counter in Hn. by rewrite Hn.
Qed.

(** ** The store methods, dictionary by dictionary *)

Section methods.
Context `{Platform}.
Import AsyncMemoryRedis.

Lemma live_during_le (w : world) (self : t) (k : str) (n i : nat) :
  live_during w self k n → (i < n)%nat → live (later w i) self k.
Proof.
  induction n as [|n IH]; intros Hl Hi; [lia|]. destruct Hl as [Hn Hl].
  destruct (decide (i = n)) as [->|Hne]; [done|]. apply IH; [done|lia].
Qed.

Lemma live_ttl_eq (now : Z) (s s' : t) (k : str) :
  _ttl s' !! k = _ttl s !! k → live now s k → live now s' k.
Proof. unfold live. by intros ->. Qed.

Lemma incr_kv_ne (key k : str) (now : Z) (self : t) :
  key ≠ k → _kv (incr key now self).2 !! k = _kv (_cleanup now self) !! k.
Proof.
  intros Hne. unfold incr. destruct (py_int _); cbn [snd _kv]; [|done].
  by rewrite lookup_insert_ne.
Qed.

Lemma incr_kv_eq (key : str) (now n : Z) (self : t) :
  counter (_cleanup now self) key = Some n →
  _kv (incr key now self).2 !! key = Some (VInt (n + 1)).
Proof.
  unfold counter, incr. intros ->. cbn [snd _kv]. apply lookup_insert_eq.
Qed.

Lemma incr_ttl (key : str) (now : Z) (self : t) :
  _ttl (incr key now self).2 = _ttl (_cleanup now self).
Proof. unfold incr. by destruct (py_int _). Qed.

Lemma incr_hash (key : str) (now : Z) (self : t) :
  _hash (incr key now self).2 = _hash self.
Proof. unfold incr. destruct (py_int _); cbn [snd _hash]; apply cleanup_hash. Qed.

Lemma incr_sets (key : str) (now : Z) (self : t) :
  _sets (incr key now self).2 = _sets self.
Proof. unfold incr. destruct (py_int _); cbn [snd _sets]; apply cleanup_sets. Qed.

Lemma incr_live (key k : str) (now now' : Z) (self : t) :
  live now' self k → live now' (incr key now self).2 k.
Proof.
  intros Hl. unfold live. rewrite incr_ttl. by apply cleanup_live.
Qed.

(** [set(key, value, nx=True)] writes exactly when the key holds no value
    at the time of the call, and says so. *)
Lemma set_nx_spec (key : str) (value : pyval) (now : Z) (self : t) :
  let s0 := _cleanup now self in
  match _kv s0 !! key with
  | Some _ => set key value true now self = (false, s0)
  | None =>
      (set key value true now self).1 = true
      ∧ _kv (set key value true now self).2 = <[key := value]> (_kv s0)
      ∧ _ttl (set key value true now self).2 = base.delete key (_ttl s0)
      ∧ _hash (set key value true now self).2 = _hash self
      ∧ _sets (set key value true now self).2 = _sets self
  end.
Proof.
  intros s0. unfold set. fold s0. destruct (_kv s0 !! key) as [v|] eqn:E.
  - rewrite bool_decide_eq_true_2 by eauto. done.
  - rewrite bool_decide_eq_false_2 by (by intros [? ?]). cbn.
    subst s0. by rewrite cleanup_hash, cleanup_sets.
Qed.

Lemma hset_kv (key : str) (mapping : gmap str str) (now : Z) (self : t) :
  _kv (hset key mapping now self).2 = _kv (_cleanup now self).
Proof. reflexivity. Qed.

Lemma hset_ttl (key : str) (mapping : gmap str str) (now : Z) (self : t) :
  _ttl (hset key mapping now self).2 = _ttl (_cleanup now self).
Proof. reflexivity. Qed.

Lemma hset_sets (key : str) (mapping : gmap str str) (now : Z) (self : t) :
  _sets (hset key mapping now self).2 = _sets self.
Proof. unfold hset. cbn. apply cleanup_sets. Qed.

Lemma hset_hash (key : str) (mapping : gmap str str) (now : Z) (self : t) :
  _hash (hset key mapping now self).2
  = <[key := mapping ∪ default ∅ (_hash self !! key)]> (_hash self).
Proof. unfold hset. cbn. by rewrite cleanup_hash. Qed.

Lemma hgetall_fst (key : str) (now : Z) (self : t) :
  (hgetall key now self).1 = default ∅ (_hash self !! key).
Proof. unfold hgetall. cbn [fst]. by rewrite cleanup_hash. Qed.

End methods.

(** ** Logout *)

Section logout.
Context `{Platform}.
Import AsyncMemoryRedis.

(** [logout] as the store calls it makes. *)
Lemma logout_run (w : world) (self : t) (token : str) :
  redis_client w = Some self →
  auth.logout token w =
    let key := u8 "session:" ++ token in
    let s0 := _cleanup (now w) self in
    match py_str <$> _kv s0 !! key with
    | Some ((_ :: _) as uid) =>
        let w1 := tick w s0 in
        let s1 := pop key (_cleanup (now w1) s0) in
        let w2 := tick w1 s1 in
        let s2 := (srem (u8 "user:sessions:" ++ uid) [VStr token] (now w2) s1).2 in
        (Ok true, tick w2 s2)
    | _ => (Ok true, tick w s0)
    end.
Proof.
  intros Hc. unfold auth.logout.
  rewrite (bind_Ok _ _ _ _ _ (require_redis_Some _ _ Hc)).
  rewrite (bind_Ok _ _ _ _ _ (await_Some _ _ _ Hc)).
  cbn [get fst snd].
  by destruct (py_str <$> _kv (_cleanup (now w) self) !! (u8 "session:" ++ token))
    as [[|c uid]|].
Qed.

Lemma logout_Ok (w : world) (token : str) :
  is_Some (redis_client w) →
  fst (auth.logout token w) = Ok true
  ∧ is_Some (redis_client (snd (auth.logout token w))).
Proof.
  intros [self Hc]. rewrite (logout_run _ _ _ Hc). cbv zeta.
  by destruct (py_str <$> _) as [[|c uid]|].
Qed.

(** C6. With a store in place, [logout] answers [{"ok": True}] for every
    token. If the token is bound to a user id (the session key holds a
    non-empty value that has not expired), the session key is gone
    afterwards and the token has left that user's set of active tokens.
    If the token is unknown or has expired, the only store call is the
    lookup: nothing is removed from any set or hash. A second [logout] of
    the same token succeeds again. *)
Theorem logout_idempotent (w : world) (self : t) (token : str) :
  redis_client w = Some self →
  let key := u8 "session:" ++ token in
  fst (auth.logout token w) = Ok true
  ∧ (∀ v, _kv self !! key = Some v → live (now w) self key → py_str v ≠ [] →
       let tokens := u8 "user:sessions:" ++ py_str v in
       ∃ self', redis_client (snd (auth.logout token w)) = Some self'
         ∧ _kv self' !! key = None
         ∧ _sets self' !! tokens
           = Some (default ∅ (_sets self !! tokens) ∖ {[VStr token]})
         ∧ _hash self' = _hash self)
  ∧ (_kv self !! key = None ∨ (∃ d, _ttl self !! key = Some d ∧ d <= now w) →
       snd (auth.logout token w) = tick w (_cleanup (now w) self)
       ∧ _sets (_cleanup (now w) self) = _sets self
       ∧ _hash (_cleanup (now w) self) = _hash self)
  ∧ fst (auth.logout token (snd (auth.logout token w))) = Ok true.
Proof.
  intros Hc key. split; [|split; [|split]].
  - apply logout_Ok. by rewrite Hc.
  - intros v Hv Hlive Hne tokens. rewrite (logout_run _ _ _ Hc). cbv zeta.
    fold key. rewrite (cleanup_kv_live _ _ _ Hlive), Hv.
    cbn [fmap option_fmap option_map].
    destruct (py_str v) as [|c uid] eqn:Ev; [done|].
    eexists. split; [reflexivity|]. unfold srem. cbn [snd _kv _sets _hash fold_left].
    split; [|split].
    + apply cleanup_kv_None. cbn [pop _kv]. apply lookup_delete_eq.
    + rewrite lookup_insert_eq. rewrite !cleanup_sets. cbn [pop _sets].
      rewrite !cleanup_sets. subst tokens. reflexivity.
    + rewrite !cleanup_hash. cbn [pop _hash]. by rewrite !cleanup_hash.
  - intros Hgone. rewrite (logout_run _ _ _ Hc). cbv zeta. fold key.
    assert (_kv (_cleanup (now w) self) !! key = None) as ->.
    { destruct Hgone as [Hn|(d & Hd & Hle)].
      - by apply cleanup_kv_None.
      - by eapply cleanup_kv_expired. }
    split; [done|]. by rewrite cleanup_sets, cleanup_hash.
  - apply logout_Ok, logout_Ok. by rewrite Hc.
Qed.

End logout.

(** On the scenario: alice's token [r2] is bound to user 1; after [logout]
    the session key is gone and her token set is empty. *)
Lemma logout_idempotent_witness :
  let key := u8 "session:r2" in
  let tokens := u8 "user:sessions:1" in
  ∃ self', redis_client (snd (auth.logout (u8 "r2") Demo.logged_in)) = Some self'
    ∧ AsyncMemoryRedis._kv self' !! key = None
    ∧ AsyncMemoryRedis._sets self' !! tokens
      = Some (default ∅ (AsyncMemoryRedis._sets (Demo.store Demo.logged_in) !! tokens)
              ∖ {[VStr (u8 "r2")]})
    ∧ AsyncMemoryRedis._hash self' = AsyncMemoryRedis._hash (Demo.store Demo.logged_in).
Proof.
  destruct (logout_idempotent Demo.logged_in (Demo.store Demo.logged_in) (u8 "r2"))
    as (_ & Hbound & _).
  - vm_compute. reflexivity.
  - apply (Hbound (VStr (u8 "1"))).
    + vm_compute. reflexivity.
    + vm_compute. reflexivity.
    + discriminate.
Defined.

(** ** Register *)

Lemma seq_ne_binding (username : str) : u8 "users:seq" ≠ u8 "user:byname:" ++ username.
Proof. intros E. vm_compute in E. discriminate. Qed.

Section register.
Context `{Platform}.
Import AsyncMemoryRedis.

(** C1. [set(key, value, nx=True)] writes and returns [True] exactly when
    the key holds no value at the time of the call. For a request whose
    trimmed username is not empty, with the counter [users:seq] readable
    as [n]: if the binding key [user:byname:{username}] holds a value
    (that does not expire during the call), [register] fails with 409
    "Username already exists", no hash is written, the binding is
    unchanged and [users:seq] is [n + 1] all the same; if the binding key
    is absent, [register] returns the new identity [n + 1], the binding
    holds that id and the user record is stored. *)
Theorem register_conflict_keeps_id (w : world) (self : t) (payload : RegisterRequest.t) (n : Z) :
  let username := strip (RegisterRequest.username payload) in
  let binding := u8 "user:byname:" ++ username in
  let seq := u8 "users:seq" in
  redis_client w = Some self →
  username ≠ [] →
  counter self seq = Some n →
  live_during w self seq 4 →
  (∀ key value t s,
     match _kv (_cleanup t s) !! key with
     | Some _ => set key value true t s = (false, _cleanup t s)
     | None =>
         (set key value true t s).1 = true
         ∧ _kv (set key value true t s).2 !! key = Some value
     end)
  ∧ (∀ v, _kv self !! binding = Some v → live_during w self binding 3 →
     fst (auth.register payload w)
     = Raise (HTTPException 409 (u8 "Username already exists"))
     ∧ ∃ self', redis_client (snd (auth.register payload w)) = Some self'
         ∧ _hash self' = _hash self
         ∧ _kv self' !! binding = Some v
         ∧ _kv self' !! seq = Some (VInt (n + 1)))
  ∧ (_kv self !! binding = None →
     fst (auth.register payload w)
     = Ok {| UserPublic.id := str_of_Z (n + 1); UserPublic.username := username |}
     ∧ ∃ self' password_hash created_at,
         redis_client (snd (auth.register payload w)) = Some self'
         ∧ _kv self' !! binding = Some (VInt (n + 1))
         ∧ _kv self' !! seq = Some (VInt (n + 1))
         ∧ _hash self' !! (u8 "user:" ++ str_of_Z (n + 1))
           = Some (list_to_map
                     [(u8 "id", str_of_Z (n + 1));
                      (u8 "username", username);
                      (u8 "password_hash", password_hash);
                      (u8 "created_at", created_at)]
                   ∪ default ∅ (_hash self !! (u8 "user:" ++ str_of_Z (n + 1))))).
Proof.
  intros username binding seq Hc Hu Hn Hls.
  assert (Hne : seq ≠ binding) by apply seq_ne_binding.
  assert (Ht : truthy username = true) by (by destruct username).
  pose proof (live_during_le _ _ _ _ 0 Hls ltac:(lia)) as Hs0.
  pose proof (live_during_le _ _ _ _ 2 Hls ltac:(lia)) as Hs2.
  pose proof (live_during_le _ _ _ _ 3 Hls ltac:(lia)) as Hs3.
  assert (Hn0 : counter (_cleanup (now w) self) seq = Some n).
  { unfold counter. by rewrite cleanup_kv_live. }
  set (s1 := (incr seq (now w) self).2).
  assert (Hrun : auth.register payload w
    = (let w3 := draw (tick (tick w s1) s1) in
       let r := set binding (VInt (n + 1)) true (later w 2) s1 in
       if negb r.1 then (Raise (HTTPException 409 (u8 "Username already exists")), tick w3 r.2)
       else
         let mapping :=
           list_to_map
             [(u8 "id", str_of_Z (n + 1)); (u8 "username", username);
              (u8 "password_hash",
               bcrypt_hash (urandom w (urandom_reads w)) (RegisterRequest.password payload));
              (u8 "created_at", datetime_isoformat (later w 1))] in
         (Ok {| UserPublic.id := str_of_Z (n + 1); UserPublic.username := username |},
          tick (tick w3 r.2) (hset (u8 "user:" ++ str_of_Z (n + 1)) mapping (later w 3) r.2).2))).
  { unfold auth.register. step_with require_redis_Some.
    fold username. rewrite Ht. cbn [negb].
    erewrite bind_Ok; [| eapply await_incr_Some; [client|exact Hn0]]; cbv beta.
    step_with @_now_iso_Some.
    erewrite bind_Ok; [| apply os_urandom_run]; cbv beta.
    erewrite bind_Ok; [| eapply await_Some; client]; cbv beta.
    fold seq s1 binding. cbv zeta.
    change (now (draw (tick (tick w s1) s1))) with (later w 2).
    destruct (set binding (VInt (n + 1)) true (later w 2) s1).1; cbn [negb]; [|reflexivity].
    erewrite bind_Ok; [| eapply await_Some; client]; cbv beta.
    reflexivity. }
  pose proof (set_nx_spec binding (VInt (n + 1)) (later w 2) s1) as Hset. cbv zeta in Hset.
  assert (Hb1 : ∀ v, _kv self !! binding = v → live (now w) self binding →
                live (later w 2) self binding →
                _kv (_cleanup (later w 2) s1) !! binding = v).
  { intros v Hv Hl0 Hl2. rewrite cleanup_kv_live by by apply incr_live.
    subst s1. rewrite incr_kv_ne by done. by rewrite cleanup_kv_live. }
  assert (Hq1 : _kv (_cleanup (later w 2) s1) !! seq = Some (VInt (n + 1))).
  { rewrite cleanup_kv_live by by apply incr_live. by apply incr_kv_eq. }
  split; [|split].
  - intros key value t s. pose proof (set_nx_spec key value t s) as Hs. cbv zeta in Hs.
    destruct (_kv (_cleanup t s) !! key); [done|].
    destruct Hs as (? & -> & _). split; [done | apply lookup_insert_eq].
  - intros v Hv Hlb.
    pose proof (live_during_le _ _ _ _ 0 Hlb ltac:(lia)) as Hb0.
    pose proof (live_during_le _ _ _ _ 2 Hlb ltac:(lia)) as Hb2.
    rewrite (Hb1 _ Hv Hb0 Hb2) in Hset. rewrite Hrun. cbv zeta. rewrite Hset. cbn [fst snd negb].
    split; [done|]. eexists. split; [reflexivity|].
    split; [|split].
    + rewrite cleanup_hash. apply incr_hash.
    + by apply Hb1.
    + done.
  - intros Hv.
    assert (_kv (_cleanup (later w 2) s1) !! binding = None) as Hb.
    { apply cleanup_kv_None. subst s1. rewrite incr_kv_ne by done. by apply cleanup_kv_None. }
    rewrite Hb in Hset. destruct Hset as (Hok & Hkv & Httl & Hh & Hss).
    rewrite Hrun. cbv zeta. rewrite Hok. cbn [fst snd negb].
    split; [done|]. eexists _, _, _. split; [reflexivity|].
    split; [|split].
    + rewrite hset_kv. rewrite cleanup_kv_live.
      * rewrite Hkv. apply lookup_insert_eq.
      * unfold live. rewrite Httl. by rewrite lookup_delete_eq.
    + rewrite hset_kv. rewrite cleanup_kv_live.
      * rewrite Hkv. rewrite lookup_insert_ne by (by apply not_eq_sym). exact Hq1.
      * unfold live. rewrite Httl. rewrite lookup_delete_ne by (by apply not_eq_sym).
        apply (cleanup_live (later w 2)). by apply incr_live.
    + rewrite hset_hash, lookup_insert_eq, Hh. subst s1. rewrite incr_hash. reflexivity.
Qed.

End register.

(** On the scenario, after alice has registered: a second registration of
    alice is refused and the counter moves to 2; bob registers as user 2. *)
Lemma register_conflict_keeps_id_witness :
  (fst (auth.register Demo.alice Demo.registered)
   = Raise (HTTPException 409 (u8 "Username already exists"))
   ∧ ∃ self', redis_client (snd (auth.register Demo.alice Demo.registered)) = Some self'
       ∧ AsyncMemoryRedis._hash self' = AsyncMemoryRedis._hash (Demo.store Demo.registered)
       ∧ AsyncMemoryRedis._kv self' !! (u8 "user:byname:" ++ u8 "alice") = Some (VInt 1)
       ∧ AsyncMemoryRedis._kv self' !! u8 "users:seq" = Some (VInt (1 + 1)))
  ∧ fst (auth.register Demo.bob Demo.registered)
    = Ok {| UserPublic.id := u8 "2"; UserPublic.username := u8 "bob" |}.
Proof.
  split.
  - destruct (register_conflict_keeps_id Demo.registered (Demo.store Demo.registered)
                Demo.alice 1) as (_ & Htaken & _).
    + vm_compute. reflexivity.
    + vm_compute. discriminate.
    + vm_compute. reflexivity.
    + vm_compute. repeat split.
    + apply (Htaken (VInt 1)).
      * vm_compute. reflexivity.
      * vm_compute. repeat split.
  - destruct (register_conflict_keeps_id Demo.registered (Demo.store Demo.registered)
                Demo.bob 1) as (_ & _ & Hfree).
    + vm_compute. reflexivity.
    + vm_compute. discriminate.
    + vm_compute. reflexivity.
    + vm_compute. repeat split.
    + apply Hfree. vm_compute. reflexivity.
Defined.

(** ** Expiry *)

Section expiry.
Context `{Platform}.
Import AsyncMemoryRedis.

Lemma cleanup_expires_by (D now : Z) (self : t) (k : str) :
  expires_by D self k → expires_by D (_cleanup now self) k.
Proof.
  intros [Hn|(d & Hd & Hle)].
  - left. by apply cleanup_kv_None.
  - destruct (decide (d <= now)) as [Hexp|Hlive].
    + left. by eapply cleanup_kv_expired.
    + right. exists d. split; [|done]. rewrite cleanup_ttl_live; [done|].
      unfold live. rewrite Hd. lia.
Qed.

Lemma expires_by_lookup (D : Z) (s s' : t) (k : str) :
  _kv s' !! k = _kv s !! k → _ttl s' !! k = _ttl s !! k →
  expires_by D s k → expires_by D s' k.
Proof. unfold expires_by. by intros -> ->. Qed.

(** A call that does not write the key keeps it on its way out. *)
Lemma run_call_expires_by (D now : Z) (c : call) (self : t) (k : str) :
  ¬ writes k c → expires_by D self k → expires_by D (run_call c now self) k.
Proof.
  intros Hw He. apply (cleanup_expires_by D now) in He.
  destruct c as [key|key value nx|key ttl value now2|key|key mapping|key|key members
                |key members|key|key member|key|key];
    cbn [run_call writes] in *; try exact He.
  - unfold set. destruct (nx && _); [exact He|]. cbn [snd].
    eapply expires_by_lookup; [| |exact He]; cbn.
    + by rewrite lookup_insert_ne.
    + by rewrite lookup_delete_ne.
  - eapply expires_by_lookup; [| |exact He]; cbn.
    + by rewrite lookup_insert_ne.
    + by rewrite lookup_insert_ne.
  - eapply expires_by_lookup; [| |exact He].
    + by apply incr_kv_ne.
    + by rewrite incr_ttl.
  - destruct (decide (key = k)) as [->|Hne].
    + left. cbn. apply lookup_delete_eq.
    + eapply expires_by_lookup; [| |exact He]; cbn.
      * by rewrite lookup_delete_ne.
      * by rewrite lookup_delete_ne.
Qed.

Lemma run_calls_expires_by (D : Z) (cs : list (call * Z)) (self : t) (k : str) :
  Forall (fun c => ¬ writes k c.1) cs →
  expires_by D self k → expires_by D (run_calls cs self) k.
Proof.
  unfold run_calls. revert self.
  induction cs as [|[c now] cs IH]; intros self Hcs He; [done|].
  apply Forall_cons in Hcs as [Hc Hcs]. cbn [fold_left fst snd].
  apply IH; [done|]. by apply run_call_expires_by.
Qed.

Lemma setex_expires_by (key : str) (ttl : Z) (value : pyval) (now now2 : Z) (self : t) :
  expires_by (float_add now2 ttl) (setex key ttl value now now2 self).2 key.
Proof. right. exists (float_add now2 ttl). split; [apply lookup_insert_eq | lia]. Qed.

Lemma get_expires_by (D now : Z) (self : t) (k : str) :
  expires_by D self k → D <= now → (get k now self).1 = None.
Proof.
  intros He Hle. unfold get. cbn [fst].
  assert (_kv (_cleanup now self) !! k = None) as ->; [|done].
  destruct He as [Hn|(d & Hd & Hd')].
  - by apply cleanup_kv_None.
  - eapply cleanup_kv_expired; [done|lia].
Qed.

(** [_get_user_by_username] and [_resolve_user_from_token] as the store
    calls they make. *)
Lemma _get_user_by_username_run (w : world) (self : t) (username : str) :
  redis_client w = Some self →
  auth._get_user_by_username username w =
    let s0 := _cleanup (now w) self in
    match py_str <$> _kv s0 !! (u8 "user:byname:" ++ username) with
    | Some ((_ :: _) as uid) =>
        let data := default ∅ (_hash self !! (u8 "user:" ++ uid)) in
        (Ok (if decide (data = ∅) then None else Some data),
         tick (tick w s0) (_cleanup (later w 1) s0))
    | _ => (Ok None, tick w s0)
    end.
Proof.
  intros Hc. unfold auth._get_user_by_username.
  step_with require_redis_Some.
  erewrite bind_Ok; [| eapply await_Some; client]; cbv beta.
  cbn [get fst snd]. cbv zeta.
  destruct (py_str <$> _) as [[|c uid]|]; try reflexivity.
  erewrite bind_Ok; [| eapply await_Some; client]; cbv beta.
  rewrite hgetall_fst, cleanup_hash. reflexivity.
Qed.

Lemma login_Ok_store (w w1 : world) (self : t) (payload : LoginRequest.t)
  (r : LoginResponse.t) :
  redis_client w = Some self →
  auth.login payload w = (Ok r, w1) →
  ∃ s uid,
    redis_client w1
    = Some (sadd (u8 "user:sessions:" ++ uid) [VStr (LoginResponse.token r)] (later w 4)
              (setex (u8 "session:" ++ LoginResponse.token r) get_session_ttl_seconds
                 (VStr uid) (later w 2) (later w 3) s).2).2.
Proof.
  intros Hc. unfold auth.login.
  step_with require_redis_Some.
  unfold bind at 1. rewrite (_get_user_by_username_run _ _ _ Hc). cbv zeta.
  destruct (py_str <$> _) as [[|c uid]|]; cbn [raise]; try discriminate.
  destruct (decide _) as [?|Hdata]; [discriminate|].
  destruct (bcrypt_verify _ _) as [[|]|]; try discriminate.
  unfold generate_token.
  erewrite bind_Ok; [| apply os_urandom_run]; cbv beta.
  unfold getitem at 1.
  destruct (_ !! u8 "id") as [id|]; [|discriminate].
  erewrite bind_Ok; [| reflexivity]; cbv beta.
  erewrite bind_Ok; [| eapply await2_Some; client]; cbv beta.
  erewrite bind_Ok; [| eapply await_Some; client]; cbv beta.
  cbn [ret]. intros E.
  pose proof (f_equal fst E) as E1. pose proof (f_equal snd E) as E2.
  cbn [fst snd] in E1, E2. injection E1 as E1. subst r w1.
  eexists _, _. reflexivity.
Qed.

Lemma _resolve_user_from_token_run (w : world) (self : t) (token : str) :
  redis_client w = Some self →
  auth._resolve_user_from_token token w =
    let s0 := _cleanup (now w) self in
    match py_str <$> _kv s0 !! (u8 "session:" ++ token) with
    | Some ((_ :: _) as uid) =>
        let user := default ∅ (_hash self !! (u8 "user:" ++ uid)) in
        (if decide (user = ∅) then Raise (HTTPException 401 (u8 "Unauthorized"))
         else Ok user,
         tick (tick w s0) (_cleanup (later w 1) s0))
    | _ => (Raise (HTTPException 401 (u8 "Unauthorized")), tick w s0)
    end.
Proof.
  intros Hc. unfold auth._resolve_user_from_token.
  step_with require_redis_Some.
  erewrite bind_Ok; [| eapply await_Some; client]; cbv beta.
  cbn [get fst snd]. cbv zeta.
  destruct (py_str <$> _) as [[|c uid]|]; try reflexivity.
  erewrite bind_Ok; [| eapply await_Some; client]; cbv beta.
  rewrite hgetall_fst, cleanup_hash. by destruct (decide _).
Qed.

(** C2. A key written by [setex] with TTL [ttl], whose deadline is the
    sum of the call's second clock reading [t0'] and [ttl], reads as absent
    at every instant from that deadline on, whatever calls were made in
    between (none of them writing that key again) and although nothing
    sweeps the store but the calls themselves. Hence, after a successful
    [login], whose [setex] takes the third and the fourth clock reading,
    resolving the token at an instant no earlier than the fourth reading
    plus the session TTL fails with 401 "Unauthorized". *)
Theorem expired_key_reads_absent :
  (∀ (key : str) (ttl : Z) (value : pyval) (t0 t0' t1 : Z) (self : t)
     (cs : list (call * Z)),
     Forall (fun c => ¬ writes key c.1) cs →
     float_add t0' ttl <= t1 →
     (get key t1 (run_calls cs (setex key ttl value t0 t0' self).2)).1 = None)
  ∧ (∀ (w w1 w2 : world) (self self1 : t) (payload : LoginRequest.t)
       (r : LoginResponse.t) (cs : list (call * Z)),
       redis_client w = Some self →
       auth.login payload w = (Ok r, w1) →
       redis_client w1 = Some self1 →
       Forall (fun c => ¬ writes (u8 "session:" ++ LoginResponse.token r) c.1) cs →
       redis_client w2 = Some (run_calls cs self1) →
       float_add (later w 3) get_session_ttl_seconds <= now w2 →
       fst (auth._resolve_user_from_token (LoginResponse.token r) w2)
       = Raise (HTTPException 401 (u8 "Unauthorized"))).
Proof.
  split.
  - intros key ttl value t0 t0' t1 self cs Hcs Ht.
    apply (get_expires_by (float_add t0' ttl)); [|done].
    apply run_calls_expires_by; [done|]. apply setex_expires_by.
  - intros w w1 w2 self self1 payload r cs Hc Hlogin Hc1 Hcs Hc2 Ht.
    destruct (login_Ok_store _ _ _ _ _ Hc Hlogin) as (s & uid & Hs).
    rewrite Hc1 in Hs. apply (inj Some) in Hs. subst self1.
    rewrite (_resolve_user_from_token_run _ _ _ Hc2). cbv zeta.
    set (key := u8 "session:" ++ LoginResponse.token r) in *.
    assert (Hget : (get key (now w2) (run_calls cs
               (sadd (u8 "user:sessions:" ++ uid) [VStr (LoginResponse.token r)]
                  (later w 4)
                  (setex key get_session_ttl_seconds (VStr uid) (later w 2) (later w 3)
                     s).2).2)).1
            = None).
    { apply (get_expires_by (float_add (later w 3) get_session_ttl_seconds)); [|done].
      apply run_calls_expires_by; [done|].
      apply (run_call_expires_by _ (later w 4) (Sadd _ _)); [by intros []|].
      apply setex_expires_by. }
    unfold get in Hget. cbn [fst] in Hget. by rewrite Hget.
Qed.

End expiry.

(** On the scenario: a key set with a TTL of 60 seconds, its deadline
    counted from instant 10, reads as absent at instant 70, after a read and
    a write of other keys; alice's
    token no longer resolves once the session TTL of seven days has
    elapsed. *)
Lemma expired_key_reads_absent_witness :
  (AsyncMemoryRedis.get (u8 "k") 70
     (run_calls [(Get (u8 "k"), 20); (Incr (u8 "n"), 30)]
        (AsyncMemoryRedis.setex (u8 "k") 60 (VStr (u8 "v")) 9 10
           AsyncMemoryRedis.__init__).2)).1 = None
  ∧ fst (auth._resolve_user_from_token (u8 "r2") (Demo.elapse 604800 Demo.logged_in))
    = Raise (HTTPException 401 (u8 "Unauthorized")).
Proof.
  destruct (expired_key_reads_absent (H := Demo.platform)) as [Hkey Hsession]. split.
  - apply Hkey.
    + apply Forall_cons. split; [intros []|]. apply Forall_cons. split; [|constructor].
      cbn. intros E. vm_compute in E. discriminate.
    + vm_compute. discriminate.
  - apply (Hsession (Demo.exec (auth.register Demo.alice) Demo.registered)
             Demo.logged_in (Demo.elapse 604800 Demo.logged_in)
             (Demo.store (Demo.exec (auth.register Demo.alice) Demo.registered))
             (Demo.store Demo.logged_in) Demo.alice_login
             {| LoginResponse.token := u8 "r2" |} []).
    + vm_compute. reflexivity.
    + vm_compute. reflexivity.
    + vm_compute. reflexivity.
    + constructor.
    + vm_compute. reflexivity.
    + vm_compute. discriminate.
Defined.

(** ** Login *)

Section login.
Context `{Platform}.
Import AsyncMemoryRedis.

(** C5. A login with a username that has no binding and a login with a
    bound username whose stored hash does not verify against the supplied
    password raise the same exception, 401 "Invalid credentials": the two
    responses are equal. *)
Theorem login_failures_indistinguishable
  (w1 w2 : world) (self1 self2 : t) (unknown wrong : LoginRequest.t)
  (v : pyval) (user : gmap str str) :
  let binding1 := u8 "user:byname:" ++ strip (LoginRequest.username unknown) in
  let binding2 := u8 "user:byname:" ++ strip (LoginRequest.username wrong) in
  redis_client w1 = Some self1 →
  _kv self1 !! binding1 = None →
  redis_client w2 = Some self2 →
  _kv self2 !! binding2 = Some v →
  live (now w2) self2 binding2 →
  py_str v ≠ [] →
  _hash self2 !! (u8 "user:" ++ py_str v) = Some user →
  user ≠ ∅ →
  bcrypt_verify (LoginRequest.password wrong) (default [] (user !! u8 "password_hash"))
  = Some false →
  fst (auth.login unknown w1) = Raise (HTTPException 401 (u8 "Invalid credentials"))
  ∧ fst (auth.login wrong w2) = Raise (HTTPException 401 (u8 "Invalid credentials"))
  ∧ fst (auth.login unknown w1) = fst (auth.login wrong w2).
Proof.
  intros binding1 binding2 Hc1 Hb1 Hc2 Hb2 Hl2 Hv Hu Hne Hverify.
  assert (E1 : fst (auth.login unknown w1)
               = Raise (HTTPException 401 (u8 "Invalid credentials"))).
  { unfold auth.login. step_with require_redis_Some.
    unfold bind at 1. rewrite (_get_user_by_username_run _ _ _ Hc1). cbv zeta.
    fold binding1. by rewrite (cleanup_kv_None _ _ _ Hb1). }
  assert (E2 : fst (auth.login wrong w2)
               = Raise (HTTPException 401 (u8 "Invalid credentials"))).
  { unfold auth.login. step_with require_redis_Some.
    unfold bind at 1. rewrite (_get_user_by_username_run _ _ _ Hc2). cbv zeta.
    fold binding2. rewrite (cleanup_kv_live _ _ _ Hl2), Hb2.
    cbn [fmap option_fmap option_map].
    destruct (py_str v) as [|c uid] eqn:Ev; [done|].
    rewrite Hu. cbn [from_option id]. rewrite decide_False by done.
    cbv beta iota. by rewrite Hverify. }
  by rewrite E1, E2.
Qed.

End login.

(** On the scenario: mallory, who never registered, and alice with a wrong
    password get the same response. *)
Lemma login_failures_indistinguishable_witness :
  fst (auth.login Demo.stranger Demo.logged_in)
  = fst (auth.login Demo.wrong_password Demo.logged_in).
Proof.
  apply (login_failures_indistinguishable Demo.logged_in Demo.logged_in
           (Demo.store Demo.logged_in) (Demo.store Demo.logged_in)
           Demo.stranger Demo.wrong_password (VInt 1)
           (default ∅ (AsyncMemoryRedis._hash (Demo.store Demo.logged_in) !! u8 "user:1"))).
  - vm_compute. reflexivity.
  - vm_compute. reflexivity.
  - vm_compute. reflexivity.
  - vm_compute. reflexivity.
  - vm_compute. exact I.
  - intros E. vm_compute in E. discriminate.
  - change (u8 "user:" ++ py_str (VInt 1)) with (u8 "user:1").
    assert (is_Some (AsyncMemoryRedis._hash (Demo.store Demo.logged_in) !! u8 "user:1")) as [u ->];
      [|reflexivity].
    apply (bool_decide_unpack _). vm_compute. exact I.
  - intros E. apply (f_equal (fun m => m !! u8 "id")) in E. vm_compute in E. discriminate.
  - vm_compute. reflexivity.
Defined.

(** ** Forum: identity and ownership *)

(** Decide a closed decidable proposition by evaluation. *)
Ltac by_compute := apply (bool_decide_unpack _); vm_compute; exact I.

Lemma demo_store_Some (w : world) :
  is_Some (redis_client w) → redis_client w = Some (Demo.store w).
Proof. intros [s Hs]. unfold Demo.store. by rewrite Hs. Qed.

Lemma demo_record (m : gmap str (gmap str str)) (k : str) :
  is_Some (m !! k) → m !! k = Some (default ∅ (m !! k)).
Proof. by intros [d ->]. Qed.

Section forum_auth.
Context `{Platform}.
Import AsyncMemoryRedis.

Lemma _get_user_by_token_run (w : world) (self : t) (token : str) :
  redis_client w = Some self →
  forum._get_user_by_token token w =
    let s0 := _cleanup (now w) self in
    match py_str <$> _kv s0 !! (u8 "session:" ++ token) with
    | Some ((_ :: _) as uid) =>
        let user := default ∅ (_hash self !! (u8 "user:" ++ uid)) in
        ((if decide (user = ∅) then Raise (HTTPException 401 (u8 "Unauthorized"))
          else match user !! u8 "id", user !! u8 "username" with
               | Some id, Some username =>
                   Ok {| UserPublic.id := id; UserPublic.username := username |}
               | _, _ => Raise KeyError
               end),
         tick (tick w s0) (_cleanup (later w 1) s0))
    | _ => (Raise (HTTPException 401 (u8 "Unauthorized")), tick w s0)
    end.
Proof.
  intros Hc. unfold forum._get_user_by_token.
  step_with require_redis_Some.
  erewrite bind_Ok; [| eapply await_Some; client]; cbv beta.
  cbn [get fst snd]. cbv zeta.
  destruct (py_str <$> _) as [[|c uid]|]; try reflexivity.
  erewrite bind_Ok; [| eapply await_Some; client]; cbv beta.
  rewrite hgetall_fst, cleanup_hash. destruct (decide _); [reflexivity|].
  unfold getitem, bind, ret, raise.
  destruct (_ !! u8 "id"); [|reflexivity]. by destruct (_ !! u8 "username").
Qed.

(** An authenticated caller is resolved to its identity; the store is only
    swept. *)
Lemma _get_user_by_token_Ok (w : world) (self : t) (token : str) (n : nat)
  (u : UserPublic.t) :
  redis_client w = Some self →
  authenticated w self token (S n) u →
  forum._get_user_by_token token w
  = (Ok u, tick (tick w (_cleanup (now w) self))
             (_cleanup (later w 1) (_cleanup (now w) self))).
Proof.
  intros Hc (v & user & Hv & Hl & Hne & Hu & Hid & Hname).
  rewrite (_get_user_by_token_run _ _ _ Hc). cbv zeta.
  rewrite cleanup_kv_live by (apply (live_during_le _ _ _ _ 0 Hl); lia).
  rewrite Hv. cbn [fmap option_fmap option_map].
  destruct (py_str v) as [|c uid] eqn:Ev; [done|].
  rewrite Hu. cbn [from_option id]. rewrite decide_False.
  - rewrite Hid, Hname. by destruct u.
  - intros ->. by rewrite lookup_empty in Hid.
Qed.

(** After a store call that only swept or read, the caller is still
    authenticated, for one reading less. *)
Lemma authenticated_tick (w : world) (self : t) (token : str) (n : nat)
  (u : UserPublic.t) (s' : t) :
  authenticated w self token (S n) u →
  _kv s' !! (u8 "session:" ++ token) = _kv (_cleanup (now w) self) !! (u8 "session:" ++ token) →
  _ttl s' !! (u8 "session:" ++ token) = _ttl (_cleanup (now w) self) !! (u8 "session:" ++ token) →
  _hash s' = _hash self →
  authenticated (tick w s') s' token n u.
Proof.
  intros (v & user & Hv & Hl & Hne & Hu & Hid & Hname) Hkv Httl Hh.
  pose proof (live_during_le _ _ _ _ 0 Hl ltac:(lia)) as Hl0.
  exists v, user. rewrite Hkv, Hh, cleanup_kv_live by done. repeat split; try done.
  clear -Hl Httl Hl0. induction n as [|n IH]; [done|]. split.
  - rewrite later_tick. unfold live. rewrite Httl, cleanup_ttl_live by done.
    apply (live_during_le _ _ _ _ (S n) Hl). lia.
  - apply IH. destruct Hl as [_ Hl]. exact Hl.
Qed.

(** C3. For a post that exists and is not soft-deleted, and a caller whose
    token resolves to an identity whose id is not the post's stored
    [author_id], [update_post] and [delete_post] both fail with 403
    "Forbidden" and leave every hash of the store, the post record
    included, as it was. The identity is arbitrary. *)
Theorem non_owner_forbidden (w : world) (self : t) (post_id token : str)
  (payload : PostUpdate.t) (data : gmap str str) (u : UserPublic.t) :
  redis_client w = Some self →
  _hash self !! (u8 "forum:post:" ++ post_id) = Some data →
  forum.visible data = true →
  authenticated w self token 2 u →
  data !! u8 "author_id" ≠ Some (UserPublic.id u) →
  (fst (forum.update_post post_id payload token w)
   = Raise (HTTPException 403 (u8 "Forbidden"))
   ∧ ∃ self', redis_client (snd (forum.update_post post_id payload token w)) = Some self'
       ∧ _hash self' = _hash self)
  ∧ (fst (forum.delete_post post_id token w)
     = Raise (HTTPException 403 (u8 "Forbidden"))
     ∧ ∃ self', redis_client (snd (forum.delete_post post_id token w)) = Some self'
         ∧ _hash self' = _hash self).
Proof.
  intros Hc Hdata Hvis Hauth Hother.
  assert (Hauth1 : authenticated (tick w (_cleanup (now w) self)) (_cleanup (now w) self)
                     token 1 u).
  { apply (authenticated_tick w self); [done|done|done|apply cleanup_hash]. }
  split.
  - unfold forum.update_post. step_with require_redis_Some.
    erewrite bind_Ok; [| eapply await_Some; client]; cbv beta.
    rewrite hgetall_fst, Hdata. cbn [from_option id]. rewrite Hvis. cbn [negb].
    erewrite bind_Ok; [| eapply _get_user_by_token_Ok]. 2: reflexivity. 2: exact Hauth1. cbv beta.
    rewrite bool_decide_eq_true_2 by done. cbn [raise fst snd redis_client tick].
    split; [done|]. eexists. split; [reflexivity|].
    unfold hgetall. cbn [snd]. by rewrite !cleanup_hash.
  - unfold forum.delete_post. step_with require_redis_Some.
    erewrite bind_Ok; [| eapply await_Some; client]; cbv beta.
    rewrite hgetall_fst, Hdata. cbn [from_option id]. rewrite Hvis. cbn [negb].
    erewrite bind_Ok; [| eapply _get_user_by_token_Ok]. 2: reflexivity. 2: exact Hauth1. cbv beta.
    rewrite bool_decide_eq_true_2 by done. cbn [raise fst snd redis_client tick].
    split; [done|]. eexists. split; [reflexivity|].
    unfold hgetall. cbn [snd]. by rewrite !cleanup_hash.
Qed.
End forum_auth.

(** On the forum scenario: bob may not update alice's post and carol may
    not delete it. *)
Lemma non_owner_forbidden_witness :
  fst (forum.update_post (u8 "1")
         {| PostUpdate.title := Some (u8 "mine"); PostUpdate.content := None |}
         (u8 "r4") Demo.forum_world)
  = Raise (HTTPException 403 (u8 "Forbidden"))
  ∧ fst (forum.delete_post (u8 "1") (u8 "r5") Demo.forum_world)
    = Raise (HTTPException 403 (u8 "Forbidden")).
Proof.
  split.
  - refine (proj1 (proj1 (non_owner_forbidden Demo.forum_world (Demo.store Demo.forum_world)
             (u8 "1") (u8 "r4") _
             (default ∅ (AsyncMemoryRedis._hash (Demo.store Demo.forum_world)
                           !! (u8 "forum:post:" ++ u8 "1")))
             {| UserPublic.id := u8 "2"; UserPublic.username := u8 "bob" |} _ _ _ _ _))).
    + apply demo_store_Some. by_compute.
    + apply demo_record. by_compute.
    + vm_compute. reflexivity.
    + exists (VStr (u8 "2")),
        (default ∅ (AsyncMemoryRedis._hash (Demo.store Demo.forum_world) !! u8 "user:2")).
      split; [by_compute|]. split; [vm_compute; repeat split|].
      split; [intros E; vm_compute in E; discriminate|].
      split; [apply demo_record; by_compute|]. split; by_compute.
    + by_compute.
  - refine (proj1 (proj2 (non_owner_forbidden Demo.forum_world (Demo.store Demo.forum_world)
             (u8 "1") (u8 "r5") {| PostUpdate.title := None; PostUpdate.content := None |}
             (default ∅ (AsyncMemoryRedis._hash (Demo.store Demo.forum_world)
                           !! (u8 "forum:post:" ++ u8 "1")))
             {| UserPublic.id := u8 "3"; UserPublic.username := u8 "carol" |} _ _ _ _ _))).
    + apply demo_store_Some. by_compute.
    + apply demo_record. by_compute.
    + vm_compute. reflexivity.
    + exists (VStr (u8 "3")),
        (default ∅ (AsyncMemoryRedis._hash (Demo.store Demo.forum_world) !! u8 "user:3")).
      split; [by_compute|]. split; [vm_compute; repeat split|].
      split; [intros E; vm_compute in E; discriminate|].
      split; [apply demo_record; by_compute|]. split; by_compute.
    + by_compute.
Defined.

(** ** Forum: the like toggle *)

Section likes.
Context `{Platform}.
Import AsyncMemoryRedis.

Lemma flip_flip (member : pyval) (s : gset pyval) : flip member (flip member s) = s.
Proof.
  unfold flip. destruct (bool_decide (member ∈ s)) eqn:E.
  - apply bool_decide_eq_true in E. rewrite bool_decide_eq_false_2.
    + apply set_eq. intros x. rewrite elem_of_union, elem_of_difference, elem_of_singleton.
      destruct (decide (x = member)) as [->|Hne]; tauto.
    + rewrite elem_of_difference, elem_of_singleton. tauto.
  - apply bool_decide_eq_false in E. rewrite bool_decide_eq_true_2.
    + apply set_eq. intros x. rewrite elem_of_difference, elem_of_union, elem_of_singleton.
      destruct (decide (x = member)) as [->|Hne]; tauto.
    + rewrite elem_of_union, elem_of_singleton. tauto.
Qed.

Lemma flip_member (member : pyval) (s : gset pyval) :
  bool_decide (member ∈ flip member s) = negb (bool_decide (member ∈ s)).
Proof.
  unfold flip. destruct (bool_decide (member ∈ s)) eqn:E; cbn [negb].
  - apply bool_decide_eq_false_2. rewrite elem_of_difference, elem_of_singleton. tauto.
  - apply bool_decide_eq_true_2. rewrite elem_of_union, elem_of_singleton. tauto.
Qed.

Lemma toggle_like_Ok (w : world) (self : t) (post_id token : str) (n : nat)
  (u : UserPublic.t) :
  redis_client w = Some self →
  authenticated w self token (S n) u →
  let member := VStr (UserPublic.id u) in
  ∃ w' self',
    forum.toggle_like post_id token w
    = (Ok {| LikeResponse.liked := negb (bool_decide (member ∈ likes_of self post_id));
             LikeResponse.likes := Z.of_nat (size (flip member (likes_of self post_id))) |},
       w')
    ∧ redis_client w' = Some self'
    ∧ likes_of self' post_id = flip member (likes_of self post_id)
    ∧ ∀ token' k u', authenticated w self token' (5 + k) u' →
                     authenticated w' self' token' k u'.
Proof.
  intros Hc Hauth member.
  unfold forum.toggle_like. step_with require_redis_Some.
  erewrite bind_Ok; [| eapply _get_user_by_token_Ok]. 2: exact Hc. 2: exact Hauth. cbv beta zeta.
  set (key := u8 "forum:post:" ++ post_id ++ u8 ":likes").
  set (s0 := _cleanup (now w) self).
  set (s1 := _cleanup (later w 1) s0).
  erewrite bind_Ok; [| eapply await_Some; client]; cbv beta.
  fold member.
  change (now (tick (tick w s0) s1)) with (later w 2).
  set (s2 := _cleanup (later w 2) s1).
  assert (Hlikes : default ∅ (_sets s2 !! key) = likes_of self post_id).
  { unfold s2, s1, s0. by rewrite !cleanup_sets. }
  assert (Hmem : (sismember key member (later w 2) s1).1
                 = bool_decide (member ∈ likes_of self post_id)).
  { unfold sismember. cbn [fst]. fold s2. by rewrite Hlikes. }
  change (sismember key member (later w 2) s1).2 with s2.
  rewrite Hmem.
  set (s3 := {| _kv := _kv (_cleanup (later w 3) s2);
                _hash := _hash (_cleanup (later w 3) s2);
                _sets := <[key := flip member (likes_of self post_id)]>
                           (_sets (_cleanup (later w 3) s2));
                _ttl := _ttl (_cleanup (later w 3) s2) |}).
  set (s4 := _cleanup (later w 4) s3).
  exists (tick (tick (tick (tick (tick w s0) s1) s2) s3) s4), s4.
  assert (Hsets3 : default ∅ (_sets (_cleanup (later w 3) s2) !! key)
                   = likes_of self post_id).
  { by rewrite cleanup_sets. }
  split; [|split; [reflexivity|split]].
  - unfold flip in s3. unfold flip.
    destruct (bool_decide (member ∈ likes_of self post_id)) eqn:E; cbn [negb].
    + erewrite bind_Ok; [| erewrite bind_Ok; [reflexivity | eapply await_Some; client]].
      cbv beta. erewrite bind_Ok; [| eapply await_Some; client]; cbv beta.
      unfold srem, scard, ret. cbn [fst snd fold_left _sets].
      change (now (tick (tick (tick w s0) s1) s2)) with (later w 3).
      rewrite Hsets3. fold s3. f_equal.
      * f_equal. unfold s4. rewrite cleanup_sets. unfold s3. cbn [_sets].
        by rewrite lookup_insert_eq.
    + erewrite bind_Ok; [| erewrite bind_Ok; [reflexivity | eapply await_Some; client]].
      cbv beta. erewrite bind_Ok; [| eapply await_Some; client]; cbv beta.
      unfold sadd, scard, ret. cbn [fst snd fold_left _sets].
      change (now (tick (tick (tick w s0) s1) s2)) with (later w 3).
      rewrite Hsets3. fold s3. f_equal.
      * f_equal. unfold s4. rewrite cleanup_sets. unfold s3. cbn [_sets].
        by rewrite lookup_insert_eq.
  - unfold likes_of at 1. fold key. unfold s4. rewrite cleanup_sets. unfold s3.
    cbn [_sets]. by rewrite lookup_insert_eq.
  - intros token' k u' Ha.
    apply (authenticated_tick _ s3); [|done|done|apply cleanup_hash].
    apply (authenticated_tick _ s2); [|done|done|apply cleanup_hash].
    apply (authenticated_tick _ s1); [|done|done|apply cleanup_hash].
    apply (authenticated_tick _ s0); [|done|done|apply cleanup_hash].
    apply (authenticated_tick _ self); [|done|done|apply cleanup_hash].
    exact Ha.
Qed.

(** C7. For every post id and every authenticated user: the first toggle
    reports the flipped membership, the second reports the membership and
    the cardinality the likes set had before the first, and the likes set
    is then what it was. The two calls may carry different tokens of the
    same user. *)
Theorem toggle_like_twice (w : world) (self : t) (post_id token token' : str)
  (u u' : UserPublic.t) :
  redis_client w = Some self →
  authenticated w self token 1 u →
  authenticated w self token' 6 u' →
  UserPublic.id u' = UserPublic.id u →
  let member := VStr (UserPublic.id u) in
  let likes0 := likes_of self post_id in
  ∃ r1 w1 r2 w2 self2,
    forum.toggle_like post_id token w = (Ok r1, w1)
    ∧ forum.toggle_like post_id token' w1 = (Ok r2, w2)
    ∧ LikeResponse.liked r1 = negb (bool_decide (member ∈ likes0))
    ∧ LikeResponse.liked r2 = bool_decide (member ∈ likes0)
    ∧ LikeResponse.likes r2 = Z.of_nat (size likes0)
    ∧ redis_client w2 = Some self2
    ∧ likes_of self2 post_id = likes0.
Proof.
  intros Hc Ha Ha' Hid member likes0.
  destruct (toggle_like_Ok w self post_id token 0 u Hc Ha) as (w1 & self1 & E1 & Hc1 & Hl1 & Hk).
  specialize (Hk token' 1%nat u' Ha').
  destruct (toggle_like_Ok w1 self1 post_id token' 0 u' Hc1 Hk)
    as (w2 & self2 & E2 & Hc2 & Hl2 & _).
  rewrite Hid in E2, Hl2. fold member in E1, E2, Hl1, Hl2. fold likes0 in E1, Hl1.
  rewrite Hl1 in E2, Hl2. rewrite flip_flip in E2, Hl2. rewrite flip_member in E2.
  rewrite negb_involutive in E2.
  eexists _, w1, _, w2, self2. repeat split; [exact E1|exact E2|..]; try done.
Qed.

End likes.

Ltac demo_authenticated w v :=
  exists v, (default ∅ (AsyncMemoryRedis._hash (Demo.store w) !! (u8 "user:" ++ py_str v)));
  split; [by_compute|]; split; [vm_compute; repeat split|];
  split; [intros E; vm_compute in E; discriminate|];
  split; [apply demo_record; by_compute|]; split; by_compute.

(** On the forum scenario: alice likes her post, then likes it again; the
    second response is [{liked: false, likes: 0}] and the set is empty
    again. *)
Lemma toggle_like_twice_witness :
  ∃ r1 w1 r2 w2 self2,
    forum.toggle_like (u8 "1") (u8 "r3") Demo.forum_world = (Ok r1, w1)
    ∧ forum.toggle_like (u8 "1") (u8 "r3") w1 = (Ok r2, w2)
    ∧ LikeResponse.liked r1 = true
    ∧ LikeResponse.liked r2 = false
    ∧ LikeResponse.likes r2 = 0
    ∧ redis_client w2 = Some self2
    ∧ likes_of self2 (u8 "1") = ∅.
Proof.
  pose (alice := {| UserPublic.id := u8 "1"; UserPublic.username := u8 "alice" |}).
  destruct (toggle_like_twice Demo.forum_world (Demo.store Demo.forum_world)
              (u8 "1") (u8 "r3") (u8 "r3") alice alice)
    as (r1 & w1 & r2 & w2 & self2 & E1 & E2 & L1 & L2 & N2 & Hc2 & Hl2).
  - apply demo_store_Some. by_compute.
  - demo_authenticated Demo.forum_world (VStr (u8 "1")).
  - demo_authenticated Demo.forum_world (VStr (u8 "1")).
  - reflexivity.
  - exists r1, w1, r2, w2, self2.
    split; [exact E1|]. split; [exact E2|].
    split; [rewrite L1; by vm_compute|]. split; [rewrite L2; by vm_compute|].
    split; [rewrite N2; by vm_compute|]. split; [exact Hc2|].
    rewrite Hl2. by vm_compute.
Defined.

(** ** Forum: soft-deleted records *)

Lemma Ok_pair_inv {A} (a b : A) (w w' : world) :
  (Ok a, w) = (Ok b, w') → a = b ∧ w = w'.
Proof.
  intros E. split.
  - pose proof (f_equal fst E) as E1. cbn in E1. by injection E1.
  - exact (f_equal snd E).
Qed.

Lemma bind_Ok_inv {A B} (c : M A) (k : A -> M B) (w w' : world) (b : B) :
  bind c k w = (Ok b, w') → ∃ a w1, c w = (Ok a, w1) ∧ k a w1 = (Ok b, w').
Proof.
  unfold bind. destruct (c w) as [[a|e] w1]; [|discriminate]. eauto.
Qed.

Lemma ret_inv {A} (a b : A) (w w' : world) : ret a w = (Ok b, w') → a = b ∧ w = w'.
Proof. apply Ok_pair_inv. Qed.

Section reads.
Context `{Platform}.
Import AsyncMemoryRedis.

Lemma hashes_tick (w : world) (self : t) : hashes (tick w self) = _hash self.
Proof. reflexivity. Qed.

Lemma hashes_Some (w : world) (self : t) : redis_client w = Some self → hashes w = _hash self.
Proof. unfold hashes. by intros ->. Qed.

(** A call that leaves the hashes alone. *)
Lemma await_Ok_inv {A} (method : Z → t → A * t) (w w' : world) (a : A) :
  (∀ now self, _hash (method now self).2 = _hash self) →
  await method w = (Ok a, w') →
  ∃ self, redis_client w = Some self
          ∧ a = (method (now w) self).1
          ∧ is_Some (redis_client w') ∧ hashes w' = hashes w.
Proof.
  intros Hm. destruct (redis_client w) as [self|] eqn:Hc.
  - rewrite (await_Some _ _ _ Hc). intros [<- <-]%Ok_pair_inv. exists self.
    rewrite hashes_tick, (hashes_Some _ _ Hc), Hm. eauto.
  - unfold await. rewrite Hc. discriminate.
Qed.

Lemma int_or_0_inv (x : option str) (w w' : world) (n : Z) :
  int_or_0 x w = (Ok n, w') → w' = w.
Proof.
  unfold int_or_0. destruct x as [[|c s]|]; unfold ret, raise; try congruence.
  destruct (int_of_str (c :: s)); congruence.
Qed.

Lemma _now_iso_inv (w w' : world) (s : str) :
  is_Some (redis_client w) → _now_iso w = (Ok s, w') →
  is_Some (redis_client w') ∧ hashes w' = hashes w.
Proof.
  intros [self Hc]. rewrite (_now_iso_Some _ _ Hc). intros [_ <-]%Ok_pair_inv.
  rewrite hashes_tick, (hashes_Some _ _ Hc). eauto.
Qed.

Lemma post_public_inv (id : str) (data : gmap str str) (likes comments : Z)
  (w w' : world) (p : PostPublic.t) :
  is_Some (redis_client w) →
  forum.post_public id data likes comments w = (Ok p, w') →
  PostPublic.id p = id ∧ is_Some (redis_client w') ∧ hashes w' = hashes w.
Proof.
  intros Hc. unfold forum.post_public.
  intros (now_iso & w1 & E1 & [<- <-]%ret_inv)%bind_Ok_inv.
  split; [done|]. by eapply _now_iso_inv.
Qed.

Lemma scard_hash (key : str) (now : Z) (self : t) : _hash (scard key now self).2 = _hash self.
Proof. apply cleanup_hash. Qed.
Lemma get_hash (key : str) (now : Z) (self : t) : _hash (get key now self).2 = _hash self.
Proof. apply cleanup_hash. Qed.
Lemma hgetall_hash (key : str) (now : Z) (self : t) : _hash (hgetall key now self).2 = _hash self.
Proof. apply cleanup_hash. Qed.

Lemma list_posts_step_visible (offset i count idx : Z) (items items' : list PostPublic.t)
  (count' : Z) (w w' : world) :
  is_Some (redis_client w) →
  forum.list_posts_step offset i count idx items w = (Ok (items', count'), w') →
  is_Some (redis_client w') ∧ hashes w' = hashes w
  ∧ ∀ p, p ∈ items' →
      p ∈ items
      ∨ forum.visible (default ∅ (hashes w !! (u8 "forum:post:" ++ PostPublic.id p))) = true.
Proof.
  intros Hc. unfold forum.list_posts_step. cbv zeta.
  destruct (offset <=? idx).
  2:{ intros [[= <- <-] <-]%ret_inv. eauto. }
  intros (data & w1 & E1 & E2)%bind_Ok_inv.
  apply await_Ok_inv in E1 as (self & Hself & -> & Hc1 & Hh1); [|apply hgetall_hash].
  rewrite hgetall_fst, <- (hashes_Some _ _ Hself) in E2.
  destruct (forum.visible _) eqn:Hvis.
  2:{ apply ret_inv in E2 as [[= <- <-] <-]. eauto. }
  apply bind_Ok_inv in E2 as (likes & w2 & E2 & E3).
  apply await_Ok_inv in E2 as (self2 & _ & _ & Hc2 & Hh2); [|apply scard_hash].
  apply bind_Ok_inv in E3 as (cnt & w3 & E3 & E4).
  apply await_Ok_inv in E3 as (self3 & _ & _ & Hc3 & Hh3); [|apply get_hash].
  apply bind_Ok_inv in E4 as (comments & w4 & E4 & E5).
  apply int_or_0_inv in E4 as ->.
  apply bind_Ok_inv in E5 as (p & w5 & E5 & E6).
  apply post_public_inv in E5 as (Hid & Hc5 & Hh5); [|done].
  apply ret_inv in E6 as [[= <- <-] <-].
  split; [done|]. split; [congruence|].
  intros q [Hq|Hq%list_elem_of_singleton]%elem_of_app; [by left|right].
  subst q. by rewrite Hid.
Qed.

Lemma list_posts_loop_visible (offset limit : Z) (i : nat) :
  ∀ (count idx : Z) (items items' : list PostPublic.t) (w w' : world),
    is_Some (redis_client w) →
    forum.list_posts_loop offset limit i count idx items w = (Ok items', w') →
    ∀ p, p ∈ items' →
      p ∈ items
      ∨ forum.visible (default ∅ (hashes w !! (u8 "forum:post:" ++ PostPublic.id p))) = true.
Proof.
  induction i as [|i IH]; intros count idx items items' w w' Hc; cbn [forum.list_posts_loop].
  - intros [<- _]%ret_inv. eauto.
  - destruct (negb (count <? limit)); [intros [<- _]%ret_inv; eauto|].
    intros ([items1 count1] & w1 & E1 & E2)%bind_Ok_inv.
    apply list_posts_step_visible in E1 as (Hc1 & Hh1 & Hstep); [|done].
    intros p Hp. destruct (IH _ _ _ _ _ _ Hc1 E2 p Hp) as [Hin|Hvis].
    + apply Hstep, Hin.
    + right. by rewrite <- Hh1.
Qed.

Lemma list_posts_visible (offset limit : Z) (w : world) (self : t)
  (items : list PostPublic.t) :
  redis_client w = Some self →
  fst (forum.list_posts offset limit w) = Ok items →
  ∀ p, p ∈ items →
    forum.visible (default ∅ (_hash self !! (u8 "forum:post:" ++ PostPublic.id p))) = true.
Proof.
  intros Hc E. destruct (forum.list_posts offset limit w) as [r w'] eqn:Er.
  cbn [fst] in E. subst r. unfold forum.list_posts in Er.
  rewrite (bind_Ok _ _ _ _ _ (require_redis_Some _ _ Hc)) in Er.
  apply bind_Ok_inv in Er as (seq & w1 & E1 & E2).
  apply await_Ok_inv in E1 as (self1 & _ & _ & Hc1 & Hh1); [|apply get_hash].
  apply bind_Ok_inv in E2 as (max_id & w2 & E2 & E3).
  apply int_or_0_inv in E2 as ->.
  intros p Hp. destruct (list_posts_loop_visible _ _ _ _ _ _ _ _ _ Hc1 E3 p Hp) as [Hin|Hvis].
  - by apply elem_of_nil in Hin.
  - by rewrite Hh1, (hashes_Some _ _ Hc) in Hvis.
Qed.

Lemma list_comments_step_visible (post_id : str) (i : Z)
  (items items' : list CommentPublic.t) (w w' : world) :
  is_Some (redis_client w) →
  forum.list_comments_step post_id items i w = (Ok items', w') →
  is_Some (redis_client w') ∧ hashes w' = hashes w
  ∧ ∀ c, c ∈ items' →
      c ∈ items
      ∨ forum.visible
          (default ∅ (hashes w !! (u8 "forum:comment:" ++ post_id ++ u8 ":"
                                   ++ CommentPublic.id c))) = true.
Proof.
  intros Hc. unfold forum.list_comments_step.
  intros (data & w1 & E1 & E2)%bind_Ok_inv.
  apply await_Ok_inv in E1 as (self & Hself & -> & Hc1 & Hh1); [|apply hgetall_hash].
  rewrite hgetall_fst, <- (hashes_Some _ _ Hself) in E2.
  destruct (forum.visible _) eqn:Hvis.
  2:{ apply ret_inv in E2 as [<- <-]. eauto. }
  apply bind_Ok_inv in E2 as (now_iso & w2 & E2 & E3).
  apply _now_iso_inv in E2 as [Hc2 Hh2]; [|done].
  apply ret_inv in E3 as [<- <-].
  split; [done|]. split; [congruence|].
  intros q [Hq|Hq%list_elem_of_singleton]%elem_of_app; [by left|right].
  by subst q.
Qed.

Lemma list_comments_loop_visible (post_id : str) (ids : list Z) :
  ∀ (items items' : list CommentPublic.t) (w w' : world),
    is_Some (redis_client w) →
    for_each (forum.list_comments_step post_id) ids items w = (Ok items', w') →
    ∀ c, c ∈ items' →
      c ∈ items
      ∨ forum.visible
          (default ∅ (hashes w !! (u8 "forum:comment:" ++ post_id ++ u8 ":"
                                   ++ CommentPublic.id c))) = true.
Proof.
  induction ids as [|i ids IH]; intros items items' w w' Hc; cbn [for_each].
  - intros [<- _]%ret_inv. eauto.
  - intros (items1 & w1 & E1 & E2)%bind_Ok_inv.
    apply list_comments_step_visible in E1 as (Hc1 & Hh1 & Hstep); [|done].
    intros c Hin. destruct (IH _ _ _ _ Hc1 E2 c Hin) as [Hin1|Hvis].
    + apply Hstep, Hin1.
    + right. by rewrite <- Hh1.
Qed.

Lemma list_comments_visible (post_id : str) (w : world) (self : t)
  (items : list CommentPublic.t) :
  redis_client w = Some self →
  fst (forum.list_comments post_id w) = Ok items →
  ∀ c, c ∈ items →
    forum.visible
      (default ∅ (_hash self !! (u8 "forum:comment:" ++ post_id ++ u8 ":"
                                 ++ CommentPublic.id c))) = true.
Proof.
  intros Hc E. destruct (forum.list_comments post_id w) as [r w'] eqn:Er.
  cbn [fst] in E. subst r. unfold forum.list_comments in Er.
  rewrite (bind_Ok _ _ _ _ _ (require_redis_Some _ _ Hc)) in Er.
  apply bind_Ok_inv in Er as (seq & w1 & E1 & E2).
  apply await_Ok_inv in E1 as (self1 & _ & _ & Hc1 & Hh1); [|apply get_hash].
  apply bind_Ok_inv in E2 as (cnt & w2 & E2 & E3).
  apply int_or_0_inv in E2 as ->.
  intros c Hin. destruct (list_comments_loop_visible _ _ _ _ _ _ Hc1 E3 c Hin) as [Hn|Hvis].
  - by apply elem_of_nil in Hn.
  - by rewrite Hh1, (hashes_Some _ _ Hc) in Hvis.
Qed.

Lemma deleted_not_visible (data : gmap str str) :
  data !! u8 "deleted" = Some (u8 "1") → forum.visible data = false.
Proof.
  intros Hd. unfold forum.visible. rewrite (bool_decide_eq_false_2 (_ ≠ Some _)).
  - apply andb_false_r.
  - intros Hne. by apply Hne.
Qed.

(** C4. A post or comment whose record carries [deleted == "1"] is in no
    successful listing; [get_post], [update_post] and [delete_post] on such
    a post fail with 404 "Post not found" whatever the token, and
    [delete_comment] on such a comment, by a caller who is authenticated,
    fails with 404 "Comment not found". *)
Theorem soft_deleted_invisible (w : world) (self : t) (data : gmap str str) :
  redis_client w = Some self →
  data !! u8 "deleted" = Some (u8 "1") →
  (∀ post_id,
     _hash self !! (u8 "forum:post:" ++ post_id) = Some data →
     (∀ offset limit items,
        fst (forum.list_posts offset limit w) = Ok items →
        post_id ∉ PostPublic.id <$> items)
     ∧ fst (forum.get_post post_id w) = Raise (HTTPException 404 (u8 "Post not found"))
     ∧ (∀ payload token,
          fst (forum.update_post post_id payload token w)
          = Raise (HTTPException 404 (u8 "Post not found")))
     ∧ (∀ token,
          fst (forum.delete_post post_id token w)
          = Raise (HTTPException 404 (u8 "Post not found"))))
  ∧ (∀ post_id comment_id,
       _hash self !! (u8 "forum:comment:" ++ post_id ++ u8 ":" ++ comment_id) = Some data →
       (∀ items,
          fst (forum.list_comments post_id w) = Ok items →
          comment_id ∉ CommentPublic.id <$> items)
       ∧ (∀ token u,
            authenticated w self token 1 u →
            fst (forum.delete_comment comment_id post_id token w)
            = Raise (HTTPException 404 (u8 "Comment not found")))).
Proof.
  intros Hc Hdel. pose proof (deleted_not_visible _ Hdel) as Hinv. split.
  - intros post_id Hdata. split; [|split; [|split]].
    + intros offset limit items E (p & -> & Hp)%list_elem_of_fmap.
      pose proof (list_posts_visible _ _ _ _ _ Hc E p Hp) as Hvis.
      rewrite Hdata in Hvis. cbn [from_option id] in Hvis. congruence.
    + unfold forum.get_post. step_with require_redis_Some.
      erewrite bind_Ok; [| eapply await_Some; client]; cbv beta.
      by rewrite hgetall_fst, Hdata; cbn [from_option id]; rewrite Hinv.
    + intros payload token. unfold forum.update_post. step_with require_redis_Some.
      erewrite bind_Ok; [| eapply await_Some; client]; cbv beta.
      by rewrite hgetall_fst, Hdata; cbn [from_option id]; rewrite Hinv.
    + intros token. unfold forum.delete_post. step_with require_redis_Some.
      erewrite bind_Ok; [| eapply await_Some; client]; cbv beta.
      by rewrite hgetall_fst, Hdata; cbn [from_option id]; rewrite Hinv.
  - intros post_id comment_id Hdata. split.
    + intros items E (c & -> & Hin)%list_elem_of_fmap.
      pose proof (list_comments_visible _ _ _ _ Hc E c Hin) as Hvis.
      rewrite Hdata in Hvis. cbn [from_option id] in Hvis. congruence.
    + intros token u Hauth. unfold forum.delete_comment. step_with require_redis_Some.
      erewrite bind_Ok; [| eapply _get_user_by_token_Ok]. 2: exact Hc. 2: exact Hauth.
      cbv beta.
      erewrite bind_Ok; [| eapply await_Some; client]; cbv beta.
      rewrite hgetall_fst, !cleanup_hash, Hdata. cbn [from_option id]. by rewrite Hinv.
Qed.
End reads.

(** *** The listings return *)

Lemma str_of_Z_nonempty (n : Z) : str_of_Z n ≠ [].
Proof.
  destruct n as [|p|p]; cbn; try discriminate.
  destruct (uint_digits_head p) as (c & r & -> & _). discriminate.
Qed.

Section totality.
Context `{PlatformSpec}.
Import AsyncMemoryRedis.

Lemma cleanup_forum_counters (now : Z) (self : t) :
  forum_counters self → forum_counters (_cleanup now self).
Proof.
  intros Hf k v Hk. apply Hf. unfold _cleanup in Hk. rewrite pops_kv in Hk.
  by destruct (decide _).
Qed.

(** Parsing what [get] returns for a forum counter cannot fail. *)
Lemma int_or_0_counter (key : str) (now : Z) (self : t) :
  forum_counters self →
  startswith (u8 "forum:post") key = true →
  ∃ n, ∀ w, int_or_0 (get key now self).1 w = (Ok n, w).
Proof.
  intros Hf Hk. cbn [get fst snd].
  destruct (_kv (_cleanup now self) !! key) as [v|] eqn:E;
    cbn [fmap option_fmap option_map].
  - destruct (cleanup_forum_counters now _ Hf _ _ E Hk) as [n ->]. cbn [py_str].
    unfold int_or_0. pose proof (str_of_Z_nonempty n) as Hne.
    destruct (str_of_Z n) as [|c r] eqn:En; [done|]. rewrite <- En, int_of_str_repr. eauto.
  - by exists 0.
Qed.

Lemma comments_cnt_key (pid : str) :
  startswith (u8 "forum:post") (u8 "forum:post:" ++ pid ++ u8 ":comments_cnt") = true.
Proof. reflexivity. Qed.

Lemma list_posts_step_Ok (offset i count idx : Z) (items : list PostPublic.t)
  (w : world) (self : t) :
  redis_client w = Some self →
  forum_counters self →
  ∃ r w' self',
    forum.list_posts_step offset i count idx items w = (Ok r, w')
    ∧ redis_client w' = Some self' ∧ forum_counters self'.
Proof.
  intros Hc Hf. unfold forum.list_posts_step. cbv zeta.
  destruct (offset <=? idx); [|by eexists _, _, _].
  erewrite bind_Ok; [| eapply await_Some; client]; cbv beta.
  destruct (forum.visible _).
  2:{ eexists _, _, _. split; [reflexivity|]. split; [reflexivity|].
      by apply cleanup_forum_counters. }
  erewrite bind_Ok; [| eapply await_Some; client]; cbv beta.
  erewrite bind_Ok; [| eapply await_Some; client]; cbv beta.
  edestruct (int_or_0_counter (u8 "forum:post:" ++ str_of_Z i ++ u8 ":comments_cnt"))
    as [n Hn]; [| apply comments_cnt_key |].
  2:{ erewrite bind_Ok; [| apply Hn]; cbv beta.
      unfold forum.post_public.
      erewrite bind_Ok.
      2:{ erewrite bind_Ok; [| eapply _now_iso_Some; client]. reflexivity. }
      eexists _, _, _. split; [reflexivity|]. split; [reflexivity|].
      unfold get, scard, hgetall. cbn [snd]. by repeat apply cleanup_forum_counters. }
  unfold scard, hgetall. cbn [snd]. by repeat apply cleanup_forum_counters.
Qed.

Lemma list_posts_loop_Ok (offset limit : Z) (i : nat) :
  ∀ (count idx : Z) (items : list PostPublic.t) (w : world) (self : t),
    redis_client w = Some self →
    forum_counters self →
    ∃ items' w', forum.list_posts_loop offset limit i count idx items w = (Ok items', w').
Proof.
  induction i as [|i IH]; intros count idx items w self Hc Hf; cbn [forum.list_posts_loop].
  - by eexists _, _.
  - destruct (negb (count <? limit)); [by eexists _, _|].
    destruct (list_posts_step_Ok offset (Z.of_nat (S i)) count idx items w self Hc Hf)
      as (r & w1 & self1 & E1 & Hc1 & Hf1).
    rewrite (bind_Ok _ _ _ _ _ E1). by eapply IH.
Qed.

(** With forum counters that are [int]s, [list_posts] returns a listing. *)
Lemma list_posts_Ok (offset limit : Z) (w : world) (self : t) :
  redis_client w = Some self →
  forum_counters self →
  ∃ items, fst (forum.list_posts offset limit w) = Ok items.
Proof.
  intros Hc Hf. unfold forum.list_posts. step_with require_redis_Some.
  erewrite bind_Ok; [| eapply await_Some; client]; cbv beta.
  destruct (int_or_0_counter (u8 "forum:post_seq") (now w) self Hf eq_refl) as [n Hn].
  erewrite bind_Ok; [| apply Hn]; cbv beta.
  edestruct (list_posts_loop_Ok offset limit (Z.to_nat n) 0 0 []) as (items & w' & ->);
    [reflexivity| |by eexists].
  unfold get. cbn [snd]. by apply cleanup_forum_counters.
Qed.

Lemma list_comments_loop_Ok (post_id : str) (ids : list Z) :
  ∀ (items : list CommentPublic.t) (w : world) (self : t),
    redis_client w = Some self →
    ∃ items' w', for_each (forum.list_comments_step post_id) ids items w = (Ok items', w').
Proof.
  induction ids as [|i ids IH]; intros items w self Hc; cbn [for_each].
  - by eexists _, _.
  - unfold forum.list_comments_step at 1.
    unfold bind at 1.
    erewrite bind_Ok; [| eapply await_Some; client]; cbv beta.
    destruct (forum.visible _).
    + erewrite bind_Ok; [| eapply _now_iso_Some; client]; cbv beta.
      unfold ret at 1. by eapply IH.
    + unfold ret at 1. by eapply IH.
Qed.

(** With forum counters that are [int]s, [list_comments] returns a
    listing. *)
Lemma list_comments_Ok (post_id : str) (w : world) (self : t) :
  redis_client w = Some self →
  forum_counters self →
  ∃ items, fst (forum.list_comments post_id w) = Ok items.
Proof.
  intros Hc Hf. unfold forum.list_comments. step_with require_redis_Some.
  erewrite bind_Ok; [| eapply await_Some; client]; cbv beta.
  destruct (int_or_0_counter (u8 "forum:post:" ++ post_id ++ u8 ":comments_cnt")
              (now w) self Hf (comments_cnt_key _)) as [n Hn].
  erewrite bind_Ok; [| apply Hn]; cbv beta.
  edestruct (list_comments_loop_Ok post_id (seqZ 1 n) []) as (items & w' & ->);
    [reflexivity|by eexists].
Qed.
End totality.

Example deleted_world_listings :
  Demo.eval (forum.list_posts 0 20) Demo.deleted_world = Ok []
  ∧ Demo.eval (forum.list_comments (u8 "1")) Demo.deleted_world = Ok []
  ∧ length <$> (match Demo.eval (forum.list_posts 0 20) Demo.forum_world with
                | Ok items => Some items
                | Raise _ => None
                end) = Some 1%nat.
Proof. by vm_compute. Qed.

(** On the forum scenario, once the post and the comment are soft-deleted:
    neither is listed, the post cannot be read, updated or deleted, and bob
    cannot delete his comment again. *)
Lemma soft_deleted_invisible_witness :
  (∀ items, fst (forum.list_posts 0 20 Demo.deleted_world) = Ok items →
            u8 "1" ∉ PostPublic.id <$> items)
  ∧ fst (forum.get_post (u8 "1") Demo.deleted_world)
    = Raise (HTTPException 404 (u8 "Post not found"))
  ∧ fst (forum.delete_post (u8 "1") (u8 "r3") Demo.deleted_world)
    = Raise (HTTPException 404 (u8 "Post not found"))
  ∧ (∀ items, fst (forum.list_comments (u8 "1") Demo.deleted_world) = Ok items →
              u8 "1" ∉ CommentPublic.id <$> items)
  ∧ fst (forum.delete_comment (u8 "1") (u8 "1") (u8 "r4") Demo.deleted_world)
    = Raise (HTTPException 404 (u8 "Comment not found")).
Proof.
  pose (W := Demo.deleted_world).
  assert (Hc : redis_client W = Some (Demo.store W)) by (apply demo_store_Some; by_compute).
  destruct (soft_deleted_invisible W (Demo.store W)
              (default ∅ (AsyncMemoryRedis._hash (Demo.store W) !! (u8 "forum:post:" ++ u8 "1")))
              Hc ltac:(by_compute)) as [Hpost _].
  destruct (Hpost (u8 "1") ltac:(apply demo_record; by_compute))
    as (Hlist & Hget & _ & Hdel).
  destruct (soft_deleted_invisible W (Demo.store W)
              (default ∅ (AsyncMemoryRedis._hash (Demo.store W)
                            !! (u8 "forum:comment:" ++ u8 "1" ++ u8 ":" ++ u8 "1")))
              Hc ltac:(by_compute)) as [_ Hcomment].
  destruct (Hcomment (u8 "1") (u8 "1") ltac:(apply demo_record; by_compute))
    as (Hclist & Hcdel).
  split; [apply Hlist|]. split; [exact Hget|]. split; [apply Hdel|].
  split; [exact Hclist|].
  apply (Hcdel (u8 "r4") {| UserPublic.id := u8 "2"; UserPublic.username := u8 "bob" |}).
  demo_authenticated W (VStr (u8 "2")).
Defined.

(** ** The chat agent *)

(** *** Substrings *)

Lemma startswith_app (k y : str) : startswith k (k ++ y) = true.
Proof. induction k as [|c k IH]; cbn; [done|]. by rewrite N.eqb_refl. Qed.

Lemma startswith_split (k m : str) : startswith k m = true → ∃ y, m = k ++ y.
Proof.
  revert m. induction k as [|c k IH]; intros m; cbn.
  - eauto.
  - destruct m as [|b m]; [discriminate|].
    intros [Hc Hk]%andb_true_iff. apply N.eqb_eq in Hc as ->.
    destruct (IH _ Hk) as [y ->]. eauto.
Qed.

Lemma contains_app (k x y : str) : contains k (x ++ k ++ y) = true.
Proof.
  induction x as [|c x IH].
  - cbn [app]. destruct (k ++ y) eqn:E; cbn [contains]; rewrite <- E, startswith_app; done.
  - cbn [app contains]. rewrite IH. apply orb_true_r.
Qed.

Lemma contains_split (k m : str) : contains k m = true → ∃ x y, m = x ++ k ++ y.
Proof.
  induction m as [|c m IH]; cbn [contains].
  - rewrite orb_false_r. intros [y ->]%startswith_split. by exists [], y.
  - intros [Hs|Hc]%orb_true_iff.
    + apply startswith_split in Hs as [y ->]. by exists [], y.
    + destruct (IH Hc) as (x & y & ->). by exists (c :: x), y.
Qed.

Section lower.
Context `{PlatformSpec}.

Lemma lower_ucs4_ideograph (s : str) (i : nat) (c : N) :
  ideograph c → lower_ucs4 s i c = [c].
Proof.
  intros Hc. unfold lower_ucs4. destruct (c =? 931)%N eqn:E.
  - apply N.eqb_eq in E. unfold ideograph in Hc. lia.
  - by apply ToLowerFull_ideograph.
Qed.

Lemma concat_imap_fixed (f : nat → N → list N) (k : str) :
  (∀ i c, c ∈ k → f i c = [c]) → concat (imap f k) = k.
Proof.
  revert f. induction k as [|c k IH]; intros f Hf; cbn; [done|].
  rewrite Hf by (by left). cbn. f_equal. apply IH. intros i b Hb. apply Hf. by right.
Qed.

(** Lower-casing keeps a run of ideographs where it is. *)
Lemma lower_keeps_ideographs (k x y : str) :
  Forall ideograph k → ∃ x' y', lower (x ++ k ++ y) = x' ++ k ++ y'.
Proof.
  intros Hk. unfold lower. rewrite !imap_app, !concat_app.
  eexists _, _. f_equal. f_equal. apply concat_imap_fixed.
  intros i c Hc. apply lower_ucs4_ideograph. rewrite Forall_forall in Hk. by apply Hk.
Qed.

Lemma contains_lower (k m : str) :
  Forall ideograph k → contains k m = true → contains k (lower m) = true.
Proof.
  intros Hk (x & y & ->)%contains_split.
  destruct (lower_keeps_ideographs k x y Hk) as (x' & y' & ->). apply contains_app.
Qed.
End lower.

Section agent_rules.
Context `{PlatformSpec}.

Lemma nihao_ideographs : Forall ideograph (u8 "你好").
Proof. repeat constructor; vm_compute; discriminate. Qed.

Lemma erfen_ideographs : Forall ideograph (u8 "二分").
Proof. repeat constructor; vm_compute; discriminate. Qed.

Lemma concat_imap_map (f : nat → N → list N) (g : N → N) (k : str) :
  (∀ i c, c ∈ k → f i c = [g c]) → concat (imap f k) = g <$> k.
Proof.
  revert f. induction k as [|c k IH]; intros f Hf; cbn; [done|].
  rewrite Hf by (by left). cbn. f_equal. apply IH. intros i b Hb. apply Hf. by right.
Qed.

(** [str.lower()] on a message of ASCII characters and ideographs. *)
Lemma lower_plain (message : str) :
  Forall plain message → lower message = ascii_lower <$> message.
Proof.
  intros Hp. unfold lower. apply concat_imap_map. intros i c Hc.
  rewrite Forall_forall in Hp. destruct (Hp c Hc) as [Ha|Hi]; unfold lower_ucs4.
  - destruct (N.eqb_spec c 931) as [->|_]; [lia|]. by apply ToLowerFull_ascii.
  - unfold ideograph in Hi. destruct (N.eqb_spec c 931) as [->|_]; [lia|].
    rewrite ToLowerFull_ideograph by done. unfold ascii_lower.
    destruct (N.leb_spec c 90); [lia|]. by rewrite andb_false_r.
Qed.

(** The source's chain of tests is the table read top-down. *)
Lemma rule_based_reply_table (message role focus : str) :
  agent._rule_based_reply message role focus
  = default (generic_prompt role focus) (first_match rule_table (lower message)).
Proof.
  unfold agent._rule_based_reply, rule_table. cbn [first_match]. cbv zeta.
  repeat (destruct (any_in _ (lower message)); [reflexivity|]).
  reflexivity.
Qed.

(** The first rule with a keyword in the text decides, and only if no rule
    has one the table gives nothing. *)
Lemma first_match_priority (rules : list (list str * ChatResponse.t)) (text : str) :
  (∀ i keywords response,
     rules !! i = Some (keywords, response) →
     any_in keywords text = true →
     (∀ j kws r, (j < i)%nat → rules !! j = Some (kws, r) → any_in kws text = false) →
     first_match rules text = Some response)
  ∧ ((∀ j kws r, rules !! j = Some (kws, r) → any_in kws text = false) →
     first_match rules text = None).
Proof.
  induction rules as [|[kws0 r0] rules [IH1 IH2]]; cbn [first_match].
  - split; [by intros i ? ? ?|done].
  - split.
    + intros [|i] keywords response Hi Hany Hprev.
      * cbn in Hi. apply (inj Some) in Hi.
        assert (kws0 = keywords) as -> by (by apply (f_equal fst) in Hi).
        assert (r0 = response) as -> by (by apply (f_equal snd) in Hi).
        by rewrite Hany.
      * rewrite (Hprev 0%nat kws0 r0 ltac:(lia) eq_refl).
        apply (IH1 i keywords response Hi Hany).
        intros j kws r Hj. apply (Hprev (S j)). lia.
    + intros Hnone. rewrite (Hnone 0%nat kws0 r0 eq_refl).
      apply IH2. intros j kws r. apply (Hnone (S j)).
Qed.

(** C9. [_rule_based_reply] is a function of its three arguments: equal
    inputs give equal responses. It tests the lower-cased message, and
    lower-casing maps the ASCII letters of a message of ASCII characters
    and ideographs to lower case and keeps every other character. Its five
    rules are tried in the order of the table: the rule at position [i]
    gives the response when the lower-cased message contains one of its
    keywords and none of the keywords of the rules before it; when it
    contains no keyword of any rule the response is the generic prompt
    with the role and the focus, or their defaults where they are empty.
    So a message whose letters, in any case, spell "hello" gets the
    greeting; a message that contains "你好" gets the greeting (the message
    "你好" itself in particular), whatever else it contains; a message that
    contains "二分", and whose lower-cased text contains none of "hello",
    "hi", "你好", gets the binary-search prompt with score 7. *)
Theorem rule_based_reply_rules :
  (∀ m1 r1 f1 m2 r2 f2, m1 = m2 → r1 = r2 → f1 = f2 →
     agent._rule_based_reply m1 r1 f1 = agent._rule_based_reply m2 r2 f2)
  ∧ (∀ message, Forall plain message → lower message = ascii_lower <$> message)
  ∧ (∀ message role focus i keywords response,
       rule_table !! i = Some (keywords, response) →
       any_in keywords (lower message) = true →
       (∀ j kws r, (j < i)%nat → rule_table !! j = Some (kws, r) →
                   any_in kws (lower message) = false) →
       agent._rule_based_reply message role focus = response)
  ∧ (∀ message role focus,
       (∀ j kws r, rule_table !! j = Some (kws, r) → any_in kws (lower message) = false) →
       agent._rule_based_reply message role focus = generic_prompt role focus)
  ∧ (∀ message role focus,
       Forall plain message →
       contains (u8 "hello") (ascii_lower <$> message) = true →
       agent._rule_based_reply message role focus = greeting)
  ∧ (∀ role focus, agent._rule_based_reply (u8 "你好") role focus = greeting)
  ∧ (∀ message role focus,
       contains (u8 "你好") message = true →
       agent._rule_based_reply message role focus = greeting)
  ∧ (∀ message role focus,
       contains (u8 "二分") message = true →
       any_in [u8 "hello"; u8 "hi"; u8 "你好"] (lower message) = false →
       agent._rule_based_reply message role focus = binary_search_prompt
       ∧ ChatResponse.score (agent._rule_based_reply message role focus) = Some 7).
Proof.
  assert (Hrule : ∀ message role focus i keywords response,
       rule_table !! i = Some (keywords, response) →
       any_in keywords (lower message) = true →
       (∀ j kws r, (j < i)%nat → rule_table !! j = Some (kws, r) →
                   any_in kws (lower message) = false) →
       agent._rule_based_reply message role focus = response).
  { intros message role focus i keywords response Hi Hany Hprev.
    rewrite rule_based_reply_table.
    by rewrite (proj1 (first_match_priority rule_table (lower message)) _ _ _ Hi Hany Hprev). }
  assert (Hgreet : ∀ message role focus,
             contains (u8 "你好") message = true →
             agent._rule_based_reply message role focus = greeting).
  { intros message role focus Hm.
    apply (Hrule message role focus 0%nat [u8 "hello"; u8 "hi"; u8 "你好"]); [done| |lia].
    unfold any_in. cbn [existsb].
    rewrite (contains_lower _ _ nihao_ideographs Hm). by rewrite !orb_true_r. }
  split; [by intros ? ? ? ? ? ? -> -> ->|].
  split; [exact lower_plain|]. split; [exact Hrule|].
  split; [|split; [|split; [|split; [exact Hgreet|]]]].
  - intros message role focus Hnone. rewrite rule_based_reply_table.
    by rewrite (proj2 (first_match_priority rule_table (lower message)) Hnone).
  - intros message role focus Hp Hm.
    apply (Hrule message role focus 0%nat [u8 "hello"; u8 "hi"; u8 "你好"]); [done| |lia].
    unfold any_in. cbn [existsb]. by rewrite (lower_plain _ Hp), Hm.
  - intros role focus. apply Hgreet. by vm_compute.
  - intros message role focus Hm Hnone.
    assert (agent._rule_based_reply message role focus = binary_search_prompt) as E.
    { apply (Hrule message role focus 1%nat [u8 "二分"; u8 "binary search"]); [done| |].
      - unfold any_in. cbn [existsb]. by rewrite (contains_lower _ _ erfen_ideographs Hm).
      - intros [|j] kws r Hj Hl; [|lia]. cbn in Hl. apply (inj Some) in Hl.
        apply (f_equal fst) in Hl. cbn [fst] in Hl. by rewrite <- Hl. }
    by rewrite E.
Qed.
End agent_rules.

(** On five messages: one asks about binary search, one greets first, one
    shouts its greeting, one names TCP in capitals after nothing of higher
    priority, and one matches no rule. *)
Lemma rule_based_reply_rules_witness :
  agent._rule_based_reply (u8 "请讲讲二分查找") (u8 "后端") [] = binary_search_prompt
  ∧ agent._rule_based_reply (u8 "你好，二分") [] [] = greeting
  ∧ agent._rule_based_reply (u8 "HeLLo") [] [] = greeting
  ∧ agent._rule_based_reply (u8 "TCP 怎么握手") [] [] = tcp_prompt
  ∧ agent._rule_based_reply (u8 "讲讲项目") (u8 "后端") []
    = generic_prompt (u8 "后端") [].
Proof.
  destruct (rule_based_reply_rules (H := platform_spec))
    as (_ & _ & Hrule & Hnone & Hhello & _ & Hgreet & Hbinary).
  split; [|split; [|split; [|split]]].
  - apply Hbinary; by vm_compute.
  - apply Hgreet. by vm_compute.
  - apply Hhello; [|by vm_compute].
    repeat (apply Forall_cons; split; [left; by vm_compute|]). by apply Forall_nil.
  - apply (Hrule _ _ _ 4%nat [u8 "tcp"; u8 "三次握手"; u8 "四次挥手"]);
      [reflexivity|by vm_compute|].
    intros j kws r Hj Hl.
    do 4 (destruct j as [|j];
          [cbn in Hl; apply (inj Some), (f_equal fst) in Hl; cbn [fst] in Hl;
           rewrite <- Hl; by vm_compute|]).
    lia.
  - apply Hnone. intros j kws r Hl.
    do 5 (destruct j as [|j];
          [cbn in Hl; apply (inj Some), (f_equal fst) in Hl; cbn [fst] in Hl;
           rewrite <- Hl; by vm_compute|]).
    by cbn in Hl.
Defined.

(** ** Study mistakes *)

Section study_delete.
Context `{Platform}.
Import AsyncMemoryRedis.

Lemma session_uid_run (w : world) (self : t) (token : str) :
  redis_client w = Some self →
  study.session_uid token w =
    let s0 := _cleanup (now w) self in
    match py_str <$> _kv s0 !! (u8 "session:" ++ token) with
    | Some ((_ :: _) as uid) => (Ok uid, tick w s0)
    | _ => (Raise (HTTPException 401 (u8 "Unauthorized")), tick w s0)
    end.
Proof.
  intros Hc. unfold study.session_uid.
  erewrite bind_Ok; [| eapply await_Some; client]; cbv beta.
  cbn [get fst snd]. cbv zeta. by destruct (py_str <$> _) as [[|c uid]|].
Qed.

(** [srem] of a [str] leaves every [int] member in place. *)
Lemma srem_str_keeps_ints (key k : str) (mid : str) (n now : Z) (self : t) :
  VInt n ∈ default ∅ (_sets self !! k) →
  VInt n ∈ default ∅ (_sets (srem key [VStr mid] now self).2 !! k).
Proof.
  intros Hn. unfold srem. cbn [snd _sets fold_left]. rewrite cleanup_sets.
  destruct (decide (key = k)) as [->|Hne].
  - rewrite lookup_insert_eq. cbn [from_option id].
    rewrite elem_of_difference, elem_of_singleton. split; [done|discriminate].
  - by rewrite lookup_insert_ne.
Qed.

(** On the in-process store [delete_mistake] removes neither a hash nor an
    [int] member of a set: [delete] pops only the scalar and the deadline
    of its key, and the id [srem] is given is the [str] of the path. *)
Lemma delete_mistake_removes_nothing (w : world) (self : t) (mid token : str) :
  redis_client w = Some self →
  ∃ self', redis_client (snd (study.delete_mistake mid token w)) = Some self'
           ∧ _hash self' = _hash self
           ∧ ∀ k n, VInt n ∈ default ∅ (_sets self !! k) →
                    VInt n ∈ default ∅ (_sets self' !! k).
Proof.
  intros Hc. unfold study.delete_mistake, study._ensure_redis.
  step_with require_redis_Some.
  unfold bind at 1. rewrite (session_uid_run _ _ _ Hc). cbv zeta.
  destruct (py_str <$> _) as [[|c uid]|];
    try (eexists; split; [reflexivity|];
         split; [apply cleanup_hash | intros k n; by rewrite cleanup_sets]).
  erewrite bind_Ok; [| eapply await_Some; client]; cbv beta.
  rewrite hgetall_fst.
  destruct (decide _) as [He|Hne].
  - unfold bind, ret. cbn [snd redis_client tick]. eexists. split; [reflexivity|].
    unfold hgetall. cbn [snd]. split; [by rewrite !cleanup_hash|].
    intros k n. by rewrite !cleanup_sets.
  - erewrite bind_Ok.
    2:{ erewrite bind_Ok; [| eapply await_Some; client]; cbv beta.
        erewrite bind_Ok; [| eapply await_Some; client]; cbv beta. reflexivity. }
    unfold ret. cbn [snd redis_client tick]. eexists. split; [reflexivity|]. split.
    + unfold srem, delete, hgetall. cbn [snd _hash].
      rewrite cleanup_hash. unfold pop. cbn [_hash]. by rewrite !cleanup_hash.
    + intros k n Hn. apply srem_str_keeps_ints.
      unfold delete, hgetall. cbn [snd]. unfold pop. cbn [_sets]. by rewrite !cleanup_sets.
Qed.

(** C8, as the code has it. For an authenticated caller and a mistake id
    with no record under [study:{uid}:mistake:{id}], [delete_mistake]
    answers [{"ok": True}] and leaves every hash and every set of the
    store as it was. *)
Theorem delete_missing_mistake_ok (w : world) (self : t) (mid token : str) (v : pyval) :
  redis_client w = Some self →
  _kv self !! (u8 "session:" ++ token) = Some v →
  live (now w) self (u8 "session:" ++ token) →
  py_str v ≠ [] →
  _hash self !! (u8 "study:" ++ py_str v ++ u8 ":mistake:" ++ mid) = None →
  fst (study.delete_mistake mid token w) = Ok true
  ∧ ∃ self', redis_client (snd (study.delete_mistake mid token w)) = Some self'
      ∧ _hash self' = _hash self
      ∧ _sets self' = _sets self.
Proof.
  intros Hc Hv Hl Hne Hnone.
  assert (∃ w', study.delete_mistake mid token w = (Ok true, w')
                ∧ ∃ self', redis_client w' = Some self'
                    ∧ _hash self' = _hash self ∧ _sets self' = _sets self)
    as (w' & -> & Hw'); [|by split].
  unfold study.delete_mistake, study._ensure_redis.
  step_with require_redis_Some.
  unfold bind at 1. rewrite (session_uid_run _ _ _ Hc). cbv zeta.
  rewrite (cleanup_kv_live _ _ _ Hl), Hv. cbn [fmap option_fmap option_map].
  destruct (py_str v) as [|c uid] eqn:Ev; [done|].
  erewrite bind_Ok; [| eapply await_Some; client]; cbv beta.
  rewrite hgetall_fst, cleanup_hash, Hnone. cbn [from_option].
  rewrite decide_True by done.
  unfold bind, ret. eexists. split; [reflexivity|].
  eexists. split; [reflexivity|]. unfold hgetall. cbn [snd].
  by rewrite !cleanup_hash, !cleanup_sets.
Qed.
End study_delete.

(** On the scenario: alice deletes mistake 9, which she never recorded. *)
Lemma delete_missing_mistake_ok_witness :
  fst (study.delete_mistake (u8 "9") (u8 "r2") Demo.logged_in) = Ok true.
Proof.
  refine (proj1 (delete_missing_mistake_ok Demo.logged_in (Demo.store Demo.logged_in)
                   (u8 "9") (u8 "r2") (VStr (u8 "1")) _ _ _ _ _)).
  - apply demo_store_Some. by_compute.
  - by_compute.
  - vm_compute. reflexivity.
  - intros E. vm_compute in E. discriminate.
  - by_compute.
Defined.

(** C8 does not hold of the code: alice is authenticated, no record
    [study:1:mistake:9] exists, and the deletion does not fail with 404 (it
    does not fail at all). *)
Lemma delete_missing_mistake_is_not_404 :
  AsyncMemoryRedis._hash (Demo.store Demo.logged_in) !! u8 "study:1:mistake:9" = None
  ∧ Demo.eval (auth.me (u8 "r2")) Demo.logged_in
    = Ok {| UserPublic.id := u8 "1"; UserPublic.username := u8 "alice" |}
  ∧ Demo.eval (study.delete_mistake (u8 "9") (u8 "r2")) Demo.logged_in = Ok true
  ∧ ¬ ∃ detail,
        Demo.eval (study.delete_mistake (u8 "9") (u8 "r2")) Demo.logged_in
        = Raise (HTTPException 404 detail).
Proof.
  split; [by_compute|]. split; [by vm_compute|].
  assert (E : Demo.eval (study.delete_mistake (u8 "9") (u8 "r2")) Demo.logged_in = Ok true)
    by (by vm_compute).
  split; [exact E|]. intros [detail E']. rewrite E in E'. discriminate.
Qed.

(** C10 on the scenario. Alice records the mistake "two-sum" (difficulty
    Easy, tag hash) and deletes it by its id ["1"]; the deletion answers
    [{"ok": True}], yet [stats] still reports [total = 1] and
    [byTag.hash = 1], next to [byDifficulty.Easy = 1]: on the in-process
    store the record and the id both survive the deletion. *)
Theorem deleted_mistake_still_counted :
  Demo.eval (study.delete_mistake (u8 "1") (u8 "r2")) Demo.studied = Ok true
  ∧ VInt 1 ∈ default ∅ (AsyncMemoryRedis._sets (Demo.store Demo.unstudied)
                          !! u8 "study:1:mistakes")
  ∧ is_Some (AsyncMemoryRedis._hash (Demo.store Demo.unstudied) !! u8 "study:1:mistake:1")
  ∧ match Demo.eval (study.stats 7 (u8 "r2")) Demo.unstudied with
    | Ok r =>
        StatsResponse.total r = 1
        ∧ StatsResponse.byTag r !! u8 "hash" = Some 1
        ∧ StatsResponse.byDifficulty r !! u8 "Easy" = Some 1
    | Raise _ => False
    end.
Proof.
  split; [by vm_compute|]. split; [by_compute|]. split; [by_compute|].
  vm_compute. repeat split.
Qed.

(** * Further properties *)

(** ** The store *)

Section store_more.
Context `{Platform}.
Import AsyncMemoryRedis.

(** The value and the deadline of a key stay as they are through a call
    that does not overwrite the key and is made before the deadline. *)
Lemma run_call_keeps (c : call) (tc : Z) (self : t) (k : str) (v : pyval) (o : option Z) :
  ¬ overwrites k c → before o tc →
  _kv self !! k = Some v → _ttl self !! k = o →
  _kv (run_call c tc self) !! k = Some v ∧ _ttl (run_call c tc self) !! k = o.
Proof.
  intros Hw Hb Hv Ho.
  assert (Hl : live tc self k). { unfold live. rewrite Ho. exact Hb. }
  assert (Hv0 : _kv (_cleanup tc self) !! k = Some v) by (by rewrite cleanup_kv_live).
  assert (Ho0 : _ttl (_cleanup tc self) !! k = o) by (by rewrite cleanup_ttl_live).
  destruct c as [key|key value nx|key ttl value now2|key|key mapping|key|key members
                |key members|key|key member|key|key];
    cbn [run_call overwrites] in *; try (split; assumption).
  - unfold set. destruct (nx && _); [by split|]. cbn [snd _kv _ttl].
    by rewrite lookup_insert_ne, lookup_delete_ne.
  - cbn [setex snd _kv _ttl]. by rewrite !lookup_insert_ne.
  - by rewrite incr_kv_ne, incr_ttl.
  - cbn [delete snd pop _kv _ttl]. by rewrite !lookup_delete_ne.
Qed.

Lemma run_calls_keeps (cs : list (call * Z)) (self : t) (k : str) (v : pyval)
  (o : option Z) :
  Forall (fun c => ¬ overwrites k c.1 ∧ before o c.2) cs →
  _kv self !! k = Some v → _ttl self !! k = o →
  _kv (run_calls cs self) !! k = Some v ∧ _ttl (run_calls cs self) !! k = o.
Proof.
  unfold run_calls. revert self.
  induction cs as [|[c tc] cs IH]; intros self Hcs Hv Ho; [done|].
  apply Forall_cons in Hcs as [[Hw Hb] Hcs]. cbn [fold_left fst snd] in *.
  destruct (run_call_keeps c tc self k v o Hw Hb Hv Ho) as [Hv' Ho'].
  by apply IH.
Qed.

(** X1. Before its deadline a key written by [setex] reads as the string
    of its value, through any calls made before the deadline that do not
    overwrite or delete it. The deadline is the binary64 sum of the second
    clock reading of the call and the TTL; where rounding makes that sum no
    later than the instant of a read, the key is already gone and nothing
    is claimed. *)
Theorem setex_reads_until_deadline (key : str) (ttl : Z) (value : pyval) (t0 t0' t1 : Z)
  (self : t) (cs : list (call * Z)) :
  let deadline := float_add t0' ttl in
  Forall (fun c => ¬ overwrites key c.1 ∧ c.2 < deadline) cs →
  t1 < deadline →
  (get key t1 (run_calls cs (setex key ttl value t0 t0' self).2)).1 = Some (py_str value).
Proof.
  intros deadline Hcs Ht.
  destruct (run_calls_keeps cs (setex key ttl value t0 t0' self).2 key value (Some deadline))
    as [Hv Ho]; [done|apply lookup_insert_eq|apply lookup_insert_eq|].
  unfold get. cbn [fst]. rewrite cleanup_kv_live; [by rewrite Hv|].
  unfold live. by rewrite Ho.
Qed.

(** X2. A plain [set] removes the deadline of its key: the value is read
    at every later instant, through any calls that do not overwrite or
    delete the key, even if the key carried a TTL before. *)
Theorem set_makes_persistent (key : str) (value : pyval) (t0 t1 : Z) (self : t)
  (cs : list (call * Z)) :
  Forall (fun c => ¬ overwrites key c.1) cs →
  (set key value false t0 self).1 = true
  ∧ (get key t1 (run_calls cs (set key value false t0 self).2)).1 = Some (py_str value).
Proof.
  intros Hcs. split; [done|].
  destruct (run_calls_keeps cs (set key value false t0 self).2 key value None)
    as [Hv Ho].
  - eapply Forall_impl; [exact Hcs|]. by intros c Hc.
  - cbn. apply lookup_insert_eq.
  - cbn. apply lookup_delete_eq.
  - unfold get. cbn [fst]. rewrite cleanup_kv_live; [by rewrite Hv|].
    unfold live. by rewrite Ho.
Qed.
End store_more.

(** A key set for 60 seconds, counted from instant 10, is read at instant
    69. *)
Lemma setex_reads_until_deadline_witness :
  (AsyncMemoryRedis.get (u8 "k") 69
     (run_calls [(Get (u8 "k"), 20); (Incr (u8 "n"), 30)]
        (AsyncMemoryRedis.setex (u8 "k") 60 (VInt 7) 9 10 AsyncMemoryRedis.__init__).2)).1
  = Some (u8 "7").
Proof.
  apply (setex_reads_until_deadline (H := Demo.platform)); [|by vm_compute].
  apply Forall_cons. split; [split; [intros []|by vm_compute]|].
  apply Forall_cons. split; [|constructor].
  split; [|by vm_compute]. cbn. intros E. vm_compute in E. discriminate.
Defined.

(** A key set for 60 seconds and then overwritten by [set] is still read at
    instant 1000. *)
Lemma set_makes_persistent_witness :
  (AsyncMemoryRedis.get (u8 "k") 1000
     (run_calls [(Hset (u8 "k") ∅, 500)]
        (AsyncMemoryRedis.set (u8 "k") (VStr (u8 "v")) false 20
           (AsyncMemoryRedis.setex (u8 "k") 60 (VInt 7) 9 10
              AsyncMemoryRedis.__init__).2).2)).1 = Some (u8 "v").
Proof.
  refine (proj2 (set_makes_persistent (H := Demo.platform) (u8 "k") (VStr (u8 "v")) 20 1000
                   _ [(Hset (u8 "k") ∅, 500)] _)).
  apply Forall_cons. split; [intros []|constructor].
Defined.

Section store_frames.
Context `{Platform}.
Import AsyncMemoryRedis.

Lemma run_call_hash (c : call) (tc : Z) (self : t) (k : str) :
  ¬ writes_hash k c → _hash (run_call c tc self) !! k = _hash self !! k.
Proof.
  intros Hw.
  destruct c as [key|key value nx|key ttl value now2|key|key mapping|key|key members
                |key members|key|key member|key|key];
    cbn [run_call writes_hash] in *;
    try (cbn; by rewrite cleanup_hash).
  - unfold set. destruct (nx && _); cbn; by rewrite cleanup_hash.
  - by rewrite incr_hash.
  - rewrite hset_hash. by rewrite lookup_insert_ne.
Qed.

Lemma run_call_sets (c : call) (tc : Z) (self : t) (k : str) :
  ¬ writes_set k c → _sets (run_call c tc self) !! k = _sets self !! k.
Proof.
  intros Hw.
  destruct c as [key|key value nx|key ttl value now2|key|key mapping|key|key members
                |key members|key|key member|key|key];
    cbn [run_call writes_set] in *;
    try (cbn; by rewrite cleanup_sets).
  - unfold set. destruct (nx && _); cbn; by rewrite cleanup_sets.
  - by rewrite incr_sets.
  - cbn. rewrite cleanup_sets. by rewrite lookup_insert_ne.
  - cbn. rewrite cleanup_sets. by rewrite lookup_insert_ne.
Qed.

Lemma run_calls_hash (cs : list (call * Z)) (self : t) (k : str) :
  Forall (fun c => ¬ writes_hash k c.1) cs →
  _hash (run_calls cs self) !! k = _hash self !! k.
Proof.
  unfold run_calls. revert self. induction cs as [|[c tc] cs IH]; intros self Hcs; [done|].
  apply Forall_cons in Hcs as [Hc Hcs]. cbn [fold_left fst snd] in *.
  rewrite IH by done. by apply run_call_hash.
Qed.

Lemma run_calls_sets (cs : list (call * Z)) (self : t) (k : str) :
  Forall (fun c => ¬ writes_set k c.1) cs →
  _sets (run_calls cs self) !! k = _sets self !! k.
Proof.
  unfold run_calls. revert self. induction cs as [|[c tc] cs IH]; intros self Hcs; [done|].
  apply Forall_cons in Hcs as [Hc Hcs]. cbn [fold_left fst snd] in *.
  rewrite IH by done. by apply run_call_sets.
Qed.

(** X3. Hashes and sets do not expire and are changed by their own writers
    only: through any calls other than [hset] on the key, [hgetall] returns
    what it returned before, and through any calls other than [sadd] and
    [srem] on the key, [smembers] does; [setex], [set] and [delete] on the
    same key name leave both alone. *)
Theorem hashes_and_sets_stay (key : str) (t0 t1 : Z) (self : t) (cs : list (call * Z)) :
  (Forall (fun c => ¬ writes_hash key c.1) cs →
   (hgetall key t1 (run_calls cs self)).1 = (hgetall key t0 self).1)
  ∧ (Forall (fun c => ¬ writes_set key c.1) cs →
     (smembers key t1 (run_calls cs self)).1 = (smembers key t0 self).1).
Proof.
  split; intros Hcs.
  - rewrite !hgetall_fst. by rewrite run_calls_hash.
  - unfold smembers. cbn [fst]. rewrite !cleanup_sets. by rewrite run_calls_sets.
Qed.

(** X4. [hset] returns the number of fields it was given and merges them
    into the hash: afterwards, through any calls other than another [hset]
    on the key, [hgetall] shows the given value for every field of the
    mapping and the earlier value for every other field. *)
Theorem hset_then_hgetall (key : str) (mapping : gmap str str) (t0 t1 : Z) (self : t)
  (cs : list (call * Z)) :
  Forall (fun c => ¬ writes_hash key c.1) cs →
  (hset key mapping t0 self).1 = Z.of_nat (size mapping)
  ∧ ∀ field,
      (hgetall key t1 (run_calls cs (hset key mapping t0 self).2)).1 !! field
      = match mapping !! field with
        | Some value => Some value
        | None => (hgetall key t0 self).1 !! field
        end.
Proof.
  intros Hcs. split; [done|]. intros field.
  rewrite !hgetall_fst, run_calls_hash by done.
  rewrite hset_hash, lookup_insert_eq. cbn [from_option id].
  rewrite lookup_union.
  by destruct (mapping !! field), (default ∅ (_hash self !! key) !! field).
Qed.

Lemma counter_VInt (self : t) (k : str) (n : Z) :
  _kv self !! k = Some (VInt n) → counter self k = Some n.
Proof. unfold counter. by intros ->. Qed.

(** One call on a counter that nothing but [incr] overwrites. *)
Lemma run_call_counter (c : call) (tc : Z) (self : t) (k : str) (n : Z) (o : option Z) :
  (overwrites k c → c = Incr k) → before o tc →
  counter self k = Some n → _ttl self !! k = o →
  counter (run_call c tc self) k = Some (if is_incr k c then n + 1 else n)
  ∧ _ttl (run_call c tc self) !! k = o.
Proof.
  intros Hw Hb Hn Ho.
  assert (Hl : live tc self k). { unfold live. rewrite Ho. exact Hb. }
  assert (Hn0 : counter (_cleanup tc self) k = Some n).
  { unfold counter. by rewrite cleanup_kv_live. }
  assert (Ho0 : _ttl (_cleanup tc self) !! k = o) by (by rewrite cleanup_ttl_live).
  assert (Hkeep : ∀ s', _kv s' !! k = _kv (_cleanup tc self) !! k → counter s' k = Some n).
  { intros s' E. unfold counter. rewrite E. exact Hn0. }
  destruct c as [key|key value nx|key ttl value now2|key|key mapping|key|key members
                |key members|key|key member|key|key];
    cbn [run_call overwrites is_incr] in *; try (split; [by apply Hkeep|assumption]).
  - destruct (decide (key = k)) as [->|Hne]; [by specialize (Hw eq_refl)|].
    unfold set. destruct (nx && _); [split; [by apply Hkeep|done]|]. cbn [snd _kv _ttl].
    split; [apply Hkeep; cbn; by rewrite lookup_insert_ne|by rewrite lookup_delete_ne].
  - destruct (decide (key = k)) as [->|Hne]; [by specialize (Hw eq_refl)|].
    split; [apply Hkeep; cbn; by rewrite lookup_insert_ne|cbn; by rewrite lookup_insert_ne].
  - rewrite incr_ttl. split; [|done].
    destruct (decide (key = k)) as [->|Hne].
    + rewrite bool_decide_eq_true_2 by done. apply counter_VInt. by apply incr_kv_eq.
    + rewrite bool_decide_eq_false_2 by done. apply Hkeep. by apply incr_kv_ne.
  - destruct (decide (key = k)) as [->|Hne]; [by specialize (Hw eq_refl)|].
    split; [apply Hkeep; cbn; by rewrite lookup_delete_ne|cbn; by rewrite lookup_delete_ne].
Qed.

(** X5. [incr] loses no update: when the counter reads as [n] (0 if the
    key is absent) [incr] returns [n + 1], and after any sequence of calls
    in which only [incr] overwrites the key, each made before the key's
    deadline if it has one, the counter reads as [n] plus the number of
    [incr] calls on it; an unparsable value makes [incr] raise and leaves
    the store merely swept. *)
Theorem incr_counts (key : str) (self : t) (n : Z) (cs : list (call * Z)) :
  counter self key = Some n →
  Forall (fun c => (overwrites key c.1 → c.1 = Incr key)
                   ∧ before (_ttl self !! key) c.2) cs →
  counter (run_calls cs self) key
  = Some (n + Z.of_nat (length (filter (fun c => is_incr key c.1 = true) cs)))
  ∧ (∀ tc, counter (_cleanup tc self) key = Some n → (incr key tc self).1 = Some (n + 1))
  ∧ (∀ tc, counter (_cleanup tc self) key = None →
           incr key tc self = (None, _cleanup tc self)).
Proof.
  intros Hn Hcs. split; [|split].
  - assert (G : counter (run_calls cs self) key
                = Some (n + Z.of_nat (length (filter (fun c => is_incr key c.1 = true) cs)))
                ∧ _ttl (run_calls cs self) !! key = _ttl self !! key); [|apply G].
    remember (_ttl self !! key) as o eqn:Eo. symmetry in Eo.
    unfold run_calls. revert self n Hn Eo.
    induction cs as [|[c tc] cs IH]; intros self n Hn Eo.
    + cbn. by rewrite Z.add_0_r.
    + apply Forall_cons in Hcs as [[Hw Hb] Hcs]. cbn [fold_left fst snd] in *.
      destruct (run_call_counter c tc self key n o Hw Hb Hn Eo) as [Hn' Ho'].
      destruct (IH Hcs _ _ Hn' Ho') as [IH1 IH2]. split; [|done].
      rewrite IH1. rewrite filter_cons. cbn [fst].
      destruct (is_incr key c); [rewrite decide_True by done|rewrite decide_False by done];
        cbn [length]; f_equal; lia.
  - intros tc Hc. unfold incr. unfold counter in Hc. by rewrite Hc.
  - intros tc Hc. unfold incr. unfold counter in Hc. by rewrite Hc.
Qed.
End store_frames.

Section store_frames_examples.
Import AsyncMemoryRedis.

Lemma incr_counts_witness :
  counter (run_calls [(Incr (u8 "n"), 1); (Get (u8 "n"), 2); (Incr (u8 "m"), 3);
                      (Incr (u8 "n"), 4)] __init__) (u8 "n") = Some 2.
Proof.
  refine (proj1 (incr_counts (H := Demo.platform) (u8 "n") __init__ 0 _ eq_refl _)).
  repeat (apply Forall_cons; split; [split; [cbn [overwrites fst]|exact I]|]);
    try apply Forall_nil; try done.
Defined.


Lemma hashes_and_sets_stay_witness :
  (hgetall (u8 "h") 9 (run_calls [(Delete (u8 "h"), 1); (Setex (u8 "h") 5 (VInt 1) 3, 2);
                                  (Sadd (u8 "h") [VInt 1], 3)] __init__)).1
  = (hgetall (u8 "h") 0 __init__).1.
Proof.
  apply (proj1 (hashes_and_sets_stay (H := Demo.platform) (u8 "h") 0 9 __init__ _)).
  do 3 (apply Forall_cons; split; [intros []|]). by apply Forall_nil.
Defined.

Lemma hset_then_hgetall_witness :
  (hset (u8 "h") {[u8 "a" := u8 "1"]} 0 __init__).1 = 1
  ∧ (hgetall (u8 "h") 9 (run_calls [(Delete (u8 "h"), 1)]
       (hset (u8 "h") {[u8 "a" := u8 "1"]} 0 __init__).2)).1 !! u8 "a" = Some (u8 "1").
Proof.
  destruct (hset_then_hgetall (H := Demo.platform) (u8 "h") {[u8 "a" := u8 "1"]} 0 9
              __init__ [(Delete (u8 "h"), 1)]) as [Hn Hg].
  - apply Forall_cons; split; [intros []|by apply Forall_nil].
  - split; [rewrite Hn; by rewrite map_size_singleton|]. rewrite Hg. by rewrite lookup_singleton.
Defined.
End store_frames_examples.

Section store_sets.
Context `{Platform}.
Import AsyncMemoryRedis.

Lemma fold_add (members : list pyval) (s : gset pyval) :
  fold_left (fun s m => s ∪ {[m]}) members s = s ∪ list_to_set members.
Proof.
  revert s. induction members as [|m ms IH]; intros s; cbn [fold_left list_to_set].
  - by rewrite (right_id_L ∅ (∪)).
  - rewrite IH. by rewrite (assoc_L (∪)).
Qed.

Lemma fold_discard (members : list pyval) (s : gset pyval) :
  fold_left (fun s m => s ∖ {[m]}) members s = s ∖ list_to_set members.
Proof.
  revert s. induction members as [|m ms IH]; intros s; cbn [fold_left list_to_set].
  - by rewrite difference_empty_L.
  - rewrite IH. apply set_eq. intros x.
    rewrite !elem_of_difference, elem_of_union, elem_of_singleton. tauto.
Qed.

(** X6. [sadd] and [srem] are set union and set difference, and what they
    return is the change of cardinality: [sadd] returns the number of
    distinct given members that were not in the set, [srem] the number of
    members of the set among the given ones; neither result is negative,
    and a repeated [sadd] or [srem] of the same members returns 0. *)
Theorem sadd_srem_counts (key : str) (members : list pyval) (t0 t1 : Z) (self : t) :
  let s := members_of self key in
  let given : gset pyval := list_to_set members in
  let added := sadd key members t0 self in
  let removed := srem key members t0 self in
  members_of added.2 key = s ∪ given
  ∧ added.1 = Z.of_nat (size (given ∖ s))
  ∧ (sadd key members t1 added.2).1 = 0
  ∧ members_of removed.2 key = s ∖ given
  ∧ removed.1 = Z.of_nat (size (s ∩ given))
  ∧ (srem key members t1 removed.2).1 = 0.
Proof.
  cbn zeta. unfold members_of, sadd, srem. cbn [fst snd _sets].
  do 2 (rewrite ?cleanup_sets; cbn [_sets]; rewrite ?lookup_insert_eq; cbn [default from_option id]).
  rewrite !fold_add, !fold_discard.
  set (s := default ∅ (_sets self !! key)). set (given := list_to_set members).
  repeat split.
  - assert (E : s ∪ given = s ∪ given ∖ s).
    { apply set_eq. intros x. rewrite !elem_of_union, elem_of_difference.
      destruct (decide (x ∈ s)); tauto. }
    rewrite E at 1. rewrite size_union.
    + lia.
    + intros x Hx. rewrite elem_of_difference. tauto.
  - assert (E : s ∪ given ∪ given = s ∪ given).
    { apply set_eq. intros x. rewrite !elem_of_union. tauto. }
    rewrite E. lia.
  - assert (E : s = s ∖ given ∪ s ∩ given).
    { apply set_eq. intros x. rewrite elem_of_union, elem_of_difference, elem_of_intersection.
      destruct (decide (x ∈ given)); tauto. }
    rewrite E at 1. rewrite size_union.
    + lia.
    + intros x. rewrite elem_of_difference, elem_of_intersection. tauto.
  - assert (E : s ∖ given ∖ given = s ∖ given).
    { apply set_eq. intros x. rewrite !elem_of_difference. tauto. }
    rewrite E. lia.
Qed.

(** One call on a key that has no value and that the call does not write. *)
Lemma run_call_absent (c : call) (tc : Z) (self : t) (k : str) :
  ¬ overwrites k c → _kv self !! k = None → _kv (run_call c tc self) !! k = None.
Proof.
  intros Hw Hn. pose proof (cleanup_kv_None tc self k Hn) as Hc.
  destruct c as [key|key value nx|key ttl value now2|key|key mapping|key|key members
                |key members|key|key member|key|key];
    cbn [run_call overwrites] in *; try exact Hc.
  - unfold set. destruct (nx && _); [exact Hc|]. cbn. by rewrite lookup_insert_ne.
  - cbn. by rewrite lookup_insert_ne.
  - rewrite incr_kv_ne by done. exact Hc.
  - cbn. by rewrite lookup_delete_ne.
Qed.

Lemma run_calls_absent (cs : list (call * Z)) (self : t) (k : str) :
  Forall (fun c => ¬ overwrites k c.1) cs →
  _kv self !! k = None → _kv (run_calls cs self) !! k = None.
Proof.
  unfold run_calls. revert self. induction cs as [|[c tc] cs IH]; intros self Hcs Hn; [done|].
  apply Forall_cons in Hcs as [Hc Hcs]. cbn [fold_left fst snd] in *.
  apply IH; [done|]. by apply run_call_absent.
Qed.

(** X7. [delete] returns 1 exactly when a [get] at the same instant would
    have returned a value, and 0 otherwise; afterwards, and through any calls
    that do not write the key again, [get] returns [None] and a second
    [delete] returns 0. *)
Theorem delete_then_absent (key : str) (t0 t1 : Z) (self : t) (cs : list (call * Z)) :
  Forall (fun c => ¬ overwrites key c.1) cs →
  let after := run_calls cs (delete key t0 self).2 in
  (delete key t0 self).1 = match (get key t0 self).1 with Some _ => 1 | None => 0 end
  ∧ (get key t1 after).1 = None
  ∧ (delete key t1 after).1 = 0.
Proof.
  intros Hcs after.
  assert (Hn : _kv after !! key = None).
  { apply run_calls_absent; [done|]. unfold delete, pop. cbn. by rewrite lookup_delete_eq. }
  apply (cleanup_kv_None t1) in Hn.
  split; [|split].
  - unfold delete, get. cbn [fst].
    destruct (_kv (_cleanup t0 self) !! key) eqn:E; cbn [fmap option_fmap option_map].
    + by rewrite bool_decide_eq_true_2.
    + rewrite bool_decide_eq_false_2; [done|]. by intros [? ?].
  - unfold get. cbn [fst]. by rewrite Hn.
  - unfold delete. cbn [fst]. rewrite Hn.
    rewrite bool_decide_eq_false_2; [done|]. by intros [? ?].
Qed.
End store_sets.

Section store_sets_examples.
Import AsyncMemoryRedis.

Lemma delete_then_absent_witness :
  (delete (u8 "k") 5 (setex (u8 "k") 60 (VInt 7) 1 2 __init__).2).1 = 1
  ∧ (get (u8 "k") 7 (run_calls [(Hset (u8 "k") ∅, 6)]
                       (delete (u8 "k") 5 (setex (u8 "k") 60 (VInt 7) 1 2 __init__).2).2)).1
    = None.
Proof.
  destruct (delete_then_absent (H := Demo.platform) (u8 "k") 5 7
              (setex (u8 "k") 60 (VInt 7) 1 2 __init__).2 [(Hset (u8 "k") ∅, 6)])
    as (H1 & H2 & _).
  - apply Forall_cons; split; [intros []|by apply Forall_nil].
  - split; [|exact H2]. rewrite H1. vm_compute. reflexivity.
Defined.
End store_sets_examples.

(** ** Tokens and sessions *)

Lemma lstrip_head (s : str) (c : N) : head (lstrip s) = Some c → isspace c = false.
Proof.
  induction s as [|a s IH]; cbn [lstrip]; [done|].
  destruct (isspace a) eqn:Ea; [exact IH|]. cbn. by intros [= <-].
Qed.

Lemma lstrip_snoc (s : str) (c : N) :
  isspace c = false → ∃ l, lstrip (s ++ [c]) = l ++ [c].
Proof.
  intros Hc. induction s as [|a s IH]; cbn [lstrip app].
  - rewrite Hc. by exists [].
  - destruct (isspace a); [exact IH|]. by exists (a :: s).
Qed.

Lemma lstrip_spaces (s : str) : forallb isspace s = true → lstrip s = [].
Proof.
  induction s as [|a s IH]; cbn [forallb lstrip]; [done|].
  intros [Ha Hs]%andb_prop. rewrite Ha. by apply IH.
Qed.

Lemma strip_trimmed (s : str) : trimmed (strip s).
Proof.
  unfold strip, rstrip. split.
  - intros c. destruct (lstrip s) as [|a r] eqn:E; [done|].
    assert (Ha : isspace a = false) by (apply (lstrip_head s); by rewrite E).
    cbn [rev]. destruct (lstrip_snoc (rev r) a Ha) as [l ->].
    rewrite rev_app_distr. cbn. by intros [= <-].
  - intros c. rewrite rev_involutive. apply lstrip_head.
Qed.

Lemma strip_spaces (s : str) : forallb isspace s = true → strip s = [].
Proof. intros Hs. unfold strip. by rewrite lstrip_spaces. Qed.

Section tokens.
Context `{Platform}.

(** X8. [require_token] never touches the world and has two outcomes only:
    401 "Unauthorized", or the trimmed credentials, and then the token is
    not empty, has no white space at either end, and the lower-cased scheme
    starts with "bearer". Without credentials the outcome is the 401. *)
Theorem require_token_trimmed (creds : option HTTPAuthorizationCredentials.t) (w : world) :
  require_token creds w = (Raise unauthorized, w)
  ∨ ∃ c, creds = Some c
      ∧ require_token creds w = (Ok (strip (HTTPAuthorizationCredentials.credentials c)), w)
      ∧ strip (HTTPAuthorizationCredentials.credentials c) ≠ []
      ∧ trimmed (strip (HTTPAuthorizationCredentials.credentials c))
      ∧ startswith (u8 "bearer") (lower (HTTPAuthorizationCredentials.scheme c)) = true.
Proof.
  unfold require_token. destruct creds as [c|]; [|by left].
  destruct (startswith _ _) eqn:Es; cbn [negb]; [|by left].
  destruct (strip _) as [|a r] eqn:Et; cbn [truthy negb]; [by left|].
  right. exists c. rewrite Et. repeat split; try done.
  - rewrite <- Et. apply strip_trimmed.
  - rewrite <- Et. apply strip_trimmed.
Qed.

(** X9. [register] checks the username before it touches the store: a
    username that is empty or all white space is refused with 400
    "Username required" and the world, the user counter included, is left
    as it was; without a store the answer is 500 "Redis not initialized". *)
Theorem register_blank_username (payload : RegisterRequest.t) (w : world) :
  forallb isspace (RegisterRequest.username payload) = true →
  auth.register payload w
  = (Raise (match redis_client w with
            | Some _ => HTTPException 400 (u8 "Username required")
            | None => HTTPException 500 (u8 "Redis not initialized")
            end), w).
Proof.
  intros Hs. unfold auth.register, bind, require_redis.
  destruct (redis_client w); [|done]. by rewrite strip_spaces.
Qed.
End tokens.

Lemma register_blank_username_witness :
  auth.register {| RegisterRequest.username := u8 "  	 "; RegisterRequest.password := u8 "x" |}
    Demo.registered
  = (Raise (HTTPException 400 (u8 "Username required")), Demo.registered).
Proof.
  rewrite (register_blank_username (H := Demo.platform)); [|reflexivity].
  reflexivity.
Defined.

Section sessions.
Context `{Platform}.
Import AsyncMemoryRedis.

Lemma strip_strip (s : str) : strip (strip s) = strip s.
Proof.
  destruct (strip_trimmed s) as [Hh Hl]. unfold strip at 1.
  assert (El : lstrip (strip s) = strip s).
  { destruct (strip s) as [|a r]; [done|]. cbn [lstrip]. by rewrite (Hh a). }
  rewrite El. unfold rstrip.
  assert (Er : lstrip (rev (strip s)) = rev (strip s)).
  { destruct (rev (strip s)) as [|a r]; [done|]. cbn [lstrip]. by rewrite (Hl a). }
  rewrite Er. apply rev_involutive.
Qed.

(** [register] as the store calls it makes, for a username that is not
    blank and a readable user counter. *)
Lemma register_run (w : world) (self : t) (payload : RegisterRequest.t) (n : Z) :
  let username := strip (RegisterRequest.username payload) in
  let binding := u8 "user:byname:" ++ username in
  redis_client w = Some self →
  username ≠ [] →
  counter (_cleanup (now w) self) (u8 "users:seq") = Some n →
  auth.register payload w
  = (let s1 := (incr (u8 "users:seq") (now w) self).2 in
     let r := set binding (VInt (n + 1)) true (later w 2) s1 in
     if negb r.1
     then (Raise (HTTPException 409 (u8 "Username already exists")), after w 3 1 r.2)
     else
       let mapping :=
         list_to_map
           [(u8 "id", str_of_Z (n + 1)); (u8 "username", username);
            (u8 "password_hash",
             bcrypt_hash (urandom w (urandom_reads w)) (RegisterRequest.password payload));
            (u8 "created_at", datetime_isoformat (later w 1))] in
       (Ok {| UserPublic.id := str_of_Z (n + 1); UserPublic.username := username |},
        after w 4 1 (hset (u8 "user:" ++ str_of_Z (n + 1)) mapping (later w 3) r.2).2)).
Proof.
  intros username binding Hc Hu Hn0.
  assert (Ht : truthy username = true) by (by destruct username).
  unfold auth.register. step_with require_redis_Some.
  fold username. rewrite Ht. cbn [negb].
  erewrite bind_Ok; [| eapply await_incr_Some; [client|exact Hn0]]; cbv beta.
  step_with @_now_iso_Some.
  erewrite bind_Ok; [| apply os_urandom_run]; cbv beta.
  erewrite bind_Ok; [| eapply await_Some; client]; cbv beta.
  fold binding. cbv zeta.
  set (s1 := (incr (u8 "users:seq") (now w) self).2).
  change (now (draw (tick (tick w s1) s1))) with (later w 2).
  destruct (set binding (VInt (n + 1)) true (later w 2) s1).1; cbn [negb]; [|reflexivity].
  erewrite bind_Ok; [| eapply await_Some; client]; cbv beta.
  reflexivity.
Qed.

(** [login] as the store calls it makes. *)
Lemma login_run (w : world) (self : t) (payload : LoginRequest.t) :
  redis_client w = Some self →
  auth.login payload w
  = (let s0 := _cleanup (now w) self in
     let invalid := HTTPException 401 (u8 "Invalid credentials") in
     match py_str <$> _kv s0 !! (u8 "user:byname:" ++ strip (LoginRequest.username payload)) with
     | Some ((_ :: _) as uid) =>
         let data := default ∅ (_hash self !! (u8 "user:" ++ uid)) in
         let s1 := _cleanup (later w 1) s0 in
         if decide (data = ∅) then (Raise invalid, after w 2 0 s1)
         else
           match bcrypt_verify (LoginRequest.password payload)
                   (default [] (data !! u8 "password_hash")) with
           | None => (Raise ValueError, after w 2 0 s1)
           | Some false => (Raise invalid, after w 2 0 s1)
           | Some true =>
               let token := urandom w (urandom_reads w) in
               match data !! u8 "id" with
               | None => (Raise KeyError, after w 2 1 s1)
               | Some id =>
                   let s2 := (setex (u8 "session:" ++ token) get_session_ttl_seconds
                                (VStr id) (later w 2) (later w 3) s1).2 in
                   (Ok {| LoginResponse.token := token |},
                    after w 5 1
                      (sadd (u8 "user:sessions:" ++ id) [VStr token] (later w 4) s2).2)
               end
           end
     | _ => (Raise invalid, after w 1 0 s0)
     end).
Proof.
  intros Hc. unfold auth.login.
  step_with require_redis_Some.
  unfold bind at 1. rewrite (_get_user_by_username_run _ _ _ Hc). cbv zeta.
  destruct (py_str <$> _) as [[|c uid]|]; cbn [raise]; try reflexivity.
  destruct (decide _) as [?|Hdata]; [reflexivity|].
  destruct (bcrypt_verify _ _) as [[|]|]; try reflexivity.
  unfold generate_token.
  erewrite bind_Ok; [| apply os_urandom_run]; cbv beta.
  unfold getitem at 1.
  destruct (_ !! u8 "id") as [id|]; [|reflexivity].
  erewrite bind_Ok; [| reflexivity]; cbv beta.
  erewrite bind_Ok; [| eapply await2_Some; client]; cbv beta.
  erewrite bind_Ok; [| eapply await_Some; client]; cbv beta.
  reflexivity.
Qed.

(** [me] as the store calls it makes. *)
Lemma me_run (w : world) (self : t) (token : str) :
  redis_client w = Some self →
  auth.me token w
  = (let s0 := _cleanup (now w) self in
     match py_str <$> _kv s0 !! (u8 "session:" ++ token) with
     | Some ((_ :: _) as uid) =>
         let user := default ∅ (_hash self !! (u8 "user:" ++ uid)) in
         ((if decide (user = ∅) then Raise unauthorized
           else match user !! u8 "id", user !! u8 "username" with
                | Some id, Some username =>
                    Ok {| UserPublic.id := id; UserPublic.username := username |}
                | _, _ => Raise KeyError
                end),
          after w 2 0 (_cleanup (later w 1) s0))
     | _ => (Raise unauthorized, after w 1 0 s0)
     end).
Proof.
  intros Hc. unfold auth.me. unfold bind at 1.
  rewrite (_resolve_user_from_token_run _ _ _ Hc). cbv zeta.
  destruct (py_str <$> _) as [[|c uid]|]; try reflexivity.
  destruct (decide _); [reflexivity|].
  unfold getitem, bind, ret, raise.
  destruct (_ !! u8 "id"); [|reflexivity]. by destruct (_ !! u8 "username").
Qed.
End sessions.

Section round_trip.
Context `{Platform}.
Import AsyncMemoryRedis.

(** The store after a registration that succeeds: the binding is
    persistent and the record carries the identity and the hash. *)
Lemma register_Ok_store (w : world) (self : t) (payload : RegisterRequest.t) (n : Z) :
  let username := strip (RegisterRequest.username payload) in
  let binding := u8 "user:byname:" ++ username in
  let id := str_of_Z (n + 1) in
  redis_client w = Some self →
  username ≠ [] →
  counter (_cleanup (now w) self) (u8 "users:seq") = Some n →
  _kv self !! binding = None →
  ∃ s4 record,
    auth.register payload w
    = (Ok {| UserPublic.id := id; UserPublic.username := username |}, after w 4 1 s4)
    ∧ _kv s4 !! binding = Some (VInt (n + 1))
    ∧ _ttl s4 !! binding = None
    ∧ _hash s4 !! (u8 "user:" ++ id) = Some record
    ∧ record !! u8 "id" = Some id
    ∧ record !! u8 "username" = Some username
    ∧ record !! u8 "password_hash"
      = Some (bcrypt_hash (urandom w (urandom_reads w)) (RegisterRequest.password payload)).
Proof.
  intros username binding id Hc Hu Hn0 Hv.
  assert (Hne : u8 "users:seq" ≠ binding) by apply seq_ne_binding.
  rewrite (register_run w self payload n Hc Hu Hn0). cbv zeta. fold username binding id.
  set (s1 := (incr (u8 "users:seq") (now w) self).2).
  pose proof (set_nx_spec binding (VInt (n + 1)) (later w 2) s1) as Hset. cbv zeta in Hset.
  assert (_kv (_cleanup (later w 2) s1) !! binding = None) as Hb.
  { apply cleanup_kv_None. subst s1. rewrite incr_kv_ne by done. by apply cleanup_kv_None. }
  rewrite Hb in Hset. destruct Hset as (Hok & Hkv & Httl & Hh & Hss).
  rewrite Hok. cbn [negb].
  assert (Hl : live (later w 3) (set binding (VInt (n + 1)) true (later w 2) s1).2 binding).
  { unfold live. rewrite Httl. by rewrite lookup_delete_eq. }
  eexists _, _. split; [reflexivity|].
  split; [|split; [|split; [|split; [|split]]]].
  - rewrite hset_kv, cleanup_kv_live by done. rewrite Hkv. apply lookup_insert_eq.
  - rewrite hset_ttl, cleanup_ttl_live by done. rewrite Httl. apply lookup_delete_eq.
  - rewrite hset_hash. apply lookup_insert_eq.
  - apply lookup_union_Some_l. reflexivity.
  - apply lookup_union_Some_l. reflexivity.
  - apply lookup_union_Some_l. reflexivity.
Qed.

(** X10. Registration, login and [me] compose: when the username is not
    blank and not taken, the user counter reads as [n], the hash that
    [register] stores verifies against the password, and the session,
    whose deadline is the binary64 sum of the eighth clock reading and the
    session TTL, has not run out by the two readings that follow, then
    [register] (four readings) returns the identity with id [n + 1] and the
    trimmed username, [login] with the same credentials (five readings, two
    of them in [setex]) returns the next random draw as the token, and [me]
    with that token returns the same identity. *)
Theorem register_login_me (w : world) (self : t) (payload : RegisterRequest.t) (n : Z) :
  let username := strip (RegisterRequest.username payload) in
  let identity := {| UserPublic.id := str_of_Z (n + 1); UserPublic.username := username |} in
  let token := urandom w (S (urandom_reads w)) in
  redis_client w = Some self →
  username ≠ [] →
  counter (_cleanup (now w) self) (u8 "users:seq") = Some n →
  _kv self !! (u8 "user:byname:" ++ username) = None →
  bcrypt_verify (RegisterRequest.password payload)
    (bcrypt_hash (urandom w (urandom_reads w)) (RegisterRequest.password payload)) = Some true →
  later w 8 < float_add (later w 7) get_session_ttl_seconds →
  later w 9 < float_add (later w 7) get_session_ttl_seconds →
  ∃ s1 s2 s3,
    auth.register payload w = (Ok identity, after w 4 1 s1)
    ∧ auth.login (credentials_of payload) (after w 4 1 s1)
      = (Ok {| LoginResponse.token := token |}, after w 9 2 s2)
    ∧ auth.me token (after w 9 2 s2) = (Ok identity, after w 11 2 s3).
Proof.
  intros username identity token Hc Hu Hn0 Hv Hpw H8 H9.
  destruct (register_Ok_store w self payload n Hc Hu Hn0 Hv)
    as (s4 & record & Hreg & Hkv & Httl & Hrec & Hid & Hname & Hhash).
  fold username in Hreg, Hkv, Httl, Hname.
  pose proof (str_of_Z_nonempty (n + 1)) as Hne.
  subst identity. destruct (str_of_Z (n + 1)) as [|c uid] eqn:Ev; [done|].
  exists s4. rewrite Hreg.
  assert (Hlogin : ∃ s2, auth.login (credentials_of payload) (after w 4 1 s4)
            = (Ok {| LoginResponse.token := token |}, after w 9 2 s2)
            ∧ _kv s2 !! (u8 "session:" ++ token) = Some (VStr (c :: uid))
            ∧ _ttl s2 !! (u8 "session:" ++ token) = Some (float_add (later w 7) get_session_ttl_seconds)
            ∧ _hash s2 = _hash s4).
  { rewrite (login_run (after w 4 1 s4) s4 _ eq_refl). cbv zeta.
    cbn [credentials_of LoginRequest.username LoginRequest.password]. fold username.
    change (now (after w 4 1 s4)) with (later w 4).
    rewrite cleanup_kv_live by (unfold live; by rewrite Httl).
    rewrite Hkv. cbn [fmap option_fmap option_map py_str]. rewrite Ev.
    rewrite Hrec. cbn [from_option id].
    rewrite decide_False by (intros ->; by rewrite lookup_empty in Hid).
    rewrite Hhash. cbn [from_option id]. rewrite Hpw. rewrite Hid.
    eexists. split; [reflexivity|].
    change (later (after w 4 1 s4) 4) with (later w 8).
    change (later (after w 4 1 s4) 3) with (later w 7).
    change (later (after w 4 1 s4) 2) with (later w 6).
    change (urandom (after w 4 1 s4) (urandom_reads (after w 4 1 s4))) with token.
    unfold sadd. cbn [snd _kv _ttl _hash].
    assert (Hl : live (later w 8)
              (setex (u8 "session:" ++ token) get_session_ttl_seconds (VStr (c :: uid))
                 (later w 6) (later w 7)
                 (_cleanup (later (after w 4 1 s4) 1) (_cleanup (later w 4) s4))).2
              (u8 "session:" ++ token)).
    { unfold live. cbn [setex snd _ttl]. rewrite lookup_insert_eq. exact H8. }
    rewrite cleanup_kv_live, cleanup_ttl_live by exact Hl.
    rewrite cleanup_hash. cbn [setex snd _kv _ttl _hash].
    rewrite !lookup_insert_eq, !cleanup_hash. done. }
  destruct Hlogin as (s2 & Hlogin & Hskv & Hsttl & Hsh).
  exists s2. rewrite Hlogin. eexists. split; [reflexivity|]. split; [reflexivity|].
  rewrite (me_run (after w 9 2 s2) s2 _ eq_refl). cbv zeta.
  change (now (after w 9 2 s2)) with (later w 9).
  rewrite cleanup_kv_live by (unfold live; by rewrite Hsttl).
  rewrite Hskv. cbn [fmap option_fmap option_map py_str].
  rewrite Hsh, Hrec. cbn [from_option id].
  rewrite decide_False by (intros ->; by rewrite lookup_empty in Hid).
  rewrite Hid, Hname. reflexivity.
Qed.
End round_trip.

Section round_trip_examples.
Import AsyncMemoryRedis.

Lemma register_login_me_witness :
  ∃ s1 s2 s3,
    auth.register Demo.alice (Demo.boot 100)
    = (Ok {| UserPublic.id := u8 "1"; UserPublic.username := u8 "alice" |},
       after (Demo.boot 100) 4 1 s1)
    ∧ auth.login (credentials_of Demo.alice) (after (Demo.boot 100) 4 1 s1)
      = (Ok {| LoginResponse.token := u8 "r1" |}, after (Demo.boot 100) 9 2 s2)
    ∧ auth.me (u8 "r1") (after (Demo.boot 100) 9 2 s2)
      = (Ok {| UserPublic.id := u8 "1"; UserPublic.username := u8 "alice" |},
         after (Demo.boot 100) 11 2 s3).
Proof.
  apply (register_login_me (H := Demo.platform) (Demo.boot 100) __init__ Demo.alice 0).
  - reflexivity.
  - intros E. vm_compute in E. discriminate.
  - reflexivity.
  - reflexivity.
  - vm_compute. reflexivity.
  - vm_compute. reflexivity.
  - vm_compute. reflexivity.
Defined.
End round_trip_examples.

Section revocation.
Context `{Platform}.
Import AsyncMemoryRedis.

Lemma cleanup_kv_Some (now : Z) (self : t) (k : str) (v : pyval) :
  _kv (_cleanup now self) !! k = Some v → _kv self !! k = Some v.
Proof. unfold _cleanup. rewrite pops_kv. by case_decide. Qed.

Lemma cleanup_unresolvable (now : Z) (self : t) (k : str) :
  unresolvable self k → unresolvable (_cleanup now self) k.
Proof. intros Hu v Hv. apply Hu. by apply cleanup_kv_Some in Hv. Qed.

Lemma run_call_unresolvable (c : call) (tc : Z) (self : t) (k : str) :
  ¬ overwrites k c → unresolvable self k → unresolvable (run_call c tc self) k.
Proof.
  intros Hw Hu. pose proof (cleanup_unresolvable tc self k Hu) as Hc.
  destruct c as [key|key value nx|key ttl value now2|key|key mapping|key|key members
                |key members|key|key member|key|key];
    cbn [run_call overwrites] in *; try exact Hc; intros v.
  - unfold set. destruct (nx && _); [apply Hc|]. cbn. rewrite lookup_insert_ne by done. apply Hc.
  - cbn. rewrite lookup_insert_ne by done. apply Hc.
  - rewrite incr_kv_ne by done. apply Hc.
  - cbn. rewrite lookup_delete_ne by done. apply Hc.
Qed.

Lemma run_calls_unresolvable (cs : list (call * Z)) (self : t) (k : str) :
  Forall (fun c => ¬ overwrites k c.1) cs →
  unresolvable self k → unresolvable (run_calls cs self) k.
Proof.
  unfold run_calls. revert self. induction cs as [|[c tc] cs IH]; intros self Hcs Hu; [done|].
  apply Forall_cons in Hcs as [Hc Hcs]. cbn [fold_left fst snd] in *.
  apply IH; [done|]. by apply run_call_unresolvable.
Qed.

(** What a session lookup finds under an unresolvable key. *)
Lemma unresolvable_lookup (now : Z) (self : t) (k : str) :
  unresolvable self k →
  py_str <$> _kv (_cleanup now self) !! k = None
  ∨ py_str <$> _kv (_cleanup now self) !! k = Some [].
Proof.
  intros Hu. destruct (_kv (_cleanup now self) !! k) as [v|] eqn:E; [|by left].
  right. cbn. f_equal. apply (cleanup_unresolvable now self k Hu v E).
Qed.

(** X11. [logout] revokes the token: in the store that [logout] leaves, and
    after any further calls that do not write the session key again, the
    three ways the handlers resolve a token ([me] of the auth module,
    [_get_user_by_token] of the forum, the session lookup of the study
    handlers) all fail with 401 "Unauthorized". *)
Theorem logout_revokes (w : world) (self : t) (token : str) (cs : list (call * Z)) :
  redis_client w = Some self →
  Forall (fun c => ¬ overwrites (u8 "session:" ++ token) c.1) cs →
  ∃ s', (auth.logout token w).1 = Ok true
    ∧ redis_client (auth.logout token w).2 = Some s'
    ∧ ∀ w2, redis_client w2 = Some (run_calls cs s') →
        (auth.me token w2).1 = Raise unauthorized
        ∧ (forum._get_user_by_token token w2).1 = Raise unauthorized
        ∧ (study.session_uid token w2).1 = Raise unauthorized.
Proof.
  intros Hc Hcs.
  assert (Hs : ∃ s', (auth.logout token w).1 = Ok true
               ∧ redis_client (auth.logout token w).2 = Some s'
               ∧ unresolvable s' (u8 "session:" ++ token)).
  { rewrite (logout_run _ _ _ Hc). cbv zeta.
    destruct (py_str <$> _kv (_cleanup (now w) self) !! (u8 "session:" ++ token))
      as [[|c uid]|] eqn:E.
    - eexists. split; [reflexivity|]. split; [reflexivity|].
      intros v Hv. rewrite Hv in E. cbn in E. by apply (inj Some) in E.
    - eexists. split; [reflexivity|]. split; [reflexivity|].
      intros v Hv. exfalso. revert Hv. unfold srem. cbn [snd _kv]. intros Hv.
      apply cleanup_kv_Some in Hv. unfold pop in Hv. cbn [_kv] in Hv.
      by rewrite lookup_delete_eq in Hv.
    - eexists. split; [reflexivity|]. split; [reflexivity|].
      intros v Hv. rewrite Hv in E. discriminate. }
  destruct Hs as (s' & Hrun & Hc' & Hu). exists s'.
  split; [exact Hrun|]. split; [exact Hc'|].
  intros w2 Hc2.
  pose proof (run_calls_unresolvable cs s' _ Hcs Hu) as Hu2.
  rewrite (me_run _ _ _ Hc2), (_get_user_by_token_run _ _ _ Hc2), (session_uid_run _ _ _ Hc2).
  cbv zeta.
  by destruct (unresolvable_lookup (now w2) _ _ Hu2) as [-> | ->].
Qed.
End revocation.

Section revocation_examples.
Import AsyncMemoryRedis.

(** Alice logs out; her token [r2] is refused afterwards. *)
Lemma logout_revokes_witness :
  ∃ s', (auth.logout (u8 "r2") Demo.logged_in).1 = Ok true
    ∧ redis_client (auth.logout (u8 "r2") Demo.logged_in).2 = Some s'
    ∧ ∀ w2, redis_client w2 = Some (run_calls [(Incr (u8 "users:seq"), 200)] s') →
        (auth.me (u8 "r2") w2).1 = Raise unauthorized
        ∧ (forum._get_user_by_token (u8 "r2") w2).1 = Raise unauthorized
        ∧ (study.session_uid (u8 "r2") w2).1 = Raise unauthorized.
Proof.
  apply (logout_revokes (H := Demo.platform) Demo.logged_in (Demo.store Demo.logged_in)).
  - apply demo_store_Some. by_compute.
  - apply Forall_cons. split; [|by apply Forall_nil].
    cbn. intros E. vm_compute in E. discriminate.
Defined.
End revocation_examples.

(** ** Forum: what the owner can do *)

Section owner.
Context `{Platform}.
Import AsyncMemoryRedis.

Lemma flagged_union (data : gmap str str) : {[u8 "deleted" := u8 "1"]} ∪ data = flagged data.
Proof. unfold flagged. by rewrite insert_union_singleton_l. Qed.

(** A scalar that is live through two sweeps is kept by both. *)
Lemma cleanup2_kv (t1 t2 : Z) (self : t) (k : str) :
  live t1 self k → live t2 self k →
  _kv (_cleanup t2 (_cleanup t1 self)) !! k = _kv self !! k.
Proof.
  intros H1 H2. rewrite cleanup_kv_live; [by apply cleanup_kv_live|].
  by apply cleanup_live.
Qed.

(** X12. The owner's [delete_post] is a soft delete: for a visible post
    whose stored [author_id] is the caller's id it answers [{"ok": True}]
    after four store calls, sets the [deleted] field of the record to "1"
    and changes no other field, record or set; from then on [get_post] and
    a second [delete_post] answer 404 "Post not found". *)
Theorem owner_delete_post (w : world) (self : t) (post_id token : str)
  (data : gmap str str) (u : UserPublic.t) :
  redis_client w = Some self →
  _hash self !! (u8 "forum:post:" ++ post_id) = Some data →
  forum.visible data = true →
  authenticated w self token 2 u →
  data !! u8 "author_id" = Some (UserPublic.id u) →
  ∃ self',
    forum.delete_post post_id token w = (Ok true, after w 4 0 self')
    ∧ _hash self' = <[u8 "forum:post:" ++ post_id := flagged data]> (_hash self)
    ∧ _sets self' = _sets self
    ∧ (forum.get_post post_id (after w 4 0 self')).1
      = Raise (HTTPException 404 (u8 "Post not found"))
    ∧ ∀ token', (forum.delete_post post_id token' (after w 4 0 self')).1
                = Raise (HTTPException 404 (u8 "Post not found")).
Proof.
  intros Hc Hdata Hvis Hauth Hown.
  assert (Hauth1 : authenticated (tick w (_cleanup (now w) self)) (_cleanup (now w) self)
                     token 1 u).
  { apply (authenticated_tick w self); [done|done|done|apply cleanup_hash]. }
  assert (Hinv : forum.visible (flagged data) = false).
  { apply deleted_not_visible. unfold flagged. apply lookup_insert_eq. }
  eexists. split; [|split; [|split; [|split]]].
  - unfold forum.delete_post. step_with require_redis_Some.
    erewrite bind_Ok; [| eapply await_Some; client]; cbv beta.
    rewrite hgetall_fst, Hdata. cbn [from_option id]. rewrite Hvis. cbn [negb].
    erewrite bind_Ok; [| eapply _get_user_by_token_Ok]. 2: reflexivity. 2: exact Hauth1. cbv beta.
    rewrite bool_decide_eq_false_2 by (intros Hne; by apply Hne).
    erewrite bind_Ok; [| eapply await_Some; client]; cbv beta.
    reflexivity.
  - rewrite hset_hash. unfold hgetall. cbn [snd]. rewrite !cleanup_hash, Hdata.
    cbn [from_option id]. by rewrite flagged_union.
  - rewrite hset_sets. unfold hgetall. cbn [snd]. by rewrite !cleanup_sets.
  - unfold forum.get_post. step_with require_redis_Some.
    erewrite bind_Ok; [| eapply await_Some; client]; cbv beta.
    rewrite hgetall_fst, hset_hash, lookup_insert_eq. cbn [from_option id].
    unfold hgetall. cbn [snd]. rewrite !cleanup_hash, Hdata. cbn [from_option id].
    by rewrite flagged_union, Hinv.
  - intros token'. unfold forum.delete_post. step_with require_redis_Some.
    erewrite bind_Ok; [| eapply await_Some; client]; cbv beta.
    rewrite hgetall_fst, hset_hash, lookup_insert_eq. cbn [from_option id].
    unfold hgetall. cbn [snd]. rewrite !cleanup_hash, Hdata. cbn [from_option id].
    by rewrite flagged_union, Hinv.
Qed.

(** X13. The owner's [delete_comment] flags the comment record and nothing
    else: no scalar is written, so the post's [comments_cnt] (what
    [get_post] and [list_posts] report as the number of comments) still
    counts the deleted comment; a caller who is not the author gets 403
    "Forbidden" and a missing comment 404 "Comment not found", in both
    cases with every hash as it was. *)
Theorem delete_comment_keeps_count (w : world) (self : t) (comment_id post_id token : str)
  (u : UserPublic.t) :
  let key := u8 "forum:comment:" ++ post_id ++ u8 ":" ++ comment_id in
  let cnt := u8 "forum:post:" ++ post_id ++ u8 ":comments_cnt" in
  redis_client w = Some self →
  authenticated w self token 1 u →
  live_during w self cnt 4 →
  match _hash self !! key with
  | Some data =>
      if forum.visible data then
        if bool_decide (data !! u8 "author_id" = Some (UserPublic.id u)) then
          ∃ self',
            forum.delete_comment comment_id post_id token w = (Ok true, after w 4 0 self')
            ∧ _hash self' = <[key := flagged data]> (_hash self)
            ∧ _kv self' !! cnt = _kv self !! cnt
        else
          ∃ self',
            forum.delete_comment comment_id post_id token w
            = (Raise (HTTPException 403 (u8 "Forbidden")), after w 3 0 self')
            ∧ _hash self' = _hash self
      else
        ∃ self',
          forum.delete_comment comment_id post_id token w
          = (Raise (HTTPException 404 (u8 "Comment not found")), after w 3 0 self')
          ∧ _hash self' = _hash self
  | None =>
      ∃ self',
        forum.delete_comment comment_id post_id token w
        = (Raise (HTTPException 404 (u8 "Comment not found")), after w 3 0 self')
        ∧ _hash self' = _hash self
  end.
Proof.
  intros key cnt Hc Hauth Hl.
  pose proof (live_during_le _ _ _ _ 0 Hl ltac:(lia)) as Hl0.
  pose proof (live_during_le _ _ _ _ 1 Hl ltac:(lia)) as Hl1.
  pose proof (live_during_le _ _ _ _ 2 Hl ltac:(lia)) as Hl2.
  pose proof (live_during_le _ _ _ _ 3 Hl ltac:(lia)) as Hl3.
  assert (Hrun : forum.delete_comment comment_id post_id token w
    = (let s0 := _cleanup (now w) self in
       let s1 := _cleanup (later w 1) s0 in
       let s2 := _cleanup (later w 2) s1 in
       let data := default ∅ (_hash self !! key) in
       if negb (forum.visible data)
       then (Raise (HTTPException 404 (u8 "Comment not found")), after w 3 0 s2)
       else if bool_decide (data !! u8 "author_id" ≠ Some (UserPublic.id u))
       then (Raise (HTTPException 403 (u8 "Forbidden")), after w 3 0 s2)
       else (Ok true, after w 4 0 (hset key {[u8 "deleted" := u8 "1"]} (later w 3) s2).2))).
  { unfold forum.delete_comment. step_with require_redis_Some.
    erewrite bind_Ok; [| eapply _get_user_by_token_Ok]. 2: exact Hc. 2: exact Hauth. cbv beta.
    erewrite bind_Ok; [| eapply await_Some; client]; cbv beta.
    fold key. rewrite hgetall_fst, !cleanup_hash. cbv zeta.
    destruct (forum.visible _); cbn [negb]; [|reflexivity].
    destruct (bool_decide _); [reflexivity|].
    erewrite bind_Ok; [| eapply await_Some; client]; cbv beta.
    reflexivity. }
  rewrite Hrun. cbv zeta. clear Hrun.
  destruct (_hash self !! key) as [data|] eqn:Hdata; cbn [from_option id].
  - destruct (forum.visible data) eqn:Hvis; cbn [negb].
    + destruct (decide (data !! u8 "author_id" = Some (UserPublic.id u))) as [Hown|Hother].
      * rewrite (bool_decide_eq_true_2 _ Hown).
        rewrite bool_decide_eq_false_2 by (intros Hne; by apply Hne).
        eexists. split; [reflexivity|]. split.
        -- rewrite hset_hash, !cleanup_hash, Hdata. cbn [from_option id].
           by rewrite flagged_union.
        -- rewrite hset_kv.
           rewrite cleanup2_kv; [by apply cleanup2_kv| |];
             by repeat apply cleanup_live.
      * rewrite (bool_decide_eq_false_2 _ Hother). rewrite bool_decide_eq_true_2 by done.
        eexists. split; [reflexivity|]. by rewrite !cleanup_hash.
    + eexists. split; [reflexivity|]. by rewrite !cleanup_hash.
  - assert (Hv : forum.visible (∅ : gmap str str) = false).
    { unfold forum.visible. by rewrite bool_decide_eq_false_2 by (intros Hne; by apply Hne). }
    rewrite Hv. cbn [negb]. eexists. split; [reflexivity|]. by rewrite !cleanup_hash.
Qed.
End owner.

Section owner_examples.
Import AsyncMemoryRedis.

(** Alice deletes her post 1. *)
Lemma owner_delete_post_witness :
  ∃ self',
    forum.delete_post (u8 "1") (u8 "r3") Demo.forum_world
    = (Ok true, after Demo.forum_world 4 0 self')
    ∧ (forum.get_post (u8 "1") (after Demo.forum_world 4 0 self')).1
      = Raise (HTTPException 404 (u8 "Post not found")).
Proof.
  pose (alice := {| UserPublic.id := u8 "1"; UserPublic.username := u8 "alice" |}).
  destruct (owner_delete_post (H := Demo.platform) Demo.forum_world
              (Demo.store Demo.forum_world) (u8 "1") (u8 "r3")
              (default ∅ (_hash (Demo.store Demo.forum_world) !! u8 "forum:post:1")) alice)
    as (self' & E & _ & _ & Hget & _).
  - apply demo_store_Some. by_compute.
  - apply demo_record. by_compute.
  - by_compute.
  - demo_authenticated Demo.forum_world (VStr (u8 "1")).
  - by_compute.
  - exists self'. split; [exact E | exact Hget].
Defined.

(** Bob deletes the comment he wrote on post 1. *)
Lemma delete_comment_keeps_count_witness :
  let w := commented_world in
  match _hash (Demo.store w) !! u8 "forum:comment:1:1" with
  | Some data =>
      ∃ self',
        forum.delete_comment (u8 "1") (u8 "1") (u8 "r4") w = (Ok true, after w 4 0 self')
        ∧ _hash self' = <[u8 "forum:comment:1:1" := flagged data]> (_hash (Demo.store w))
        ∧ _kv self' !! u8 "forum:post:1:comments_cnt" = Some (VInt 1)
  | None => False
  end.
Proof.
  intros w.
  pose (bob := {| UserPublic.id := u8 "2"; UserPublic.username := u8 "bob" |}).
  pose proof (delete_comment_keeps_count w (Demo.store w)
                (u8 "1") (u8 "1") (u8 "r4") bob) as Hm.
  cbv zeta in Hm.
  assert (Hc : redis_client w = Some (Demo.store w)) by (apply demo_store_Some; by_compute).
  assert (Ha : authenticated w (Demo.store w) (u8 "r4") 1 bob)
    by (demo_authenticated w (VStr (u8 "2"))).
  assert (Hl : live_during w (Demo.store w) (u8 "forum:post:1:comments_cnt") 4)
    by (vm_compute; repeat split).
  specialize (Hm Hc Ha Hl).
  change (u8 "forum:comment:" ++ u8 "1" ++ u8 ":" ++ u8 "1") with (u8 "forum:comment:1:1") in Hm.
  change (u8 "forum:post:" ++ u8 "1" ++ u8 ":comments_cnt")
    with (u8 "forum:post:1:comments_cnt") in Hm.
  destruct (_hash (Demo.store w) !! u8 "forum:comment:1:1") as [data|] eqn:Ed.
  - assert (Hv : forum.visible (default ∅ (_hash (Demo.store w) !! u8 "forum:comment:1:1")) = true)
      by by_compute.
    assert (Ho : bool_decide (default ∅ (_hash (Demo.store w) !! u8 "forum:comment:1:1")
                                !! u8 "author_id" = Some (UserPublic.id bob)) = true)
      by by_compute.
    rewrite Ed in Hv, Ho. cbn [from_option id] in Hv, Ho.
    rewrite Hv, Ho in Hm. destruct Hm as (self' & E & Hh & Hk).
    exists self'. split; [exact E|]. split; [exact Hh|]. rewrite Hk. by_compute.
  - exfalso. assert (Hs : is_Some (_hash (Demo.store w) !! u8 "forum:comment:1:1")) by by_compute.
    rewrite Ed in Hs. by destruct Hs.
Defined.
End owner_examples.

Section posting.
Context `{Platform}.
Import AsyncMemoryRedis.

(** X14. [create_post] and [get_post] compose: for an authenticated caller
    and a post counter that reads as [n], [create_post] returns the post
    with id [n + 1], the caller's username as author, no likes and no
    comments, and leaves the counter at [n + 1]; if no likes and no comment
    counter are already stored under that id, [get_post] of the new id
    returns the very same post. *)
Theorem create_post_then_get_post (w : world) (self : t) (payload : PostCreate.t)
  (token : str) (u : UserPublic.t) (n : Z) :
  let seq := u8 "forum:post_seq" in
  let pid := str_of_Z (n + 1) in
  let p := {| PostPublic.id := pid;
              PostPublic.title := PostCreate.title payload;
              PostPublic.content := PostCreate.content payload;
              PostPublic.author := UserPublic.username u;
              PostPublic.likes := 0;
              PostPublic.comments := 0;
              PostPublic.createdAt := datetime_isoformat (later w 3) |} in
  redis_client w = Some self →
  authenticated w self token 1 u →
  counter self seq = Some n →
  live_during w self seq 5 →
  ∃ self',
    forum.create_post payload token w = (Ok p, after w 5 0 self')
    ∧ counter self' seq = Some (n + 1)
    ∧ (likes_of self pid = ∅ →
       _kv self !! (u8 "forum:post:" ++ pid ++ u8 ":comments_cnt") = None →
       (forum.get_post pid (after w 5 0 self')).1 = Ok p).
Proof.
  intros seq pid p Hc Hauth Hn Hl.
  pose proof (live_during_le _ _ _ _ 0 Hl ltac:(lia)) as Hl0.
  pose proof (live_during_le _ _ _ _ 1 Hl ltac:(lia)) as Hl1.
  pose proof (live_during_le _ _ _ _ 2 Hl ltac:(lia)) as Hl2.
  assert (Hn2 : counter (_cleanup (later w 2) (_cleanup (later w 1) (_cleanup (now w) self)))
                  seq = Some n).
  { unfold counter. rewrite cleanup_kv_live by (by do 2 apply cleanup_live).
    by rewrite cleanup2_kv. }
  set (s0 := _cleanup (now w) self) in *.
  set (s1 := _cleanup (later w 1) s0) in *.
  set (s2 := (incr seq (later w 2) s1).2).
  set (mapping := (list_to_map
              [(u8 "id", pid);
               (u8 "title", PostCreate.title payload);
               (u8 "content", PostCreate.content payload);
               (u8 "author", UserPublic.username u);
               (u8 "author_id", UserPublic.id u);
               (u8 "created_at", datetime_isoformat (later w 3));
               (u8 "deleted", u8 "0")] : gmap str str)).
  set (key := u8 "forum:post:" ++ pid).
  exists (hset key mapping (later w 4) s2).2.
  assert (Hrec : _hash (hset key mapping (later w 4) s2).2 !! key
                 = Some (mapping ∪ default ∅ (_hash self !! key))).
  { rewrite hset_hash, lookup_insert_eq. unfold s2. rewrite incr_hash. unfold s1, s0.
    by rewrite !cleanup_hash. }
  split; [|split].
  - unfold forum.create_post. step_with require_redis_Some.
    erewrite bind_Ok; [| eapply _get_user_by_token_Ok]. 2: exact Hc. 2: exact Hauth. cbv beta.
    erewrite bind_Ok; [| eapply await_incr_Some; [client|exact Hn2]]; cbv beta.
    step_with @_now_iso_Some.
    erewrite bind_Ok; [| eapply await_Some; client]; cbv beta.
    reflexivity.
  - unfold counter. rewrite hset_kv. rewrite cleanup_kv_live.
    + unfold s2. by rewrite (incr_kv_eq _ _ _ _ Hn2).
    + apply incr_live. unfold s1, s0. do 2 apply cleanup_live.
      apply (live_during_le _ _ _ _ 4 Hl). lia.
  - intros Hlikes Hcnt.
    unfold forum.get_post. step_with require_redis_Some.
    erewrite bind_Ok; [| eapply await_Some; client]; cbv beta.
    fold key. rewrite hgetall_fst, Hrec. cbn [from_option id].
    assert (Hvis : forum.visible (mapping ∪ default ∅ (_hash self !! key)) = true).
    { unfold forum.visible. apply andb_true_intro. split.
      - apply bool_decide_eq_true_2. intros E.
        assert (E' : (mapping ∪ default ∅ (_hash self !! key)) !! u8 "id" = Some pid)
          by (apply lookup_union_Some_l; reflexivity).
        rewrite E in E'. by rewrite lookup_empty in E'.
      - apply bool_decide_eq_true_2.
        rewrite (lookup_union_Some_l _ _ _ (u8 "0")) by reflexivity.
        intros E. vm_compute in E. discriminate. }
    rewrite Hvis. cbn [negb].
    erewrite bind_Ok; [| eapply await_Some; client]; cbv beta.
    erewrite bind_Ok; [| eapply await_Some; client]; cbv beta.
    set (s3 := (hset key mapping (later w 4) s2).2) in *.
    assert (Hsc : (scard (u8 "forum:post:" ++ pid ++ u8 ":likes") (now (tick (after w 5 0 s3)
                     (hgetall key (now (after w 5 0 s3)) s3).2))
                     (hgetall key (now (after w 5 0 s3)) s3).2).1 = 0).
    { unfold scard, hgetall. cbn [fst snd]. rewrite !cleanup_sets. unfold s3.
      rewrite hset_sets. unfold s2. rewrite incr_sets. unfold s1, s0. rewrite !cleanup_sets.
      unfold likes_of in Hlikes. by rewrite Hlikes. }
    rewrite Hsc. clear Hsc.
    assert (Hg : ∀ t1 t2 t3, (get (u8 "forum:post:" ++ pid ++ u8 ":comments_cnt") t1
                   (scard (u8 "forum:post:" ++ pid ++ u8 ":likes") t2
                      (hgetall key t3 s3).2).2).1 = None).
    { intros t1 t2 t3. unfold get, scard, hgetall. cbn [fst snd].
      rewrite (cleanup_kv_None t1); [done|]. do 2 apply cleanup_kv_None.
      unfold s3. rewrite hset_kv.
      apply cleanup_kv_None. unfold s2. rewrite incr_kv_ne.
      - unfold s1, s0. by do 3 apply cleanup_kv_None.
      - subst seq pid. pose proof (str_of_Z_nonempty (n + 1)) as Hne.
        intros E. apply (f_equal (take 11)) in E. vm_compute in E. discriminate. }
    rewrite Hg. unfold int_or_0. erewrite bind_Ok; [| reflexivity]; cbv beta.
    unfold forum.post_public.
    erewrite bind_Ok; [| eapply _now_iso_Some; client]; cbv beta.
    cbn [ret fst]. f_equal. unfold p. f_equal.
    all: erewrite lookup_union_Some_l; reflexivity.
Qed.
End posting.

Section posting_examples.
Import AsyncMemoryRedis.

(** Alice creates the first post of the forum and reads it back. *)
Lemma create_post_then_get_post_witness :
  let w := Demo.members in
  let payload := {| PostCreate.title := u8 "T"; PostCreate.content := u8 "C" |} in
  let p := {| PostPublic.id := u8 "1";
              PostPublic.title := u8 "T";
              PostPublic.content := u8 "C";
              PostPublic.author := u8 "alice";
              PostPublic.likes := 0;
              PostPublic.comments := 0;
              PostPublic.createdAt := datetime_isoformat (later w 3) |} in
  ∃ self',
    forum.create_post payload (u8 "r3") w = (Ok p, after w 5 0 self')
    ∧ (forum.get_post (u8 "1") (after w 5 0 self')).1 = Ok p.
Proof.
  intros w payload p.
  pose (alice := {| UserPublic.id := u8 "1"; UserPublic.username := u8 "alice" |}).
  destruct (create_post_then_get_post (H := Demo.platform) w (Demo.store w) payload
              (u8 "r3") alice 0) as (self' & E & _ & G).
  - apply demo_store_Some. by_compute.
  - demo_authenticated w (VStr (u8 "1")).
  - reflexivity.
  - vm_compute. repeat split.
  - exists self'. split; [exact E|]. apply G; by_compute.
Defined.
End posting_examples.

Lemma forum_counters_check (s : AsyncMemoryRedis.t) :
  map_Forall (fun k v => startswith (u8 "forum:post") k = true → is_VInt v = true)
    (AsyncMemoryRedis._kv s) →
  forum_counters s.
Proof.
  intros Hm k v Hk Hs. specialize (Hm k v Hk Hs). destruct v as [n|]; [by exists n|done].
Qed.

Section updating.
Context `{PlatformSpec}.
Import AsyncMemoryRedis.

Lemma forum_counters_kv (s s' : t) : _kv s' = _kv s → forum_counters s → forum_counters s'.
Proof. intros E Hf k v. rewrite E. apply Hf. Qed.

Lemma update_mapping_lookup (payload : PostUpdate.t) (data : gmap str str) :
  default [] ((forum.update_mapping payload ∪ data) !! u8 "title")
  = updated (PostUpdate.title payload) (default [] (data !! u8 "title"))
  ∧ default [] ((forum.update_mapping payload ∪ data) !! u8 "content")
    = updated (PostUpdate.content payload) (default [] (data !! u8 "content"))
  ∧ ∀ k, k ≠ u8 "title" → k ≠ u8 "content" →
         (forum.update_mapping payload ∪ data) !! k = data !! k.
Proof.
  unfold forum.update_mapping, updated. cbv zeta.
  destruct (PostUpdate.title payload) as [title|], (PostUpdate.content payload) as [content|];
    cbn [default from_option id].
  - split; [|split].
    + erewrite lookup_union_Some_l; [reflexivity|].
      rewrite lookup_insert_ne by (intros E; vm_compute in E; discriminate).
      apply lookup_insert_eq.
    + erewrite lookup_union_Some_l; [reflexivity|]. apply lookup_insert_eq.
    + intros k H1 H2. rewrite lookup_union_r; [done|].
      rewrite !lookup_insert_ne by done. apply lookup_empty.
  - split; [|split].
    + erewrite lookup_union_Some_l; [reflexivity|]. apply lookup_insert_eq.
    + rewrite lookup_union_r; [done|].
      rewrite lookup_insert_ne by (intros E; vm_compute in E; discriminate).
      apply lookup_empty.
    + intros k H1 H2. rewrite lookup_union_r; [done|].
      rewrite !lookup_insert_ne by done. apply lookup_empty.
  - split; [|split].
    + rewrite lookup_union_r; [done|].
      rewrite lookup_insert_ne by (intros E; vm_compute in E; discriminate).
      apply lookup_empty.
    + erewrite lookup_union_Some_l; [reflexivity|]. apply lookup_insert_eq.
    + intros k H1 H2. rewrite lookup_union_r; [done|].
      rewrite !lookup_insert_ne by done. apply lookup_empty.
  - rewrite (left_id_L ∅ (∪)). done.
Qed.

(** The tail of [update_post]: the counts and the record are read back
    and projected. *)
Lemma update_post_tail (post_id : str) (w : world) (s : t) :
  let key := u8 "forum:post:" ++ post_id in
  let final := default ∅ (_hash s !! key) in
  redis_client w = Some s →
  forum_counters s →
  ∃ p w' s',
    (let! likes := await (scard (u8 "forum:post:" ++ post_id ++ u8 ":likes")) in
     let! cnt := await (get (u8 "forum:post:" ++ post_id ++ u8 ":comments_cnt")) in
     let! comments := int_or_0 cnt in
     let! final := await (hgetall (u8 "forum:post:" ++ post_id)) in
     forum.post_public post_id final likes comments) w = (Ok p, w')
    ∧ redis_client w' = Some s'
    ∧ PostPublic.id p = post_id
    ∧ PostPublic.title p = default [] (final !! u8 "title")
    ∧ PostPublic.content p = default [] (final !! u8 "content")
    ∧ PostPublic.author p = default (u8 "匿名宁友") (final !! u8 "author")
    ∧ PostPublic.likes p = Z.of_nat (size (likes_of s post_id))
    ∧ _hash s' = _hash s
    ∧ _sets s' = _sets s.
Proof.
  intros key final Hc Hf.
  erewrite bind_Ok; [| eapply await_Some; client]; cbv beta.
  erewrite bind_Ok; [| eapply await_Some; client]; cbv beta.
  edestruct (int_or_0_counter (u8 "forum:post:" ++ post_id ++ u8 ":comments_cnt"))
    as [n Hn]; [| apply comments_cnt_key |].
  2:{ erewrite bind_Ok; [| apply Hn]; cbv beta.
      erewrite bind_Ok; [| eapply await_Some; client]; cbv beta.
      unfold forum.post_public.
      erewrite bind_Ok; [| eapply _now_iso_Some; client]; cbv beta.
      eexists _, _, _. split; [reflexivity|]. split; [reflexivity|].
      cbn [PostPublic.id PostPublic.title PostPublic.content PostPublic.author
           PostPublic.likes].
      rewrite hgetall_fst. unfold get, scard, hgetall. cbn [fst snd].
      rewrite !cleanup_hash, !cleanup_sets. done. }
  unfold scard. cbn [snd]. by apply cleanup_forum_counters.
Qed.

(** X15. The owner's [update_post] replaces exactly the fields it is given:
    for a visible post whose [author_id] is the caller's id (and forum
    counters that are [int]s) it returns the post with [title] and
    [content] replaced where the request carries them and kept where it
    does not, with the stored author and the current number of likes; the
    record in the store is the old one overridden by the given fields, and
    no other record or set changes. A request with neither field is
    answered with the post as it is and writes nothing. *)
Theorem owner_update_post (w : world) (self : t) (post_id token : str)
  (payload : PostUpdate.t) (data : gmap str str) (u : UserPublic.t) :
  let key := u8 "forum:post:" ++ post_id in
  redis_client w = Some self →
  forum_counters self →
  _hash self !! key = Some data →
  forum.visible data = true →
  authenticated w self token 2 u →
  data !! u8 "author_id" = Some (UserPublic.id u) →
  ∃ p w' self',
    forum.update_post post_id payload token w = (Ok p, w')
    ∧ redis_client w' = Some self'
    ∧ PostPublic.id p = post_id
    ∧ PostPublic.title p = updated (PostUpdate.title payload) (default [] (data !! u8 "title"))
    ∧ PostPublic.content p
      = updated (PostUpdate.content payload) (default [] (data !! u8 "content"))
    ∧ PostPublic.author p = default (u8 "匿名宁友") (data !! u8 "author")
    ∧ PostPublic.likes p = Z.of_nat (size (likes_of self post_id))
    ∧ _hash self' = <[key := forum.update_mapping payload ∪ data]> (_hash self)
    ∧ _sets self' = _sets self
    ∧ (PostUpdate.title payload = None → PostUpdate.content payload = None →
       _hash self' = _hash self).
Proof.
  intros key Hc Hf Hdata Hvis Hauth Hown. unfold key in *. clear key.
  assert (Hauth1 : authenticated (tick w (_cleanup (now w) self)) (_cleanup (now w) self)
                     token 1 u).
  { apply (authenticated_tick w self); [done|done|done|apply cleanup_hash]. }
  destruct (update_mapping_lookup payload data) as (Ht & Hcn & Hk).
  set (mapping := forum.update_mapping payload) in *.
  unfold forum.update_post. step_with require_redis_Some.
  erewrite bind_Ok; [| eapply await_Some; client]; cbv beta.
  rewrite hgetall_fst, Hdata. cbn [from_option id]. rewrite Hvis. cbn [negb].
  erewrite bind_Ok; [| eapply _get_user_by_token_Ok]. 2: reflexivity. 2: exact Hauth1. cbv beta.
  rewrite bool_decide_eq_false_2 by (intros Hne; by apply Hne).
  cbv zeta. fold mapping.
  destruct (decide (mapping = ∅)) as [He|Hne].
  - erewrite bind_Ok; [| reflexivity]; cbv beta.
    match goal with |- context [bind (await (scard _)) _ ?W] =>
      edestruct (update_post_tail post_id W)
        as (p & w' & s' & E & Hc' & Hid & Hti & Hco & Hau & Hli & Hh & Hs);
        [reflexivity| |]
    end.
    2:{ rewrite E. exists p, w', s'. split; [reflexivity|]. split; [exact Hc'|].
        unfold hgetall in *. cbn [snd] in *.
        rewrite !cleanup_hash, Hdata in Hti, Hco, Hau. cbn [from_option id] in Hti, Hco, Hau.
        rewrite !cleanup_hash in Hh. rewrite !cleanup_sets in Hs.
        rewrite He, (left_id_L ∅ (∪)) in Ht, Hcn.
        split; [exact Hid|]. split; [by rewrite Hti, <- Ht|]. split; [by rewrite Hco, <- Hcn|].
        split; [exact Hau|].
        split; [rewrite Hli; unfold likes_of; by rewrite !cleanup_sets|].
        split; [rewrite Hh, He, (left_id_L ∅ (∪)); by rewrite insert_id|].
        split; [exact Hs|]. intros _ _. exact Hh. }
    unfold hgetall. cbn [snd]. by repeat apply cleanup_forum_counters.
  - erewrite bind_Ok.
    2:{ erewrite bind_Ok; [| eapply await_Some; client]. reflexivity. }
    cbv beta.
    match goal with |- context [bind (await (scard _)) _ ?W] =>
      edestruct (update_post_tail post_id W)
        as (p & w' & s' & E & Hc' & Hid & Hti & Hco & Hau & Hli & Hh & Hs);
        [reflexivity| |]
    end.
    2:{ rewrite E. exists p, w', s'. split; [reflexivity|]. split; [exact Hc'|].
        rewrite hset_hash, lookup_insert_eq in Hti, Hco, Hau.
        unfold hgetall in *. cbn [snd] in *.
        rewrite !cleanup_hash, Hdata in Hti, Hco, Hau. cbn [from_option id] in Hti, Hco, Hau.
        rewrite hset_hash, !cleanup_hash, Hdata in Hh. cbn [from_option id] in Hh.
        rewrite hset_sets, !cleanup_sets in Hs.
        split; [exact Hid|]. split; [by rewrite Hti|]. split; [by rewrite Hco|].
        split; [rewrite Hau, Hk; [done|discriminate|discriminate]|].
        split; [rewrite Hli; unfold likes_of; by rewrite hset_sets, !cleanup_sets|].
        split; [exact Hh|].
        split; [exact Hs|]. intros Et Ec. exfalso. apply Hne.
        unfold mapping, forum.update_mapping. by rewrite Et, Ec. }
    eapply forum_counters_kv; [apply hset_kv|].
    unfold hgetall. cbn [snd]. by repeat apply cleanup_forum_counters.
Qed.
End updating.

Section updating_examples.
Import AsyncMemoryRedis.

(** Alice retitles her post and leaves its content alone. *)
Lemma owner_update_post_witness :
  let w := Demo.forum_world in
  let payload := {| PostUpdate.title := Some (u8 "T2"); PostUpdate.content := None |} in
  ∃ p w' self',
    forum.update_post (u8 "1") payload (u8 "r3") w = (Ok p, w')
    ∧ redis_client w' = Some self'
    ∧ PostPublic.title p = u8 "T2"
    ∧ PostPublic.content p = u8 "C"
    ∧ PostPublic.author p = u8 "alice".
Proof.
  intros w payload.
  pose (alice := {| UserPublic.id := u8 "1"; UserPublic.username := u8 "alice" |}).
  destruct (owner_update_post w (Demo.store w) (u8 "1") (u8 "r3") payload
              (default ∅ (_hash (Demo.store w) !! u8 "forum:post:1")) alice)
    as (p & w' & self' & E & Hc' & _ & Ht & Hco & Hau & _).
  - apply demo_store_Some. by_compute.
  - apply forum_counters_check. by_compute.
  - apply demo_record. by_compute.
  - by_compute.
  - demo_authenticated w (VStr (u8 "1")).
  - by_compute.
  - exists p, w', self'. split; [exact E|]. split; [exact Hc'|].
    split; [rewrite Ht; by vm_compute|]. split; [rewrite Hco; by vm_compute|].
    rewrite Hau. by vm_compute.
Defined.
End updating_examples.

(** ** Forum: the page of posts *)

Lemma countdown_bound (i : nat) (j : Z) : j ∈ countdown i → 0 < j <= Z.of_nat i.
Proof.
  induction i as [|i IH]; cbn [countdown]; [by intros ?%elem_of_nil|].
  intros [->|Hj]%elem_of_cons; [lia|]. specialize (IH Hj). lia.
Qed.

Lemma countdown_NoDup (i : nat) : NoDup (countdown i).
Proof.
  induction i as [|i IH]; cbn [countdown]; constructor; [|done].
  intros Hj%countdown_bound. lia.
Qed.

Section page.
Context `{PlatformSpec}.
Import AsyncMemoryRedis.

Lemma str_of_Z_inj : Inj (=) (=) str_of_Z.
Proof.
  intros a b E. apply (inj Some). by rewrite <- !int_of_str_repr, E.
Qed.

(** One turn of the loop leaves the page alone or appends the post with
    the id at hand, and then only past the offset. *)
Lemma list_posts_step_inv (offset i count idx : Z) (items items' : list PostPublic.t)
  (count' : Z) (w w' : world) :
  forum.list_posts_step offset i count idx items w = (Ok (items', count'), w') →
  (items' = items ∧ count' = count)
  ∨ (offset <= idx ∧ count' = count + 1
     ∧ ∃ p, items' = items ++ [p] ∧ PostPublic.id p = str_of_Z i).
Proof.
  unfold forum.list_posts_step. cbv zeta.
  destruct (offset <=? idx) eqn:Eo.
  2:{ intros [[= <- <-] <-]%ret_inv. by left. }
  apply Z.leb_le in Eo.
  intros (data & w1 & E1 & E2)%bind_Ok_inv.
  destruct (forum.visible _).
  2:{ apply ret_inv in E2 as [[= <- <-] <-]. by left. }
  apply bind_Ok_inv in E2 as (likes & w2 & E2 & E3).
  apply bind_Ok_inv in E3 as (cnt & w3 & E3 & E4).
  apply bind_Ok_inv in E4 as (comments & w4 & E4 & E5).
  apply bind_Ok_inv in E5 as (p & w5 & E5 & E6).
  apply ret_inv in E6 as [[= <- <-] <-].
  unfold forum.post_public in E5.
  apply bind_Ok_inv in E5 as (now_iso & w6 & E5 & [<- <-]%ret_inv).
  right. split; [done|]. split; [done|]. eexists. split; [reflexivity|]. reflexivity.
Qed.

Lemma list_posts_loop_page (offset limit : Z) (i : nat) :
  ∀ (count idx : Z) (items items' : list PostPublic.t) (w w' : world),
    forum.list_posts_loop offset limit i count idx items w = (Ok items', w') →
    ∃ new, items' = items ++ new
      ∧ Z.of_nat (length new) <= Z.max 0 (limit - count)
      ∧ sublist (PostPublic.id <$> new)
          (str_of_Z <$> filter (fun j => j <= Z.of_nat i + idx - offset) (countdown i)).
Proof.
  induction i as [|i IH]; intros count idx items items' w w'; cbn [forum.list_posts_loop].
  - intros [<- _]%ret_inv. exists []. rewrite app_nil_r. split; [done|]. split; [cbn; lia|].
    apply sublist_nil_l.
  - destruct (count <? limit) eqn:Ec; cbn [negb].
    2:{ intros [<- _]%ret_inv. exists []. rewrite app_nil_r. split; [done|].
        split; [cbn; lia|]. apply sublist_nil_l. }
    apply Z.ltb_lt in Ec.
    intros ([items1 count1] & w1 & E1 & E2)%bind_Ok_inv. cbn [fst snd] in E2.
    apply IH in E2 as (new & -> & Hlen & Hsub).
    replace (Z.of_nat i + (idx + 1) - offset) with (Z.of_nat (S i) + idx - offset) in Hsub by lia.
    cbn [countdown]. rewrite filter_cons.
    apply list_posts_step_inv in E1 as [[-> ->]|(Ho & -> & p & -> & Hid)].
    + exists new. split; [done|]. split; [lia|].
      destruct (decide _); [|done]. rewrite fmap_cons. by apply sublist_cons.
    + exists (p :: new). split; [by rewrite <- app_assoc|]. split; [cbn [length]; lia|].
      rewrite decide_True by lia. rewrite !fmap_cons, Hid. by apply sublist_skip.
Qed.

(** X16. A page of [list_posts] holds at most [limit] posts (none when
    [limit] is not positive), lists no post twice, and its ids, in the
    order returned, run down from [max_id - offset] at most: the offset
    skips the newest ids, whether or not their posts are visible, and not
    the newest visible posts. *)
Theorem list_posts_page (offset limit : Z) (w : world) (self : t)
  (items : list PostPublic.t) (max_id : Z) :
  redis_client w = Some self →
  (int_or_0 (get (u8 "forum:post_seq") (now w) self).1 w).1 = Ok max_id →
  (forum.list_posts offset limit w).1 = Ok items →
  Z.of_nat (length items) <= Z.max 0 limit
  ∧ NoDup (PostPublic.id <$> items)
  ∧ sublist (PostPublic.id <$> items) (str_of_Z <$> scanned offset max_id).
Proof.
  intros Hc Hmax E. destruct (forum.list_posts offset limit w) as [r w'] eqn:Er.
  cbn [fst] in E. subst r. unfold forum.list_posts in Er.
  rewrite (bind_Ok _ _ _ _ _ (require_redis_Some _ _ Hc)) in Er.
  rewrite (bind_Ok _ _ _ _ _ (await_Some _ _ _ Hc)) in Er.
  apply bind_Ok_inv in Er as (m & w2 & E2 & E3).
  pose proof (int_or_0_inv _ _ _ _ E2) as ->.
  assert (m = max_id) as ->.
  { unfold int_or_0 in Hmax, E2.
    destruct ((get (u8 "forum:post_seq") (now w) self).1) as [[|c s]|].
    - apply ret_inv in E2 as [<- _]. cbn in Hmax. congruence.
    - destruct (int_of_str (c :: s)); [|discriminate].
      apply ret_inv in E2 as [<- _]. cbn in Hmax. congruence.
    - apply ret_inv in E2 as [<- _]. cbn in Hmax. congruence. }
  apply list_posts_loop_page in E3 as (new & -> & Hlen & Hsub).
  cbn [app] in *. rewrite Z.sub_0_r in Hlen. rewrite Z.add_0_r in Hsub.
  assert (Hs : sublist (PostPublic.id <$> new) (str_of_Z <$> scanned offset max_id)).
  { unfold scanned. destruct (decide (0 <= max_id)) as [Hp|Hn].
    - by rewrite Z2Nat.id in Hsub.
    - replace (Z.to_nat max_id) with O in * by lia. exact Hsub. }
  split; [done|]. split; [|done].
  eapply sublist_NoDup; [|exact Hs].
  apply (@NoDup_fmap_2 _ _ str_of_Z str_of_Z_inj). apply NoDup_filter, countdown_NoDup.
Qed.
End page.

Section page_examples.
Import AsyncMemoryRedis.

(** The first page of the forum scenario. *)
Lemma list_posts_page_witness :
  match (forum.list_posts 0 20 Demo.forum_world).1 with
  | Ok items =>
      Z.of_nat (length items) <= 20
      ∧ NoDup (PostPublic.id <$> items)
      ∧ sublist (PostPublic.id <$> items) [u8 "1"]
  | Raise _ => False
  end.
Proof.
  destruct (forum.list_posts 0 20 Demo.forum_world).1 as [items|e] eqn:E.
  - apply (list_posts_page 0 20 Demo.forum_world (Demo.store Demo.forum_world) items 1).
    + apply demo_store_Some. by_compute.
    + by vm_compute.
    + exact E.
  - vm_compute in E. discriminate.
Defined.
End page_examples.

(** ** Splitting and joining *)

Lemma split_char_nosep (sep : N) (s : str) : Forall (fun t => sep ∉ t) (split_char sep s).
Proof.
  induction s as [|c r IH]; cbn [split_char].
  - constructor; [by intros ?%elem_of_nil|constructor].
  - destruct (c =? sep)%N eqn:E.
    + constructor; [by intros ?%elem_of_nil|done].
    + apply N.eqb_neq in E. destruct (split_char sep r) as [|w ws].
      * constructor; [|constructor]. intros [->|?%elem_of_nil]%elem_of_cons; done.
      * apply Forall_cons in IH as [Hw Hws]. constructor; [|done].
        intros [->|?]%elem_of_cons; done.
Qed.

Lemma split_char_one (sep : N) (t : str) : sep ∉ t → split_char sep t = [t].
Proof.
  induction t as [|c r IH]; cbn [split_char]; [done|].
  intros Hn. rewrite not_elem_of_cons in Hn. destruct Hn as [Hc Hr].
  destruct (N.eqb_spec c sep) as [->|_]; [done|]. by rewrite IH.
Qed.

Lemma split_char_app (sep : N) (t r : str) :
  sep ∉ t → split_char sep (t ++ sep :: r) = t :: split_char sep r.
Proof.
  induction t as [|c t IH]; cbn [split_char app].
  - intros _. by rewrite N.eqb_refl.
  - intros Hn. rewrite not_elem_of_cons in Hn. destruct Hn as [Hc Hr].
    destruct (N.eqb_spec c sep) as [->|_]; [done|]. by rewrite IH.
Qed.

Lemma split_join (sep : N) (parts : list str) :
  parts ≠ [] → Forall (fun t => sep ∉ t) parts →
  split_char sep (join [sep] parts) = parts.
Proof.
  induction parts as [|p ps IH]; [done|]. intros _ [Hp Hps]%Forall_cons.
  destruct ps as [|q ps]; cbn [join].
  - by apply split_char_one.
  - cbn [app]. rewrite split_char_app by done. f_equal. by apply IH.
Qed.

Lemma join_nil_inv (sep : N) (parts : list str) :
  join [sep] parts = [] → filter (fun t => truthy t = true) parts = [].
Proof.
  destruct parts as [|p [|q ps]]; cbn [join]; [done| |].
  - intros ->. done.
  - intros E. apply (f_equal length) in E. rewrite !length_app in E. cbn in E. lia.
Qed.

Lemma lstrip_subseteq (s : str) (x : N) : x ∈ lstrip s → x ∈ s.
Proof.
  induction s as [|c r IH]; cbn [lstrip]; [done|].
  destruct (isspace c); [|done]. intros Hx. apply elem_of_cons. right. by apply IH.
Qed.

Lemma strip_subseteq (s : str) (x : N) : x ∈ strip s → x ∈ s.
Proof.
  unfold strip, rstrip. intros Hx. apply lstrip_subseteq.
  apply list_elem_of_In, in_rev, list_elem_of_In in Hx.
  apply lstrip_subseteq in Hx.
  by apply list_elem_of_In, in_rev, list_elem_of_In in Hx.
Qed.

(** X17. Every origin [get_cors_origins] returns is non-empty, has no white
    space at either end and contains no comma; without the environment
    variable the only origin is "http://localhost:3000". *)
Theorem cors_origins_clean (origins_env : option str) :
  Forall (fun o => o ≠ [] ∧ trimmed o ∧ comma ∉ o) (main.get_cors_origins origins_env)
  ∧ main.get_cors_origins None = [u8 "http://localhost:3000"].
Proof.
  split; [|reflexivity].
  unfold main.get_cors_origins. cbv zeta. apply Forall_forall. intros o Ho.
  apply list_elem_of_filter in Ho as [Ht Ho].
  apply list_elem_of_fmap in Ho as (p & -> & Hp).
  split; [by destruct (strip p)|]. split; [apply strip_trimmed|].
  intros Hc%strip_subseteq.
  pose proof (split_char_nosep comma (default (u8 "http://localhost:3000") origins_env)) as Hf.
  rewrite Forall_forall in Hf. by apply (Hf p).
Qed.

Lemma filter_eq_notin (t : str) (ts : list str) : t ∉ ts → filter (fun x => x = t) ts = [].
Proof.
  induction ts as [|x ts IH]; [done|]. intros Hn. rewrite not_elem_of_cons in Hn.
  destruct Hn as [Hx Hts]. rewrite filter_cons, decide_False by done. by apply IH.
Qed.

(** What the readers ([list_mistakes], [stats], [recommendations]) make of
    a [tags] field that holds tags joined by commas. *)
Lemma tags_of_join (tags : list str) (data : gmap str str) :
  Forall (fun t => comma ∉ t) tags →
  data !! u8 "tags" = Some (join (u8 ",") tags) →
  study.tags_of data = filter (fun t => truthy t = true) tags.
Proof.
  intros Hf Hd. unfold study.tags_of. rewrite Hd.
  destruct (join (u8 ",") tags) as [|c r] eqn:E.
  - symmetry. by apply (join_nil_inv comma).
  - rewrite <- E. change (u8 ",") with [comma]. rewrite split_join; [done| |done].
    intros ->. discriminate.
Qed.

(** X19. [count_tags] adds to each tag the number of its occurrences in the
    list and leaves the other tags alone: a tag that occurs is counted from
    0 if it had no count. *)
Theorem count_tags_counts (byTag : gmap str Z) (ts : list str) (t : str) :
  study.count_tags byTag ts !! t
  = if decide (t ∈ ts)
    then Some (default 0 (byTag !! t) + Z.of_nat (length (filter (fun x => x = t) ts)))
    else byTag !! t.
Proof.
  unfold study.count_tags. revert byTag. induction ts as [|x ts IH]; intros byTag.
  - cbn [fold_left]. rewrite decide_False; [done|]. by intros ?%elem_of_nil.
  - cbn [fold_left]. rewrite IH. rewrite filter_cons.
    destruct (decide (x = t)) as [->|Hne].
    + rewrite lookup_insert_eq. cbn [default from_option id length].
      rewrite (decide_True (P := t ∈ t :: ts)) by (apply elem_of_cons; by left).
      destruct (decide (t ∈ ts)).
      * f_equal. lia.
      * rewrite filter_eq_notin by done. cbn [length]. f_equal; lia.
    + rewrite lookup_insert_ne by done.
      destruct (decide (t ∈ ts)) as [Hin|Hnin].
      * rewrite decide_True by (apply elem_of_cons; by right); done.
      * rewrite decide_False; [done|]. intros [?|?]%elem_of_cons; by subst.
Qed.

(** ** Without a store *)

Section no_store.
Context `{Platform}.

Lemma require_redis_None {A} (k : unit → M A) (w : world) :
  redis_client w = None → bind require_redis k w = (Raise not_initialized, w).
Proof. intros Hc. unfold bind, require_redis. by rewrite Hc. Qed.

(** X20. Without a store every handler of the four routers answers 500
    "Redis not initialized" and leaves the world as it was, whatever the
    request and the token: the check comes before anything is read,
    written or drawn. *)
Theorem no_store_500 (w : world) :
  redis_client w = None →
  (∀ p, auth.register p w = (Raise not_initialized, w))
  ∧ (∀ p, auth.login p w = (Raise not_initialized, w))
  ∧ (∀ t, auth.me t w = (Raise not_initialized, w))
  ∧ (∀ t, auth.logout t w = (Raise not_initialized, w))
  ∧ (∀ o l, forum.list_posts o l w = (Raise not_initialized, w))
  ∧ (∀ p t, forum.create_post p t w = (Raise not_initialized, w))
  ∧ (∀ i, forum.get_post i w = (Raise not_initialized, w))
  ∧ (∀ i p t, forum.update_post i p t w = (Raise not_initialized, w))
  ∧ (∀ i t, forum.delete_post i t w = (Raise not_initialized, w))
  ∧ (∀ i t, forum.toggle_like i t w = (Raise not_initialized, w))
  ∧ (∀ i, forum.list_comments i w = (Raise not_initialized, w))
  ∧ (∀ i p t, forum.create_comment i p t w = (Raise not_initialized, w))
  ∧ (∀ c i t, forum.delete_comment c i t w = (Raise not_initialized, w))
  ∧ (∀ p t, study.add_mistake p t w = (Raise not_initialized, w))
  ∧ (∀ t, study.list_mistakes t w = (Raise not_initialized, w))
  ∧ (∀ m t, study.delete_mistake m t w = (Raise not_initialized, w))
  ∧ (∀ d t, study.stats d t w = (Raise not_initialized, w))
  ∧ (∀ l t, study.recommendations l t w = (Raise not_initialized, w))
  ∧ (∀ p t, agent.create_session p t w = (Raise not_initialized, w))
  ∧ (∀ p t, agent.chat p t w = (Raise not_initialized, w))
  ∧ (∀ s t, agent.session_detail s t w = (Raise not_initialized, w)).
Proof.
  intros Hc.
  assert (Hr : ∀ A (k : unit → M A), bind require_redis k w = (Raise not_initialized, w))
    by (intros; by apply require_redis_None).
  assert (Hu : ∀ A t (k : str → M A), bind (agent._ensure_user t) k w
                                      = (Raise not_initialized, w)).
  { intros A t k. unfold agent._ensure_user. unfold bind at 1. by rewrite Hr. }
  repeat split; intros; try apply Hr; try apply Hu.
  unfold auth.me, auth._resolve_user_from_token. unfold bind at 1. by rewrite Hr.
Qed.
End no_store.

(** The world before the application has started. *)
Lemma no_store_500_witness :
  let w := {| redis_client := None; clock := fun _ => 0; clock_reads := 0;
              urandom := fun _ => []; urandom_reads := 0 |} in
  auth.login Demo.alice_login w = (Raise not_initialized, w)
  ∧ agent.chat {| ChatRequest.session_id := u8 "1"; ChatRequest.message := u8 "hi" |}
      (u8 "r2") w = (Raise not_initialized, w).
Proof.
  intros w.
  destruct (no_store_500 (H := Demo.platform) w eq_refl)
    as (_ & Hl & _ & _ & _ & _ & _ & _ & _ & _ & _ & _ & _ & _ & _ & _ & _ & _ & _ & Hchat & _).
  split; [apply Hl | apply Hchat].
Defined.

(** ** Study: the recommendations *)

Lemma slice_to_take {A} (stop : Z) (xs : list A) : ∃ k, study.slice_to stop xs = take k xs.
Proof. unfold study.slice_to. destruct (0 <=? stop); eauto. Qed.

(** The loop appends the recommendations of a prefix of the ranked tags,
    one per tag, and stops as soon as [limit] is reached. *)
Lemma recommend_prefix (limit : Z) (ranked : list (str * Z)) :
  ∀ recs, ∃ k,
    study.recommend limit ranked recs
    = recs ++ (study.recommendation_of <$> take k ranked.*1)
    ∧ (k <= length ranked)%nat
    ∧ Z.of_nat (length recs) + Z.of_nat k <= Z.max (Z.of_nat (length recs) + 1) limit.
Proof.
  induction ranked as [|[tag n] ranked IH]; intros recs; cbn [study.recommend].
  - exists O. split; [by rewrite app_nil_r|]. cbn [length]. lia.
  - cbv zeta.
    destruct (Z.leb_spec limit (Z.of_nat (length (recs ++ [study.recommendation_of tag]))))
      as [Hl|Hl].
    + exists 1%nat. split; [done|]. cbn [length]. lia.
    + destruct (IH (recs ++ [study.recommendation_of tag])) as (k & -> & Hk1 & Hk2).
      exists (S k). split; [by rewrite <- app_assoc|].
      rewrite length_app in Hk2, Hl. cbn [length] in *. lia.
Qed.

(** X21. [recommendations] returns one recommendation per tag, for
    pairwise different tags, and at most [min(limit, max(1, limit // 2))]
    of them: none when [limit] is not positive, and with the default
    [limit = 10] never more than five. *)
Theorem recommendations_bound (limit : Z) (token : str) (w w' : world)
  (recs : list Recommendation.t) :
  study.recommendations limit token w = (Ok recs, w') →
  Z.of_nat (length recs) <= Z.max 0 (Z.min limit (Z.max 1 (limit / 2)))
  ∧ ∃ tags, recs = study.recommendation_of <$> tags ∧ NoDup tags.
Proof.
  unfold study.recommendations.
  intros (? & w1 & _ & E)%bind_Ok_inv.
  apply bind_Ok_inv in E as (uid & w2 & _ & E).
  apply bind_Ok_inv in E as (ids & w3 & _ & E).
  apply bind_Ok_inv in E as (tag_count & w4 & _ & E).
  cbv zeta in E. apply ret_inv in E as [<- _].
  set (ranked := @merge_sort _ study.rank_le study.rank_le_dec (map_to_list tag_count)).
  set (top := study.slice_to (Z.max 1 (limit / 2)) ranked).
  destruct (recommend_prefix limit top []) as (k & Er & Hk1 & Hk2). rewrite Er.
  cbn [app length] in *.
  assert (Htop : Z.of_nat (length top) <= Z.max 1 (limit / 2)).
  { unfold top, study.slice_to. rewrite (proj2 (Z.leb_le 0 _)) by lia. rewrite length_take. lia. }
  split.
  - unfold study.slice_to.
    destruct (Z.leb_spec 0 limit) as [Hp|Hn];
      rewrite length_take, length_fmap, length_take, length_fmap; lia.
  - destruct (slice_to_take limit (study.recommendation_of <$> take k top.*1)) as [j ->].
    rewrite <- fmap_take, take_take.
    eexists. split; [reflexivity|].
    apply (sublist_NoDup _ ranked.*1).
    + unfold ranked. rewrite merge_sort_Permutation. apply NoDup_fst_map_to_list.
    + etrans; [apply sublist_take|]. unfold top.
      destruct (slice_to_take (Z.max 1 (limit / 2)) ranked) as [i ->].
      rewrite fmap_take. apply sublist_take.
Qed.

(** Alice, with one mistake tagged hash, asks for ten recommendations. *)
Lemma recommendations_bound_witness :
  match (study.recommendations 10 (u8 "r2") Demo.studied).1 with
  | Ok recs =>
      Z.of_nat (length recs) <= 5
      ∧ ∃ tags, recs = study.recommendation_of <$> tags ∧ NoDup tags
  | Raise _ => False
  end.
Proof.
  destruct (study.recommendations 10 (u8 "r2") Demo.studied) as [[recs|e] w'] eqn:E;
    cbn [fst].
  - apply (recommendations_bound 10 (u8 "r2") Demo.studied w' recs E).
  - apply (f_equal fst) in E. vm_compute in E. discriminate.
Defined.

(** ** Study: recording a mistake *)

Section recording.
Context `{Platform}.
Import AsyncMemoryRedis.

Lemma cleanup_study_counters (now : Z) (self : t) :
  study_counters self → study_counters (_cleanup now self).
Proof. intros Hs k v Hk. apply Hs. by apply cleanup_kv_Some in Hk. Qed.

Lemma study_counters_kv (s s' : t) : _kv s' = _kv s → study_counters s → study_counters s'.
Proof. intros E Hs k v. rewrite E. apply Hs. Qed.

(** An [incr] of a study counter cannot fail, and it writes an [int]. *)
Lemma await_incr_study (key : str) (w : world) (s : t) :
  redis_client w = Some s →
  study_counters s →
  startswith (u8 "study:") key = true →
  ∃ n s',
    await_incr key w = (Ok n, tick w s')
    ∧ study_counters s' ∧ _hash s' = _hash s ∧ _sets s' = _sets s.
Proof.
  intros Hc Hs Hk.
  assert (Hn : ∃ n, counter (_cleanup (now w) s) key = Some n).
  { unfold counter. destruct (_kv (_cleanup (now w) s) !! key) as [v|] eqn:E.
    - destruct (cleanup_study_counters (now w) s Hs key v E Hk) as [n ->]. by exists n.
    - by exists 0. }
  destruct Hn as [n Hn]. exists (n + 1), (incr key (now w) s).2.
  split; [by apply await_incr_Some|]. split; [|split; [apply incr_hash|apply incr_sets]].
  intros k v. destruct (decide (key = k)) as [<-|Hne].
  - rewrite (incr_kv_eq _ _ _ _ Hn). intros [= <-] _. by eexists.
  - rewrite incr_kv_ne by done. intros Hv. by apply (cleanup_study_counters (now w) s Hs k v).
Qed.

Lemma study_key (uid rest : str) : startswith (u8 "study:") (u8 "study:" ++ uid ++ rest) = true.
Proof. apply startswith_app. Qed.

(** The loop over the tags bumps one counter per tag and touches no hash
    and no set. *)
Lemma tag_counters_Ok (uid : str) (tags : list str) :
  ∀ (w : world) (s : t),
    redis_client w = Some s →
    study_counters s →
    ∃ w' s',
      for_each (fun _ t => await_incr (u8 "study:" ++ uid ++ u8 ":tag:" ++ t) >> ret tt)
        tags tt w = (Ok tt, w')
      ∧ redis_client w' = Some s'
      ∧ study_counters s' ∧ _hash s' = _hash s ∧ _sets s' = _sets s.
Proof.
  induction tags as [|t tags IH]; intros w s Hc Hs; cbn [for_each].
  - by exists w, s.
  - destruct (await_incr_study (u8 "study:" ++ uid ++ u8 ":tag:" ++ t) w s Hc Hs
                (study_key _ _)) as (n & s1 & E & Hs1 & Hh1 & Hse1).
    erewrite bind_Ok; [|erewrite bind_Ok; [reflexivity|exact E]]. cbv beta.
    destruct (IH (tick w s1) s1 eq_refl Hs1) as (w' & s' & E' & Hc' & Hs' & Hh' & Hse').
    exists w', s'. rewrite E'. repeat split; try done; congruence.
Qed.

(** X18. The tags survive the round trip through the record. For a caller
    whose session resolves and a store whose study counters are [int]s,
    [add_mistake] succeeds, returns the mistake with the tags of the
    request, adds its id to the user's set of mistakes and stores a record
    whose [tags] field is the tags joined by commas; when no tag contains a
    comma, what the readers ([list_mistakes], [stats], [recommendations])
    make of that record is the tags that are not empty, in order. *)
Theorem tags_round_trip (w : world) (self : t) (payload : MistakeCreate.t) (token : str)
  (v : pyval) :
  let uid := py_str v in
  redis_client w = Some self →
  study_counters self →
  _kv self !! (u8 "session:" ++ token) = Some v →
  live (now w) self (u8 "session:" ++ token) →
  uid ≠ [] →
  ∃ (m : MistakePublic.t) (w' : world) (self' : t) (mid : Z) (record : gmap str str),
    study.add_mistake payload token w = (Ok m, w')
    ∧ redis_client w' = Some self'
    ∧ MistakePublic.id m = str_of_Z mid
    ∧ MistakePublic.tags m = MistakeCreate.tags payload
    ∧ VInt mid ∈ default ∅ (_sets self' !! (u8 "study:" ++ uid ++ u8 ":mistakes"))
    ∧ _hash self' !! (u8 "study:" ++ uid ++ u8 ":mistake:" ++ str_of_Z mid) = Some record
    ∧ record !! u8 "tags" = Some (join (u8 ",") (MistakeCreate.tags payload))
    ∧ (Forall (fun t => comma ∉ t) (MistakeCreate.tags payload) →
       study.tags_of record
       = filter (fun t => truthy t = true) (MistakeCreate.tags payload)).
Proof.
  intros uid Hc Hs Hv Hl Hne.
  unfold study.add_mistake, study._ensure_redis.
  step_with require_redis_Some.
  unfold bind at 1. rewrite (session_uid_run _ _ _ Hc). cbv zeta.
  rewrite (cleanup_kv_live _ _ _ Hl), Hv. cbn [fmap option_fmap option_map].
  fold uid. destruct uid as [|c u] eqn:Eu; [done|]. clear Hne.
  set (s0 := _cleanup (now w) self).
  assert (Hs0 : study_counters s0) by (by apply cleanup_study_counters).
  destruct (await_incr_study (u8 "study:" ++ (c :: u) ++ u8 ":mistakes_seq") (tick w s0) s0
              eq_refl Hs0 (study_key _ _)) as (mid & s1 & E1 & Hs1 & Hh1 & Hse1).
  erewrite bind_Ok; [|exact E1]. cbv beta.
  step_with @_now_iso_Some.
  erewrite bind_Ok; [| eapply await_Some; client]; cbv beta.
  erewrite bind_Ok; [| eapply await_Some; client]; cbv beta.
  match goal with |- context [tick (tick ?W (hset ?k ?mp ?t ?s).2) _] =>
    set (mapping := mp); set (key := k); set (s2 := (hset k mp t s).2)
  end.
  match goal with |- context [tick _ (sadd ?k ?ms ?t ?s).2] => set (s3 := (sadd k ms t s).2) end.
  assert (Hs3 : study_counters s3).
  { unfold s3, sadd. cbn [snd]. eapply study_counters_kv; [reflexivity|].
    apply cleanup_study_counters. unfold s2.
    eapply study_counters_kv; [apply hset_kv|]. by apply cleanup_study_counters. }
  assert (Hh3 : _hash s3 !! key = Some (mapping ∪ default ∅ (_hash s1 !! key))).
  { unfold s3, sadd. cbn [snd _hash]. rewrite cleanup_hash. unfold s2.
    rewrite hset_hash. apply lookup_insert_eq. }
  assert (Hm3 : VInt mid ∈ default ∅ (_sets s3 !! (u8 "study:" ++ (c :: u) ++ u8 ":mistakes"))).
  { unfold s3, sadd. cbn [snd _sets fold_left]. rewrite lookup_insert_eq. cbn [from_option id].
    apply elem_of_union. right. by apply elem_of_singleton. }
  match goal with |- context [tick ?W s3] => set (w3 := tick W s3) end.
  assert (Hd : ∃ w4 s4,
    (match MistakeCreate.difficulty payload with
     | Some ((_ :: _) as d) =>
         await_incr (u8 "study:" ++ (c :: u) ++ u8 ":difficulty:" ++ d) >> ret tt
     | _ => ret tt
     end) w3 = (Ok tt, w4)
    ∧ redis_client w4 = Some s4
    ∧ study_counters s4 ∧ _hash s4 = _hash s3 ∧ _sets s4 = _sets s3).
  { destruct (MistakeCreate.difficulty payload) as [[|d0 d]|]; try (by exists w3, s3).
    destruct (await_incr_study (u8 "study:" ++ (c :: u) ++ u8 ":difficulty:" ++ d0 :: d) w3 s3
                eq_refl Hs3 (study_key _ _)) as (n & s4 & E & Hs4 & Hh4 & Hse4).
    exists (tick w3 s4), s4. erewrite bind_Ok; [|exact E]. by repeat split. }
  destruct Hd as (w4 & s4 & Ed & Hc4 & Hs4 & Hh4 & Hse4).
  erewrite bind_Ok; [|exact Ed]. cbv beta.
  destruct (tag_counters_Ok (c :: u) (MistakeCreate.tags payload) w4 s4 Hc4 Hs4)
    as (w5 & s5 & Et & Hc5 & Hs5 & Hh5 & Hse5).
  erewrite bind_Ok; [|exact Et]. cbv beta.
  match goal with |- context [await_incr ?k] =>
    destruct (await_incr_study k w5 s5 Hc5 Hs5 (study_key _ _))
      as (n6 & s6 & E6 & Hs6 & Hh6 & Hse6)
  end.
  erewrite bind_Ok; [|exact E6]. cbv beta.
  eexists _, _, s6, mid, _. split; [reflexivity|]. split; [reflexivity|].
  split; [reflexivity|]. split; [reflexivity|].
  split; [by rewrite Hse6, Hse5, Hse4|].
  split; [rewrite Hh6, Hh5, Hh4; exact Hh3|].
  assert (Ht : (mapping ∪ default ∅ (_hash s1 !! key)) !! u8 "tags"
               = Some (join (u8 ",") (MistakeCreate.tags payload))).
  { apply lookup_union_Some_l. reflexivity. }
  split; [exact Ht|]. intros Hf. by apply tags_of_join.
Qed.
End recording.

(** Alice records "two-sum" with the tag hash. *)
Lemma tags_round_trip_witness :
  ∃ (m : MistakePublic.t) (w' : world) (self' : AsyncMemoryRedis.t) (record : gmap str str),
    study.add_mistake Demo.two_sum (u8 "r2") Demo.logged_in = (Ok m, w')
    ∧ redis_client w' = Some self'
    ∧ MistakePublic.tags m = [u8 "hash"]
    ∧ AsyncMemoryRedis._hash self' !! (u8 "study:1:mistake:" ++ MistakePublic.id m)
      = Some record
    ∧ record !! u8 "tags" = Some (u8 "hash")
    ∧ study.tags_of record = [u8 "hash"].
Proof.
  destruct (tags_round_trip (H := Demo.platform) Demo.logged_in (Demo.store Demo.logged_in)
              Demo.two_sum (u8 "r2") (VStr (u8 "1")))
    as (m & w' & self' & mid & record & E & Hc' & Hid & Htags & _ & Hrec & Ht & Hread).
  - apply demo_store_Some. by_compute.
  - intros k v Hk Hs. exfalso.
    assert (Hn : map_Forall (fun k _ => startswith (u8 "study:") k = false)
                   (AsyncMemoryRedis._kv (Demo.store Demo.logged_in))) by by_compute.
    rewrite (Hn k v Hk) in Hs. discriminate.
  - by_compute.
  - vm_compute. reflexivity.
  - intros E. vm_compute in E. discriminate.
  - exists m, w', self', record. split; [exact E|]. split; [exact Hc'|].
    split; [exact Htags|]. split; [by rewrite Hid|]. split; [exact Ht|].
    rewrite Hread; [reflexivity|].
    apply Forall_cons. split; [by_compute|by apply Forall_nil].
Defined.

(** ** The deadline of a key on examples *)

(** Alice's session, created by the [setex] whose second reading shows
    instant 110, resolves at instant 604909 and no longer at 604910. *)
Example session_deadline :
  now (Demo.elapse 604797 Demo.logged_in) = 604909
  ∧ Demo.eval (auth.me (u8 "r2")) (Demo.elapse 604797 Demo.logged_in)
    = Ok {| UserPublic.id := u8 "1"; UserPublic.username := u8 "alice" |}
  ∧ Demo.eval (auth.me (u8 "r2")) (Demo.elapse 604798 Demo.logged_in)
    = Raise unauthorized.
Proof. by vm_compute. Qed.

(** The sum of 2^53 and one second rounds to 2^53: a key set for one
    second at that instant is born expired. *)
Example born_expired :
  float_add (2 ^ 53) 1 = 2 ^ 53
  ∧ (AsyncMemoryRedis.get (u8 "k") (2 ^ 53)
       (AsyncMemoryRedis.setex (u8 "k") 1 (VInt 7) (2 ^ 53) (2 ^ 53)
          AsyncMemoryRedis.__init__).2).1 = None.
Proof. by vm_compute. Qed.
